(** * PocketShield real-time WebSocket service: connection registry and fan-out

    A shallow embedding of [cloud-api/app/websocket_service.py].

    The Python class [WebSocketManager] keeps two dictionaries
    ([active_connections], [device_to_connection]) and talks to three
    external parties: the WebSocket objects of the devices, a Redis client
    and the logger.  Every method is embedded as a computation in a state
    and exception monad over a [World]:

    - the two dictionaries are [gmap]s, the subscription sets [gset]s;
    - [uuid.uuid4()] draws from a supply of fresh identifiers;
    - [datetime.utcnow()] reads a clock given as a sequence of readings
      (in microseconds);
    - each call on a WebSocket or on Redis appends an event to a trace and
      succeeds or raises as an oracle of the world decides, so that every
      pattern of transport and store failures can be expressed;
    - [asyncio.create_task(self.disconnect(..))] appends to a queue of
      scheduled tasks, which the event loop runs later ([run_tasks]);
    - [message.to_json()] succeeds or raises [TypeError] as [json.dumps]
      does on the [data] of the envelope; the JSON text itself is not
      modelled, an envelope stands for its rendering.

    Coroutines are run to completion one after the other: interleavings at
    [await] points are not modelled.  An inbound frame is a dictionary of
    optional entries; the value under [threat_types] is an iterable of
    strings or a value [set(..)] raises [TypeError] on, and
    [risk_threshold] is a Python integer, as the dataclass declares it. *)

From Stdlib Require Import ZArith QArith.
From stdpp Require Import gmap strings list fin_maps.

Local Open Scope string_scope.
Local Open Scope Z_scope.

(** ** Enumerations *)

Inductive AlertSeverity := LOW | MEDIUM | HIGH | CRITICAL.

Inductive AlertType :=
  | NEW_THREAT | SECURITY_UPDATE | APP_VULNERABILITY
  | DEVICE_COMPROMISE | SUSPICIOUS_ACTIVITY | SYSTEM_MAINTENANCE.

#[global] Instance AlertSeverity_eq_dec : EqDecision AlertSeverity.
Proof. solve_decision. Defined.

#[global] Instance AlertType_eq_dec : EqDecision AlertType.
Proof. solve_decision. Defined.

(** The [.value] of the enum members. *)
Definition severity_value (s : AlertSeverity) : string :=
  match s with
  | LOW => "low" | MEDIUM => "medium" | HIGH => "high" | CRITICAL => "critical"
  end.

Definition alert_type_value (t : AlertType) : string :=
  match t with
  | NEW_THREAT => "new_threat"
  | SECURITY_UPDATE => "security_update"
  | APP_VULNERABILITY => "app_vulnerability"
  | DEVICE_COMPROMISE => "device_compromise"
  | SUSPICIOUS_ACTIVITY => "suspicious_activity"
  | SYSTEM_MAINTENANCE => "system_maintenance"
  end.

(** ** Data classes *)

(** Identity of a [WebSocket] object. *)
Abbreviation chan := nat (only parsing).

(** [str(uuid.uuid4())]. *)
Abbreviation uuid := nat (only parsing).

Record ThreatAlert := {
  alert_id : string;
  alert_type : AlertType;
  severity : AlertSeverity;
  title : string;
  description : string;
  indicators : list (string * list string);
  affected_regions : list string;
  threat_tags : list string;
  action_required : bool;
  expires_at : option string;
  created_at : string
}.

Record ConnectionInfo := {
  device_id : string;
  websocket : chan;
  connected_at : Z;
  last_ping : Z;
  subscriptions : gset string;
  risk_threshold : Z;
  geographic_regions : list string
}.

#[global] Instance ConnectionInfo_eq_dec : EqDecision ConnectionInfo.
Proof. solve_decision. Defined.

(** The [data] dictionary of an envelope, one constructor per shape the
    service builds. *)
Inductive payload :=
  | DConnectionEstablished (connection_id : uuid) (subs : list string) (server_time : Z)
  | DThreatAlert (alert : ThreatAlert) (priority : string)
  | DSecurityUpdate (update_data : list (string * string))
  | DPong (server_time : Z)
  | DSubscriptionUpdated (subs : list string) (threshold : Z)
  | DReportAcknowledged (report_id : uuid)
  | DBroadcast (message : string)
  | DServerPing (server_time : Z).

Record WebSocketMessage := {
  message_id : uuid;
  message_type : string;
  timestamp : Z;
  data : payload;
  msg_device_id : option string
}.

(** [message.device_id = d] *)
Definition stamp (m : WebSocketMessage) (d : string) : WebSocketMessage :=
  {| message_id := message_id m; message_type := message_type m;
     timestamp := timestamp m; data := data m; msg_device_id := Some d |}.

(** ** The world: manager state, environment and effects *)

Inductive exn :=
  | AcceptError | CloseError | SendError | RedisError
  | KeyError | StopIteration | TypeError.

Inductive redis_value :=
  | ConnectionMeta (device : string) (connected : Z) (subs : list string)
  | ThreatReport (report_id : uuid) (device : string)
                 (report_data : list (string * string)) (time : Z).

Inductive level := INFO | WARNING | ERROR.

(** One entry per call that leaves the process; [ok] tells whether the
    call returned or raised. *)
Inductive event :=
  | EvAccept (ws : chan) (ok : bool)
  | EvClose (ws : chan) (ok : bool)
  | EvSend (ws : chan) (m : WebSocketMessage) (ok : bool)
  | EvSetex (key : uuid) (ttl : Z) (v : redis_value) (ok : bool)
  | EvDelete (key : uuid) (ok : bool)
  | EvLpush (key : string) (v : redis_value) (ok : bool)
  | EvLog (l : level) (text : string).

Record World := {
  (* self.active_connections: connection_id -> ConnectionInfo *)
  active_connections : gmap uuid ConnectionInfo;
  (* self.device_to_connection: device_id -> connection_id *)
  device_to_connection : gmap string uuid;
  (* coroutines handed to asyncio.create_task(self.disconnect(cid)) *)
  tasks : list uuid;
  (* next identifier uuid4 hands out *)
  next_uuid : uuid;
  (* number of clock readings taken so far *)
  reads : nat;
  (* calls to the outside so far, oldest first *)
  trace : list event;
  (* the n-th reading of datetime.utcnow(), in microseconds *)
  clock : nat -> Z;
  (* does the outside call issued when the trace has n entries raise? *)
  faulty : nat -> bool
}.

Definition set_active (f : gmap uuid ConnectionInfo -> gmap uuid ConnectionInfo)
    (w : World) : World :=
  {| active_connections := f (active_connections w);
     device_to_connection := device_to_connection w;
     tasks := tasks w; next_uuid := next_uuid w; reads := reads w;
     trace := trace w; clock := clock w; faulty := faulty w |}.

Definition set_devices (f : gmap string uuid -> gmap string uuid)
    (w : World) : World :=
  {| active_connections := active_connections w;
     device_to_connection := f (device_to_connection w);
     tasks := tasks w; next_uuid := next_uuid w; reads := reads w;
     trace := trace w; clock := clock w; faulty := faulty w |}.

Definition set_tasks (f : list uuid -> list uuid) (w : World) : World :=
  {| active_connections := active_connections w;
     device_to_connection := device_to_connection w;
     tasks := f (tasks w); next_uuid := next_uuid w; reads := reads w;
     trace := trace w; clock := clock w; faulty := faulty w |}.

Definition set_next_uuid (n : uuid) (w : World) : World :=
  {| active_connections := active_connections w;
     device_to_connection := device_to_connection w;
     tasks := tasks w; next_uuid := n; reads := reads w;
     trace := trace w; clock := clock w; faulty := faulty w |}.

Definition set_reads (n : nat) (w : World) : World :=
  {| active_connections := active_connections w;
     device_to_connection := device_to_connection w;
     tasks := tasks w; next_uuid := next_uuid w; reads := n;
     trace := trace w; clock := clock w; faulty := faulty w |}.

Definition emit (e : event) (w : World) : World :=
  {| active_connections := active_connections w;
     device_to_connection := device_to_connection w;
     tasks := tasks w; next_uuid := next_uuid w; reads := reads w;
     trace := trace w ++ [e]; clock := clock w; faulty := faulty w |}.

(** [WebSocketManager.__init__] in an environment [c], [f]. *)
Definition init (c : nat -> Z) (f : nat -> bool) : World :=
  {| active_connections := ∅; device_to_connection := ∅; tasks := [];
     next_uuid := 0%nat; reads := 0%nat; trace := []; clock := c; faulty := f |}.

(** ** State and exception monad *)

Inductive outcome (A : Type) :=
  | Ok (a : A)
  | Raise (e : exn).
Arguments Ok {A} a.
Arguments Raise {A} e.

Definition M (A : Type) : Type := World -> World * outcome A.

Definition ret {A} (a : A) : M A := fun w => (w, Ok a).

Definition raise {A} (e : exn) : M A := fun w => (w, Raise e).

Definition bind {A B} (m : M A) (k : A -> M B) : M B :=
  fun w => match m w with
           | (w', Ok a) => k a w'
           | (w', Raise e) => (w', Raise e)
           end.

(** [try: m  except Exception as e: h e] *)
Definition try_except {A} (m : M A) (h : exn -> M A) : M A :=
  fun w => match m w with
           | (w', Ok a) => (w', Ok a)
           | (w', Raise e) => h e w'
           end.

Definition modify (f : World -> World) : M unit := fun w => (f w, Ok tt).

Definition gets {A} (f : World -> A) : M A := fun w => (w, Ok (f w)).

Notation "'let*' x ':=' m 'in' k" := (bind m (fun x => k))
  (at level 10, x name, m at level 100, k at level 200).
Notation "m ';;' k" := (bind m (fun _ => k))
  (at level 100, k at level 200, right associativity).

(** ** Primitive effects *)

Definition uuid4 : M uuid :=
  fun w => (set_next_uuid (S (next_uuid w)) w, Ok (next_uuid w)).

Definition utcnow : M Z :=
  fun w => (set_reads (S (reads w)) w, Ok (clock w (reads w))).

(** A call to the outside: recorded in the trace, raising [e] when the
    oracle says so. *)
Definition extern (mk : bool -> event) (e : exn) : M unit :=
  fun w =>
    if faulty w (length (trace w))
    then (emit (mk false) w, Raise e)
    else (emit (mk true) w, Ok tt).

Definition ws_accept (ws : chan) : M unit := extern (EvAccept ws) AcceptError.
Definition ws_close (ws : chan) : M unit := extern (EvClose ws) CloseError.
Definition ws_send_text (ws : chan) (m : WebSocketMessage) : M unit :=
  extern (EvSend ws m) SendError.
Definition redis_setex (key : uuid) (ttl : Z) (v : redis_value) : M unit :=
  extern (EvSetex key ttl v) RedisError.
Definition redis_delete (key : uuid) : M unit :=
  extern (EvDelete key) RedisError.
Definition redis_lpush (key : string) (v : redis_value) : M unit :=
  extern (EvLpush key v) RedisError.

Definition log (l : level) (text : string) : M unit :=
  modify (emit (EvLog l text)).

(** [asyncio.create_task(self.disconnect(cid))] *)
Definition create_task (cid : uuid) : M unit :=
  modify (set_tasks (fun q => (q ++ [cid])%list)).

(** ** Python helpers *)

(** [timedelta.total_seconds()] of a difference given in microseconds (an
    exact rational here, a float in Python). *)
Definition total_seconds (us : Z) : Q := Qmake us 1000000.

(** [del self.active_connections[cid]] *)
Definition del_active (cid : uuid) : M unit :=
  fun w => match active_connections w !! cid with
           | Some _ => (set_active (delete cid) w, Ok tt)
           | None => (w, Raise KeyError)
           end.

(** [self.active_connections[cid] = c], also used to write back the
    attribute assignments on the [ConnectionInfo] object stored there. *)
Definition store_active (cid : uuid) (c : ConnectionInfo) : M unit :=
  modify (set_active (insert cid c)).

(** [self.active_connections.items()] and [.values()] *)
Definition items (w : World) : list (uuid * ConnectionInfo) :=
  map_to_list (active_connections w).

Definition values (w : World) : list ConnectionInfo := (items w).*2.

(** [subscriptions or d] for the optional set argument of [connect]. *)
Definition or_set (o : option (gset string)) (d : gset string) : gset string :=
  match o with
  | Some s => if decide (s = ∅) then d else s
  | None => d
  end.

(** [list(subscriptions or [])] *)
Definition or_nil (o : option (gset string)) : list string :=
  match o with
  | Some s => if decide (s = ∅) then [] else elements s
  | None => []
  end.

Definition default_subscriptions : gset string :=
  {[ "phishing"; "malware"; "scam" ]}.

Definition set_last_ping (t : Z) (c : ConnectionInfo) : ConnectionInfo :=
  {| device_id := device_id c; websocket := websocket c;
     connected_at := connected_at c; last_ping := t;
     subscriptions := subscriptions c; risk_threshold := risk_threshold c;
     geographic_regions := geographic_regions c |}.

Definition set_subscriptions (s : gset string) (c : ConnectionInfo) : ConnectionInfo :=
  {| device_id := device_id c; websocket := websocket c;
     connected_at := connected_at c; last_ping := last_ping c;
     subscriptions := s; risk_threshold := risk_threshold c;
     geographic_regions := geographic_regions c |}.

Definition set_risk_threshold (t : Z) (c : ConnectionInfo) : ConnectionInfo :=
  {| device_id := device_id c; websocket := websocket c;
     connected_at := connected_at c; last_ping := last_ping c;
     subscriptions := subscriptions c; risk_threshold := t;
     geographic_regions := geographic_regions c |}.

(** Does [json.dumps] accept the [data] dictionary?  It accepts strings,
    numbers, booleans, [None], and lists and dictionaries of those.  The
    [data] of a threat alert holds [asdict(alert)], in which [alert_type]
    and [severity] are still members of the plain [Enum] classes
    [AlertType] and [AlertSeverity]: [json.dumps] raises [TypeError] on it.
    Every other [data] the service builds holds strings, integers, booleans
    and lists of strings only; the [update_data] of a security update,
    which the caller supplies, is taken as a dictionary of strings. *)
Definition json_serializable (d : payload) : bool :=
  match d with
  | DThreatAlert _ _ => false
  | _ => true
  end.

(** [WebSocketMessage.to_json]: [json.dumps(asdict(self))]. *)
Definition to_json (message : WebSocketMessage) : M WebSocketMessage :=
  if json_serializable (data message) then ret message else raise TypeError.

(** ** WebSocketManager *)

(** The argument [message.to_json()] is evaluated inside the [try], before
    [send_text] is called. *)
Definition _send_message (ws : chan) (message : WebSocketMessage) : M unit :=
  try_except (let* text := to_json message in ws_send_text ws text)
    (fun e => log ERROR "Failed to send WebSocket message" ;; raise e).

Definition disconnect (connection_id : uuid) : M unit :=
  let* found := gets (fun w => active_connections w !! connection_id) in
  match found with
  | None => ret tt
  | Some connection =>
      let device := device_id connection in
      try_except (ws_close (websocket connection))
        (fun e => log WARNING "Error closing WebSocket") ;;
      del_active connection_id ;;
      (let* known := gets (fun w => device_to_connection w !! device) in
       match known with
       | Some _ => modify (set_devices (delete device))
       | None => ret tt
       end) ;;
      redis_delete connection_id ;;
      log INFO "WebSocket disconnected"
  end.

Definition disconnect_device (device : string) : M unit :=
  let* found := gets (fun w => device_to_connection w !! device) in
  match found with
  | Some connection_id => disconnect connection_id
  | None => ret tt
  end.

Definition connect (ws : chan) (device : string)
    (subs : option (gset string)) : M uuid :=
  let* connection_id := uuid4 in
  ws_accept ws ;;
  (let* known := gets (fun w => device_to_connection w !! device) in
   match known with
   | Some _ => disconnect_device device
   | None => ret tt
   end) ;;
  let* t_connected := utcnow in
  let* t_ping := utcnow in
  let connection_info :=
    {| device_id := device; websocket := ws;
       connected_at := t_connected; last_ping := t_ping;
       subscriptions := or_set subs default_subscriptions;
       risk_threshold := 50;
       geographic_regions := ["IN"] |} in
  store_active connection_id connection_info ;;
  modify (set_devices (insert device connection_id)) ;;
  let* mid := uuid4 in
  let* ts := utcnow in
  let* server_time := utcnow in
  let welcome_msg :=
    {| message_id := mid; message_type := "connection_established";
       timestamp := ts;
       data := DConnectionEstablished connection_id (or_nil subs) server_time;
       msg_device_id := Some device |} in
  _send_message ws welcome_msg ;;
  redis_setex connection_id 3600
    (ConnectionMeta device (connected_at connection_info)
       (elements (subscriptions connection_info))) ;;
  log INFO "WebSocket connected" ;;
  ret connection_id.

(** The dictionary literal [severity_scores]; it has an entry for every
    member of the enumeration, so the default of [.get(.., 0)] is never
    taken. *)
Definition severity_scores (s : AlertSeverity) : Z :=
  match s with
  | LOW => 25 | MEDIUM => 50 | HIGH => 75 | CRITICAL => 95
  end.

Definition nonempty {A} (l : list A) : bool :=
  match l with [] => false | _ => true end.

Definition _should_receive_alert (connection : ConnectionInfo)
    (alert : ThreatAlert) : bool :=
  if negb (bool_decide
             (alert_type_value (alert_type alert) ∈ subscriptions connection))
  then false
  else if severity_scores (severity alert) <? risk_threshold connection
  then false
  else if nonempty (affected_regions alert)
          && nonempty (geographic_regions connection)
  then
    if bool_decide ((list_to_set (affected_regions alert) : gset string)
                    ∩ list_to_set (geographic_regions connection) = ∅)
    then false
    else true
  else true.

(** The loop over [target_devices] shared by [send_threat_alert] and
    [send_security_update]. *)
Definition resolve_targets (target_devices : list string) (w : World)
    : list ConnectionInfo :=
  omap (fun device =>
          match device_to_connection w !! device with
          | Some connection_id => active_connections w !! connection_id
          | None => None
          end) target_devices.

(** [next(cid for cid, conn in self.active_connections.items()
          if conn == connection)] *)
Definition find_connection_id (connection : ConnectionInfo) : M uuid :=
  fun w => match list_find (fun p => p.2 = connection) (items w) with
           | Some (_, (cid, _)) => (w, Ok cid)
           | None => (w, Raise StopIteration)
           end.

Fixpoint send_alerts (message : WebSocketMessage)
    (target_connections : list ConnectionInfo) (sent_count : nat) : M nat :=
  match target_connections with
  | [] => ret sent_count
  | connection :: rest =>
      let* n :=
        try_except
          (_send_message (websocket connection)
             (stamp message (device_id connection)) ;;
           ret (S sent_count))
          (fun e =>
             log ERROR "Failed to send alert to device" ;;
             let* cid := find_connection_id connection in
             create_task cid ;;
             ret sent_count) in
      send_alerts message rest n
  end.

Definition priority_of (s : AlertSeverity) : string :=
  match s with
  | HIGH | CRITICAL => "high"
  | _ => "normal"
  end.

Definition send_threat_alert (alert : ThreatAlert)
    (target_devices : option (list string)) : M nat :=
  let* mid := uuid4 in
  let* ts := utcnow in
  let message :=
    {| message_id := mid; message_type := "threat_alert"; timestamp := ts;
       data := DThreatAlert alert (priority_of (severity alert));
       msg_device_id := None |} in
  let* target_connections :=
    gets (fun w =>
            match target_devices with
            | Some (d :: ds) => resolve_targets (d :: ds) w
            | _ => filter (fun c => _should_receive_alert c alert = true)
                     (values w)
            end) in
  let* sent_count := send_alerts message target_connections 0%nat in
  log INFO "Sent threat alert" ;;
  ret sent_count.

Fixpoint send_updates (message : WebSocketMessage)
    (target_connections : list ConnectionInfo) (sent_count : nat) : M nat :=
  match target_connections with
  | [] => ret sent_count
  | connection :: rest =>
      let* n :=
        try_except
          (_send_message (websocket connection)
             (stamp message (device_id connection)) ;;
           ret (S sent_count))
          (fun e =>
             log ERROR "Failed to send update to device" ;;
             ret sent_count) in
      send_updates message rest n
  end.

Definition send_security_update (update_data : list (string * string))
    (target_devices : option (list string)) : M nat :=
  let* mid := uuid4 in
  let* ts := utcnow in
  let message :=
    {| message_id := mid; message_type := "security_update"; timestamp := ts;
       data := DSecurityUpdate update_data; msg_device_id := None |} in
  let* target_connections :=
    gets (fun w =>
            match target_devices with
            | Some (d :: ds) => resolve_targets (d :: ds) w
            | _ => values w
            end) in
  send_updates message target_connections 0%nat.

(** The value under ["threat_types"] as [set(..)] sees it.  [Members l] is
    an iterable whose items are the strings [l]: an array of strings, and
    also a string (iterated as its characters) or an object (iterated as its
    keys).  [Unusable] is a value on which [set(..)] raises [TypeError]:
    [null], a number or a boolean, which are not iterable, or an array that
    holds an array or an object, which are not hashable.  An array holding
    numbers, booleans or [null] is accepted by [set(..)] just as an array of
    strings is; its members are not represented here. *)
Inductive threat_types_value :=
  | Members (l : list string)
  | Unusable.

(** An inbound client frame, the dictionary [message_data]; [None] stands
    for an absent key ([md_type] also for a type that is not a string, which
    no branch matches). *)
Record MessageData := {
  md_type : option string;
  md_threat_types : option threat_types_value;
  md_risk_threshold : option Z;
  md_data : option (list (string * string))
}.

(** [set(message_data.get("threat_types", []))] *)
Definition set_of_threat_types (message_data : MessageData) : M (gset string) :=
  match md_threat_types message_data with
  | None => ret (list_to_set [])
  | Some (Members l) => ret (list_to_set l)
  | Some Unusable => raise TypeError
  end.

Definition _handle_threat_report (connection : ConnectionInfo)
    (report_data : list (string * string)) : M unit :=
  try_except
    (let* report_id := uuid4 in
     let* ts := utcnow in
     redis_lpush "threat_reports"
       (ThreatReport report_id (device_id connection) report_data ts) ;;
     let* mid := uuid4 in
     let* ts' := utcnow in
     let ack_msg :=
       {| message_id := mid; message_type := "report_acknowledged";
          timestamp := ts'; data := DReportAcknowledged report_id;
          msg_device_id := Some (device_id connection) |} in
     _send_message (websocket connection) ack_msg ;;
     log INFO "Threat report received")
    (fun e => log ERROR "Failed to handle threat report").

Definition handle_client_message (connection_id : uuid)
    (message_data : MessageData) : M unit :=
  let* found := gets (fun w => active_connections w !! connection_id) in
  match found with
  | None => ret tt
  | Some connection0 =>
      let message_type := md_type message_data in
      let* now := utcnow in
      let connection := set_last_ping now connection0 in
      store_active connection_id connection ;;
      if decide (message_type = Some "ping") then
        let* mid := uuid4 in
        let* ts := utcnow in
        let* server_time := utcnow in
        let pong_msg :=
          {| message_id := mid; message_type := "pong"; timestamp := ts;
             data := DPong server_time;
             msg_device_id := Some (device_id connection) |} in
        _send_message (websocket connection) pong_msg
      else if decide (message_type = Some "subscribe") then
        let* new_subscriptions := set_of_threat_types message_data in
        let connection1 :=
          set_subscriptions (subscriptions connection ∪ new_subscriptions)
            connection in
        store_active connection_id connection1 ;;
        let connection2 :=
          match md_risk_threshold message_data with
          | Some t => set_risk_threshold t connection1
          | None => connection1
          end in
        store_active connection_id connection2 ;;
        let* mid := uuid4 in
        let* ts := utcnow in
        let ack_msg :=
          {| message_id := mid; message_type := "subscription_updated";
             timestamp := ts;
             data := DSubscriptionUpdated
                       (elements (subscriptions connection2))
                       (risk_threshold connection2);
             msg_device_id := Some (device_id connection2) |} in
        _send_message (websocket connection2) ack_msg
      else if decide (message_type = Some "unsubscribe") then
        let* remove_subscriptions := set_of_threat_types message_data in
        store_active connection_id
          (set_subscriptions (subscriptions connection ∖ remove_subscriptions)
             connection)
      else if decide (message_type = Some "report_threat") then
        _handle_threat_report connection
          (default [] (md_data message_data))
      else
        log WARNING "Unknown message type"
  end.

Fixpoint broadcast_each (message : WebSocketMessage)
    (conns : list (uuid * ConnectionInfo)) (sent_count : nat)
    (failed_connections : list uuid) : M (nat * list uuid) :=
  match conns with
  | [] => ret (sent_count, failed_connections)
  | (connection_id, connection) :: rest =>
      let* r :=
        try_except
          (_send_message (websocket connection)
             (stamp message (device_id connection)) ;;
           ret (S sent_count, failed_connections))
          (fun e =>
             log ERROR "Failed to broadcast" ;;
             ret (sent_count, (failed_connections ++ [connection_id])%list)) in
      broadcast_each message rest r.1 r.2
  end.

Fixpoint create_tasks (cids : list uuid) : M unit :=
  match cids with
  | [] => ret tt
  | cid :: rest => create_task cid ;; create_tasks rest
  end.

Definition broadcast_system_message (message message_type : string) : M nat :=
  let* mid := uuid4 in
  let* ts := utcnow in
  let broadcast_msg :=
    {| message_id := mid; message_type := message_type; timestamp := ts;
       data := DBroadcast message; msg_device_id := None |} in
  let* conns := gets items in
  let* r := broadcast_each broadcast_msg conns 0%nat [] in
  create_tasks r.2 ;;
  log INFO "Broadcast message sent" ;;
  ret r.1.

Record ConnectionStats := {
  total_connections : nat;
  subscription_counts : gmap string nat;
  stale_connections : nat;
  uptime_seconds : Q
}.

(** [(now - connection.last_ping).total_seconds() > 300] *)
Definition is_stale (now : Z) (c : ConnectionInfo) : bool :=
  negb (Qle_bool (total_seconds (now - last_ping c)) (inject_Z 300)).

Definition count_subscriptions (conns : list ConnectionInfo)
    : gmap string nat :=
  foldl (fun counts c =>
           foldl (fun counts' subscription =>
                    <[subscription :=
                        S (default 0%nat (counts' !! subscription))]> counts')
                 counts (elements (subscriptions c)))
        ∅ conns.

Definition get_connection_stats : M ConnectionStats :=
  let* now := utcnow in
  let* active_count := gets (fun w => size (active_connections w)) in
  let* conns := gets values in
  let counts := count_subscriptions conns in
  let stale := length (filter (fun c => is_stale now c = true) conns) in
  let* later := utcnow in
  ret {| total_connections := active_count;
         subscription_counts := counts;
         stale_connections := stale;
         uptime_seconds := total_seconds (now - later) |}.

(** The event loop running the coroutines handed to [create_task]; an
    exception escaping a task is not seen by anyone. *)
Fixpoint run_each (q : list uuid) (w : World) : World :=
  match q with
  | [] => w
  | cid :: rest => run_each rest (disconnect cid w).1
  end.

Definition run_tasks (w : World) : World :=
  run_each (tasks w) (set_tasks (fun _ => []) w).

(** [lookup_by_device]: the session a device id resolves to. *)
Definition lookup_by_device (device : string) (w : World)
    : option ConnectionInfo :=
  match device_to_connection w !! device with
  | Some connection_id => active_connections w !! connection_id
  | None => None
  end.

(** ** Scenarios *)

Definition healthy : nat -> bool := fun _ => false.
Definition fails_at (k : nat) : nat -> bool := fun n => Nat.eqb n k.
Definition frozen (t : Z) : nat -> Z := fun _ => t.

Definition phishing_alert (s : AlertSeverity) : ThreatAlert :=
  {| alert_id := "a1"; alert_type := NEW_THREAT; severity := s;
     title := "New Phishing Threat Detected"; description := "";
     indicators := []; affected_regions := ["IN"];
     threat_tags := ["phishing"; "social_engineering"];
     action_required := true; expires_at := None; created_at := "" |}.

(** Device [D1] connected on channel 7 with the default subscriptions, in
    an environment whose outside calls fail as [f] says. *)
Definition w_connected (f : nat -> bool) : World :=
  (connect 7 "D1" None (init (frozen 0) f)).1.


(** ** Auxiliary notions for the statements *)

(** The world [disconnect cid] leaves behind when [cid] was the session
    [c]: both index entries removed, [tl] appended to the trace. *)
Definition torn_down (cid : uuid) (c : ConnectionInfo) (tl : list event)
    (w : World) : World :=
  {| active_connections := delete cid (active_connections w);
     device_to_connection := delete (device_id c) (device_to_connection w);
     tasks := tasks w; next_uuid := next_uuid w; reads := reads w;
     trace := trace w ++ tl; clock := clock w; faulty := faulty w |}.

(** Consistency of the two indexes: every device entry points to a live
    session of that device, every live session is indexed under its device,
    and identifiers in use have been handed out by [uuid4]. *)
Record registry_ok (w : World) : Prop := {
  ok_device : forall d cid,
    device_to_connection w !! d = Some cid ->
    exists c, active_connections w !! cid = Some c /\ device_id c = d;
  ok_active : forall cid c,
    active_connections w !! cid = Some c ->
    device_to_connection w !! device_id c = Some cid;
  ok_fresh : forall cid,
    is_Some (active_connections w !! cid) -> (cid < next_uuid w)%nat
}.

(** The live sessions of a device. *)
Definition live_for (device : string) (w : World) (cid : uuid)
    (c : ConnectionInfo) : Prop :=
  active_connections w !! cid = Some c /\ device_id c = device.

(** A sequence of [connect] calls for one device; the result lists the
    world and the outcome after each call. *)
Fixpoint connects (device : string)
    (calls : list (chan * option (gset string))) (w : World)
    : list (World * outcome uuid) :=
  match calls with
  | [] => []
  | (ws, subs) :: rest =>
      let r := connect ws device subs w in
      r :: connects device rest r.1
  end.

(** The send attempts recorded in a piece of trace. *)
Definition sends (tl : list event) : list (chan * WebSocketMessage) :=
  omap (fun e => match e with
                 | EvSend ws m _ => Some (ws, m)
                 | _ => None
                 end) tl.

(** The two phases of [connect]: up to the teardown of the previous session
    of the device, and from the creation of the new [ConnectionInfo] on. *)
Definition connect_teardown (ws : chan) (device : string) : M uuid :=
  let* connection_id := uuid4 in
  ws_accept ws ;;
  (let* known := gets (fun w => device_to_connection w !! device) in
   match known with
   | Some _ => disconnect_device device
   | None => ret tt
   end) ;;
  ret connection_id.

Definition new_connection (ws : chan) (device : string)
    (subs : option (gset string)) (t_connected t_ping : Z) : ConnectionInfo :=
  {| device_id := device; websocket := ws;
     connected_at := t_connected; last_ping := t_ping;
     subscriptions := or_set subs default_subscriptions;
     risk_threshold := 50;
     geographic_regions := ["IN"] |}.

Definition connect_store (ws : chan) (device : string)
    (subs : option (gset string)) (connection_id : uuid) : M uuid :=
  let* t_connected := utcnow in
  let* t_ping := utcnow in
  let connection_info := new_connection ws device subs t_connected t_ping in
  store_active connection_id connection_info ;;
  modify (set_devices (insert device connection_id)) ;;
  let* mid := uuid4 in
  let* ts := utcnow in
  let* server_time := utcnow in
  let welcome_msg :=
    {| message_id := mid; message_type := "connection_established";
       timestamp := ts;
       data := DConnectionEstablished connection_id (or_nil subs) server_time;
       msg_device_id := Some device |} in
  _send_message ws welcome_msg ;;
  redis_setex connection_id 3600
    (ConnectionMeta device (connected_at connection_info)
       (elements (subscriptions connection_info))) ;;
  log INFO "WebSocket connected" ;;
  ret connection_id.

(** The world after a sequence of [connect] calls for one device. *)
Fixpoint after_connects (device : string)
    (calls : list (chan * option (gset string))) (w : World) : World :=
  match calls with
  | [] => w
  | (ws, subs) :: rest => after_connects device rest (connect ws device subs w).1
  end.

(** A client frame at the types of the wire format: a list of strings for
    [threat_types], an integer for [risk_threshold].  Such a frame is read
    as the dictionary it arrives as. *)
Record ClientMessage := {
  in_type : option string;
  in_threat_types : option (list string);
  in_risk_threshold : option Z;
  in_data : option (list (string * string))
}.

Definition message_data_of (frame : ClientMessage) : MessageData :=
  {| md_type := in_type frame;
     md_threat_types := Members <$> in_threat_types frame;
     md_risk_threshold := in_risk_threshold frame;
     md_data := in_data frame |}.

Coercion message_data_of : ClientMessage >-> MessageData.

(** The set that [set(..)] makes of the threat types of a frame, when it
    makes one. *)
Definition threat_types_set (frame : MessageData) : option (gset string) :=
  match md_threat_types frame with
  | None => Some (list_to_set [])
  | Some (Members l) => Some (list_to_set l)
  | Some Unusable => None
  end.

Definition subscribe_frame (types : list string) (threshold : option Z)
    : ClientMessage :=
  {| in_type := Some "subscribe"; in_threat_types := Some types;
     in_risk_threshold := threshold; in_data := None |}.

Definition unsubscribe_frame (types : list string) : ClientMessage :=
  {| in_type := Some "unsubscribe"; in_threat_types := Some types;
     in_risk_threshold := None; in_data := None |}.

(** The frames of one session handled in arrival order. *)
Fixpoint handle_frames (connection_id : uuid) (frames : list ClientMessage)
    (w : World) : World :=
  match frames with
  | [] => w
  | frame :: rest =>
      handle_frames connection_id rest
        (handle_client_message connection_id frame w).1
  end.

Definition in_range (t : Z) : Prop := 0 <= t <= 100.

(** The sends of a piece of trace that the transport accepted. *)
Definition delivered (tl : list event) : list (chan * WebSocketMessage) :=
  omap (fun e => match e with
                 | EvSend ws m true => Some (ws, m)
                 | _ => None
                 end) tl.

(** What a session is sent when [message] is fanned out to it. *)
Definition addressed (message : WebSocketMessage) (c : ConnectionInfo)
    : chan * WebSocketMessage :=
  (websocket c, stamp message (device_id c)).

(** The envelope [send_threat_alert] builds when called in world [w], and
    the connections it selects. *)
Definition alert_message (alert : ThreatAlert) (w : World) : WebSocketMessage :=
  {| message_id := next_uuid w; message_type := "threat_alert";
     timestamp := clock w (reads w);
     data := DThreatAlert alert (priority_of (severity alert));
     msg_device_id := None |}.

Definition alert_targets (alert : ThreatAlert)
    (target_devices : option (list string)) (w : World)
    : list ConnectionInfo :=
  match target_devices with
  | Some (d :: ds) => resolve_targets (d :: ds) w
  | _ => filter (fun c => _should_receive_alert c alert = true) (values w)
  end.

(** The eligibility predicate in the words of the specification. *)
Definition eligible (s : ConnectionInfo) (a : ThreatAlert) : Prop :=
  alert_type_value (alert_type a) ∈ subscriptions s /\
  severity_scores (severity a) >= risk_threshold s /\
  (affected_regions a = [] \/ geographic_regions s = [] \/
   exists r, r ∈ affected_regions a /\ r ∈ geographic_regions s).

(** ** The remaining methods of the manager *)

(** What [jwt.decode] makes of a token: it raises [InvalidTokenError] or
    returns a payload, of which the manager reads [payload.get("device_id")].
    The decoding itself belongs to the JWT library and is taken as given. *)
Inductive jwt_decoded :=
  | InvalidTokenError
  | Payload (device : option string).

(** [websocket.close(code=.., reason=..)]; the trace records the call and
    whether it raised, not the code and the reason. *)
Definition ws_close_with (ws : chan) (code : Z) (reason : string) : M unit :=
  extern (EvClose ws) CloseError.

Definition authenticate_connection (ws : chan) (decoded : jwt_decoded)
    : M (option string) :=
  match decoded with
  | Payload device =>
      match device with
      | Some d =>
          if decide (d = "")
          then ws_close_with ws 4001 "Invalid token: missing device_id" ;;
               ret None
          else ret (Some d)
      | None =>
          ws_close_with ws 4001 "Invalid token: missing device_id" ;;
          ret None
      end
  | InvalidTokenError =>
      log WARNING "Invalid JWT token" ;;
      ws_close_with ws 4001 "Invalid token" ;;
      ret None
  end.

(** The second loop of [_cleanup_stale_connections]. *)
Fixpoint disconnect_stale (stale_connections : list uuid) : M unit :=
  match stale_connections with
  | [] => ret tt
  | connection_id :: rest =>
      log INFO "Cleaning up stale connection" ;;
      disconnect connection_id ;;
      disconnect_stale rest
  end.

Definition stale_ids (now : Z) (w : World) : list uuid :=
  (filter (fun p : uuid * ConnectionInfo => is_stale now p.2 = true)
     (items w)).*1.

(** One turn of the [while True] loop of [_cleanup_stale_connections],
    from the moment [asyncio.sleep(60)] returns. *)
Definition cleanup_iteration : M unit :=
  try_except
    (let* now := utcnow in
     let* stale_connections := gets (stale_ids now) in
     disconnect_stale stale_connections)
    (fun e => log ERROR "Error in cleanup task").

Fixpoint heartbeat_each (message : WebSocketMessage)
    (conns : list (uuid * ConnectionInfo))
    (failed_connections : list uuid) : M (list uuid) :=
  match conns with
  | [] => ret failed_connections
  | (connection_id, connection) :: rest =>
      let* failed :=
        try_except
          (_send_message (websocket connection)
             (stamp message (device_id connection)) ;;
           ret failed_connections)
          (fun e =>
             log WARNING "Heartbeat failed" ;;
             ret (failed_connections ++ [connection_id])%list) in
      heartbeat_each message rest failed
  end.

(** One turn of the [while True] loop of [_heartbeat_monitor], from the
    moment [asyncio.sleep(30)] returns. *)
Definition heartbeat_iteration : M unit :=
  try_except
    (let* mid := uuid4 in
     let* ts := utcnow in
     let* server_time := utcnow in
     let ping_msg :=
       {| message_id := mid; message_type := "server_ping"; timestamp := ts;
          data := DServerPing server_time; msg_device_id := None |} in
     let* conns := gets items in
     let* failed_connections := heartbeat_each ping_msg conns [] in
     create_tasks failed_connections)
    (fun e => log ERROR "Error in heartbeat monitor").

(** ** Alert factory *)

Section AlertFactory.

(** [str(..)] of a uuid and [datetime.isoformat()]: the renderings
    themselves play no part below. *)
Variable uuid_str : uuid -> string.
Variable isoformat : Z -> string.






End AlertFactory.

(** ** Histories *)

(** A call on the manager, by a device handler, by the REST layer, by one of
    the two background loops or by the event loop. *)
Inductive call :=
  | Authenticate (ws : chan) (decoded : jwt_decoded)
  | Connect (ws : chan) (device : string) (subs : option (gset string))
  | Disconnect (connection_id : uuid)
  | DisconnectDevice (device : string)
  | HandleClientMessage (connection_id : uuid) (message_data : MessageData)
  | SendThreatAlert (alert : ThreatAlert) (target_devices : option (list string))
  | SendSecurityUpdate (update_data : list (string * string))
                       (target_devices : option (list string))
  | BroadcastSystemMessage (message message_type : string)
  | GetConnectionStats
  | CleanupIteration
  | HeartbeatIteration
  | RunTasks.

Definition perform (c : call) (w : World) : World :=
  match c with
  | Authenticate ws decoded => (authenticate_connection ws decoded w).1
  | Connect ws device subs => (connect ws device subs w).1
  | Disconnect cid => (disconnect cid w).1
  | DisconnectDevice device => (disconnect_device device w).1
  | HandleClientMessage cid message_data =>
      (handle_client_message cid message_data w).1
  | SendThreatAlert alert tds => (send_threat_alert alert tds w).1
  | SendSecurityUpdate update_data tds =>
      (send_security_update update_data tds w).1
  | BroadcastSystemMessage message message_type =>
      (broadcast_system_message message message_type w).1
  | GetConnectionStats => (get_connection_stats w).1
  | CleanupIteration => (cleanup_iteration w).1
  | HeartbeatIteration => (heartbeat_iteration w).1
  | RunTasks => run_tasks w
  end.

Definition perform_all (cs : list call) (w : World) : World :=
  foldl (fun w c => perform c w) w cs.

(** The number of connections subscribed to a threat type. *)
Definition subscribers (t : string) (conns : list ConnectionInfo) : nat :=
  length (filter (fun c => t ∈ subscriptions c) conns).

(** The stale sessions at time [now], in microseconds: no frame for more
    than five minutes. *)
Definition stale_at (now : Z) (c : ConnectionInfo) : Prop :=
  300 * 1000000 < now - last_ping c.

#[global] Instance stale_at_dec now c : Decision (stale_at now c).
Proof. unfold stale_at. apply _. Defined.

(** The sends of a piece of trace that the transport refused. *)
Definition refused (tl : list event) : list (chan * WebSocketMessage) :=
  omap (fun e => match e with
                 | EvSend ws m false => Some (ws, m)
                 | _ => None
                 end) tl.

(** A step that leaves both indexes and the environment as they are. *)
Record keeps_registry (w w' : World) : Prop := {
  kr_active : active_connections w' = active_connections w;
  kr_devices : device_to_connection w' = device_to_connection w;
  kr_clock : clock w' = clock w;
  kr_faulty : faulty w' = faulty w;
  kr_uuid : (next_uuid w <= next_uuid w')%nat
}.

(** The envelopes built by [send_security_update], by
    [broadcast_system_message] and by a turn of the heartbeat loop when
    called in world [w]. *)
Definition update_message (update_data : list (string * string)) (w : World)
    : WebSocketMessage :=
  {| message_id := next_uuid w; message_type := "security_update";
     timestamp := clock w (reads w);
     data := DSecurityUpdate update_data; msg_device_id := None |}.

Definition update_targets (target_devices : option (list string)) (w : World)
    : list ConnectionInfo :=
  match target_devices with
  | Some (d :: ds) => resolve_targets (d :: ds) w
  | _ => values w
  end.

Definition broadcast_message (message message_type : string) (w : World)
    : WebSocketMessage :=
  {| message_id := next_uuid w; message_type := message_type;
     timestamp := clock w (reads w);
     data := DBroadcast message; msg_device_id := None |}.

Definition ping_message (w : World) : WebSocketMessage :=
  {| message_id := next_uuid w; message_type := "server_ping";
     timestamp := clock w (reads w);
     data := DServerPing (clock w (S (reads w))); msg_device_id := None |}.

(** A session of device D1 on channel 7 whose last frame is 301 seconds
    old when the cleanup loop reads the clock, in an environment where the
    outside call issued when the trace has one entry raises: in a turn of
    the cleanup loop, the [close] of the channel. *)
Definition w_stale : World :=
  {| active_connections := {[ 0%nat := new_connection 7 "D1" None 0 0 ]};
     device_to_connection := {[ "D1" := 0%nat ]};
     tasks := []; next_uuid := 1%nat; reads := 0%nat; trace := [];
     clock := frozen 301000000; faulty := fails_at 1 |}.

(** The two log entries that a connection selected by [send_threat_alert]
    leaves in the trace. *)
Definition alert_failure_log : list event :=
  [EvLog ERROR "Failed to send WebSocket message";
   EvLog ERROR "Failed to send alert to device"].

(** * Properties

    ** Registry: [disconnect] and [connect] *)

Ltac run :=
  unfold disconnect_device, disconnect, bind, gets, try_except, ws_close, ws_accept, del_active,
    redis_delete, extern, log, modify, ret, raise; simpl.

Lemma connect_phases ws d subs w :
  connect ws d subs w =
  (let* cid := connect_teardown ws d in connect_store ws d subs cid) w.
Proof.
  unfold connect, connect_teardown, connect_store, bind. simpl.
  destruct (ws_accept ws _) as [w1 [[]|e]]; [|reflexivity].
  unfold gets, ret; simpl.
  destruct (device_to_connection w1 !! d).
  - destruct (disconnect_device d w1) as [w3 [[]|e]]; reflexivity.
  - reflexivity.
Qed.

Lemma disconnect_absent cid w :
  active_connections w !! cid = None -> disconnect cid w = (w, Ok tt).
Proof.
  intros H. unfold disconnect, bind, gets. simpl. rewrite H. reflexivity.
Qed.

Lemma disconnect_present cid c w :
  active_connections w !! cid = Some c ->
  exists tl r,
    disconnect cid w = (torn_down cid c tl w, r) /\
    (exists tl', tl = EvClose (websocket c)
                        (negb (faulty w (length (trace w)))) :: tl') /\
    (r = Ok tt /\ last tl = Some (EvLog INFO "WebSocket disconnected") \/
     r = Raise RedisError /\ last tl = Some (EvDelete cid false)).
Proof.
  intros H. run. rewrite H.
  destruct (faulty w (length (trace w))) eqn:Hf; simpl; rewrite H; simpl;
  destruct (device_to_connection w !! device_id c) eqn:Hd; simpl;
  match goal with |- context [faulty w ?n] => destruct (faulty w n) eqn:Hr end;
  simpl; unfold torn_down, emit, set_devices, set_active; simpl;
  rewrite <- ?(assoc_L (++)); simpl;
  try rewrite (delete_id (device_to_connection w)) by done;
  (eexists _, _; split; [reflexivity|]; split; [eexists; reflexivity|]; simpl; auto).
Qed.

Lemma torn_down_ok cid c tl w :
  registry_ok w -> active_connections w !! cid = Some c ->
  registry_ok (torn_down cid c tl w).
Proof.
  intros [Hd Ha Hf] Hc. split; simpl.
  - intros d cid' H. apply lookup_delete_Some in H as [Hne H].
    destruct (Hd _ _ H) as (c' & Hc' & Hdev). exists c'. split; [|done].
    rewrite lookup_delete_ne; [done|]. intros ->. congruence.
  - intros cid' c' H. apply lookup_delete_Some in H as [Hne H].
    rewrite lookup_delete_ne; [by apply Ha|].
    intros Heq. apply Ha in Hc, H. congruence.
  - intros cid' [c' H]. apply lookup_delete_Some in H as [_ H]. apply Hf. eauto.
Qed.

Lemma init_ok c f : registry_ok (init c f).
Proof.
  split; simpl; intros *; rewrite ?lookup_empty; try done.
Qed.

Lemma registry_ok_same w w' :
  active_connections w' = active_connections w ->
  device_to_connection w' = device_to_connection w ->
  (next_uuid w <= next_uuid w')%nat ->
  registry_ok w -> registry_ok w'.
Proof.
  intros Ea Ed Hn [Hd Ha Hf]. split; rewrite ?Ea, ?Ed; auto.
  intros cid H. apply Hf in H. lia.
Qed.

Lemma registry_ok_unique w cid1 cid2 c1 c2 :
  registry_ok w ->
  active_connections w !! cid1 = Some c1 ->
  active_connections w !! cid2 = Some c2 ->
  device_id c1 = device_id c2 -> cid1 = cid2.
Proof.
  intros [_ Ha _] H1 H2 E. apply Ha in H1, H2. congruence.
Qed.

Lemma connect_teardown_spec ws d w wm r :
  registry_ok w -> connect_teardown ws d w = (wm, r) ->
  registry_ok wm /\ next_uuid wm = S (next_uuid w) /\ reads wm = reads w /\
  tasks wm = tasks w /\ clock wm = clock w /\ faulty wm = faulty w /\
  exists tl, trace wm = (trace w ++ tl)%list /\
    ((r = Raise AcceptError /\ tl = [EvAccept ws false] /\
      active_connections wm = active_connections w /\
      device_to_connection wm = device_to_connection w) \/
     ((exists tl', tl = EvAccept ws true :: tl') /\
      (r = Ok (next_uuid w) \/
       r = Raise RedisError /\ exists k, last tl = Some (EvDelete k false)) /\
      device_to_connection wm !! d = None /\
      (forall cid0 c0, live_for d w cid0 c0 ->
         active_connections wm !! cid0 = None /\
         exists ok, EvClose (websocket c0) ok ∈ tl) /\
      (forall cid' c', active_connections wm !! cid' = Some c' ->
         active_connections w !! cid' = Some c') /\
      (forall cid' c', active_connections w !! cid' = Some c' ->
         device_id c' <> d -> active_connections wm !! cid' = Some c'))).
Proof.
  intros Hok. unfold connect_teardown, bind, uuid4, ws_accept, extern, gets, ret. simpl.
  destruct (faulty w (length (trace w))) eqn:Hf; simpl.
  { intros [= <- <-]. simpl. split; [by eapply registry_ok_same; [..|exact Hok]; simpl; auto|].
    repeat (split; [done|]). eexists. split; [done|]. left. done. }
  destruct (device_to_connection w !! d) as [cid0|] eqn:Hd; simpl.
  - destruct (ok_device _ Hok _ _ Hd) as (c0 & Hc0 & Hdev).
    set (w1 := emit _ _).
    assert (Hok1 : registry_ok w1).
    { eapply registry_ok_same; [..|exact Hok]; simpl; auto. }
    unfold disconnect_device, bind, gets; simpl. rewrite Hd.
    destruct (disconnect_present cid0 c0 w1 Hc0) as (tl & r' & E & (tl' & Htl) & Hr).
    rewrite E. intros Hres.
    assert (wm = torn_down cid0 c0 tl w1) as ->.
    { destruct r' as [[]|]; by inversion Hres. }
    split; [by apply torn_down_ok|]. simpl.
    repeat (split; [done|]).
    exists (EvAccept ws true :: tl). split; [by rewrite <- (assoc_L (++))|].
    right. split; [eauto|]. split.
    { destruct Hr as [[-> _]|[-> Hl]]; inversion Hres; auto.
      right. split; [done|]. exists cid0. rewrite last_cons, Hl. done. }
    rewrite Hdev. split; [apply lookup_delete_eq|].
    split; [|split].
    + intros cid1 c1 [H1 H1d].
      assert (cid1 = cid0) as ->.
      { eapply registry_ok_unique; eauto. congruence. }
      assert (c1 = c0) as -> by congruence.
      split; [apply lookup_delete_eq|].
      eexists. rewrite Htl. apply list_elem_of_further, list_elem_of_here.
    + intros cid' c' H. by apply lookup_delete_Some in H as [_ H].
    + intros cid' c' H Hne. rewrite lookup_delete_ne; [done|].
      intros ->. congruence.
  - intros [= <- <-]. simpl.
    split; [by eapply registry_ok_same; [..|exact Hok]; simpl; auto|].
    repeat (split; [done|]). eexists. split; [done|]. right.
    split; [eauto|]. split; [auto|]. split; [done|].
    split; [|split]; auto.
    intros cid0 c0 [H Hd0]. apply (ok_active _ Hok) in H. congruence.
Qed.

Lemma stored_ok w w' cid c :
  registry_ok w ->
  device_to_connection w !! device_id c = None ->
  (cid < next_uuid w')%nat -> (next_uuid w <= next_uuid w')%nat ->
  active_connections w' = <[cid := c]> (active_connections w) ->
  device_to_connection w' = <[device_id c := cid]> (device_to_connection w) ->
  active_connections w !! cid = None ->
  registry_ok w'.
Proof.
  intros [Hd Ha Hf] Hnone Hlt Hle Ea Ed Hfresh. split; rewrite ?Ea, ?Ed.
  - intros d cid' H. apply lookup_insert_Some in H as [[<- <-]|[Hne H]].
    + exists c. by rewrite lookup_insert_eq.
    + destruct (Hd _ _ H) as (c' & Hc' & Hdev). exists c'. split; [|done].
      rewrite lookup_insert_ne; [done|]. intros <-. congruence.
  - intros cid' c' H. apply lookup_insert_Some in H as [[<- <-]|[Hne H]].
    + by rewrite lookup_insert_eq.
    + rewrite lookup_insert_ne; [by apply Ha|].
      intros E. apply Ha in H. congruence.
  - intros cid' [c' H]. apply lookup_insert_Some in H as [[<- <-]|[Hne H]].
    + done.
    + assert (cid' < next_uuid w)%nat by (apply Hf; eauto). lia.
Qed.

Lemma connect_store_spec ws d subs cid wm w' r :
  registry_ok wm ->
  device_to_connection wm !! d = None ->
  active_connections wm !! cid = None ->
  (cid < next_uuid wm)%nat ->
  connect_store ws d subs cid wm = (w', r) ->
  registry_ok w' /\
  (exists tc tp,
     active_connections w' =
       <[cid := new_connection ws d subs tc tp]> (active_connections wm)) /\
  device_to_connection w' = <[d := cid]> (device_to_connection wm) /\
  tasks w' = tasks wm /\ clock w' = clock wm /\ faulty w' = faulty wm /\
  next_uuid w' = S (next_uuid wm) /\
  exists m ok tl',
    trace w' = (trace wm ++ EvSend ws m ok :: tl')%list /\
    message_type m = "connection_established" /\
    msg_device_id m = Some d /\
    (exists t, data m = DConnectionEstablished cid (or_nil subs) t) /\
    (r = Ok cid /\ ok = true /\
       (exists v, tl' = [EvSetex cid 3600 v true;
                         EvLog INFO "WebSocket connected"]) \/
     r = Raise SendError /\ ok = false /\
       tl' = [EvLog ERROR "Failed to send WebSocket message"] \/
     r = Raise RedisError /\ ok = true /\
       exists v, tl' = [EvSetex cid 3600 v false]).
Proof.
  intros Hok Hd Hc Hlt.
  unfold connect_store, bind, utcnow, uuid4, store_active, modify,
    _send_message, to_json, try_except, bind, ws_send_text, redis_setex,
    extern, log, modify, ret, raise. simpl.
  set (c := new_connection ws d subs _ _).
  destruct (faulty wm (length (trace wm))) eqn:Hf1; simpl.
  { intros [= <- <-]. simpl. rewrite <- ?(assoc_L (++)); simpl.
    split. { eapply (stored_ok wm _ cid c); simpl; auto. }
    split; [by eexists _, _|]. repeat (split; [done|]).
    eexists _, false, _. split; [reflexivity|]. simpl.
    repeat (split; [done|]). split; [by eexists|]. auto. }
  rewrite length_app; simpl.
  destruct (faulty wm (length (trace wm) + 1)%nat) eqn:Hf2; simpl;
    intros [= <- <-]; simpl.
  all: split; [eapply (stored_ok wm _ cid c); simpl; auto|].
  all: split; [by eexists _, _|]; repeat (split; [done|]).
  all: eexists _, true, _; rewrite <- ?(assoc_L (++)); simpl;
       (split; [reflexivity|]); simpl; repeat (split; [done|]);
       (split; [by eexists|]).
  - right. right. repeat (split; [done|]). by eexists.
  - left. repeat (split; [done|]). by eexists.
Qed.

Lemma connect_step ws d subs w w' r :
  registry_ok w -> connect ws d subs w = (w', r) ->
  registry_ok w' /\ (next_uuid w < next_uuid w')%nat /\
  clock w' = clock w /\ faulty w' = faulty w /\ tasks w' = tasks w /\
  exists tl, trace w' = (trace w ++ tl)%list /\
    (forall cid', (cid' < next_uuid w)%nat ->
       active_connections w !! cid' = None ->
       active_connections w' !! cid' = None) /\
    (forall cid0 c0, live_for d w cid0 c0 ->
       live_for d w' cid0 c0 \/
       (active_connections w' !! cid0 = None /\
        exists ok, EvClose (websocket c0) ok ∈ tl)) /\
    (forall cid, r = Ok cid ->
       cid = next_uuid w /\
       (exists wm,
          connect_teardown ws d w = (wm, Ok cid) /\
          connect_store ws d subs cid wm = (w', Ok cid) /\
          device_to_connection wm !! d = None /\
          (forall cid0 c0, ~ live_for d wm cid0 c0)) /\
       device_to_connection w' !! d = Some cid /\
       (exists tc tp, active_connections w' !! cid =
                        Some (new_connection ws d subs tc tp)) /\
       (forall cid' c', live_for d w' cid' c' -> cid' = cid) /\
       (forall cid0 c0, live_for d w cid0 c0 ->
          active_connections w' !! cid0 = None /\
          exists ok, EvClose (websocket c0) ok ∈ tl)).
Proof.
  intros Hok. rewrite connect_phases. unfold bind.
  destruct (connect_teardown ws d w) as [wm rt] eqn:Et.
  destruct (connect_teardown_spec _ _ _ _ _ Hok Et)
    as (Hokm & Hn & _ & Htk & Hck & Hfy & tl1 & Htr & Hcase).
  destruct Hcase as [(-> & -> & Ea & Ed)|(_ & Hrt & Hdm & Hgone & Hsub & Hkeep)].
  { intros [= <- <-]. split; [done|]. split; [lia|]. repeat (split; [done|]).
    eexists. split; [done|]. rewrite Ea. split; [auto|].
    split; [|done]. intros cid0 c0 [H1 H2]. left. split; [by rewrite Ea|done]. }
  assert (Hnolive : forall cid0 c0, ~ live_for d wm cid0 c0).
  { intros cid0 c0 [H1 H2]. apply (ok_active _ Hokm) in H1. congruence. }
  destruct Hrt as [->|[-> _]].
  2:{ intros [= <- <-]. split; [done|]. split; [lia|]. repeat (split; [done|]).
      exists tl1. split; [done|]. split; [|split; [|done]].
      - intros cid' _ H. destruct (active_connections wm !! cid') eqn:E; [|done].
        apply Hsub in E. congruence.
      - intros cid0 c0 H. right. by apply Hgone. }
  intros Es.
  assert (Hfr : active_connections wm !! next_uuid w = None).
  { destruct (active_connections wm !! next_uuid w) eqn:E; [|done].
    apply Hsub in E. assert (next_uuid w < next_uuid w)%nat; [|lia].
    apply (ok_fresh _ Hok). eauto. }
  destruct (connect_store_spec _ _ _ _ _ _ _ Hokm Hdm Hfr ltac:(lia) Es)
    as (Hok' & (tc & tp & Ea) & Ed & Htk' & Hck' & Hfy' & Hn' & m & ok & tl2 & Htr' & _ & _ & _ & Hr).
  split; [done|]. split; [lia|]. repeat (split; [congruence|]).
  exists (tl1 ++ EvSend ws m ok :: tl2)%list.
  split; [by rewrite Htr', Htr, <- (assoc_L (++))|].
  assert (Hold : forall cid0 c0, live_for d w cid0 c0 ->
            active_connections w' !! cid0 = None /\
            exists ok0, EvClose (websocket c0) ok0 ∈ (tl1 ++ EvSend ws m ok :: tl2)%list).
  { intros cid0 c0 H. destruct (Hgone _ _ H) as [Hg [ok0 Hin]]. split.
    - rewrite Ea, lookup_insert_ne; [done|]. intros <-.
      destruct H as [H _]. assert (next_uuid w < next_uuid w)%nat; [|lia].
      apply (ok_fresh _ Hok). eauto.
    - exists ok0. apply elem_of_app. by left. }
  split; [|split].
  - intros cid' Hlt H. rewrite Ea, lookup_insert_ne; [|lia].
    destruct (active_connections wm !! cid') eqn:E; [|done].
    apply Hsub in E. congruence.
  - intros cid0 c0 H. right. by apply Hold.
  - intros cid ->.
    assert (cid = next_uuid w) as ->.
    { destruct Hr as [(E & _)|[(E & _)|(E & _)]]; by inversion E. }
    split; [done|]. split; [by exists wm|].
    split; [by rewrite Ed, lookup_insert_eq|].
    split; [exists tc, tp; by rewrite Ea, lookup_insert_eq|].
    split; [|done].
    intros cid' c' [H1 H2]. rewrite Ea in H1.
    apply lookup_insert_Some in H1 as [[<- _]|[_ H1]]; [done|].
    destruct (Hnolive cid' c'). by split.
Qed.

Lemma connects_snoc d l ws subs w :
  connects d (l ++ [(ws, subs)]) w =
  (connects d l w ++ [connect ws d subs (after_connects d l w)])%list.
Proof.
  revert w. induction l as [|[ws' subs'] l IH]; intros w; simpl; [done|].
  by rewrite IH.
Qed.

Lemma after_connects_snoc d l ws subs w :
  after_connects d (l ++ [(ws, subs)]) w =
  (connect ws d subs (after_connects d l w)).1.
Proof.
  revert w. induction l as [|[ws' subs'] l IH]; intros w; simpl; [done|].
  by rewrite IH.
Qed.

Lemma history_closed d l w0 :
  registry_ok w0 ->
  let wp := after_connects d l w0 in
  registry_ok wp /\
  forall wi cid' s',
    wi ∈ w0 :: (connects d l w0).*1 -> live_for d wi cid' s' ->
    (cid' < next_uuid wp)%nat /\
    (live_for d wp cid' s' \/
     (active_connections wp !! cid' = None /\
      exists ok, EvClose (websocket s') ok ∈ trace wp)).
Proof.
  intros Hok0. induction l as [|[ws subs] l IH] using rev_ind; simpl.
  { split; [done|]. intros * H Hl. apply list_elem_of_singleton in H as ->.
    split; [|by left]. apply (ok_fresh _ Hok0). destruct Hl as [Hl _]. eauto. }
  destruct IH as [Hokp IH].
  rewrite after_connects_snoc, connects_snoc.
  destruct (connect ws d subs (after_connects d l w0)) as [w' r] eqn:E. simpl.
  destruct (connect_step _ _ _ _ _ _ Hokp E)
    as (Hok' & Hn & _ & _ & _ & tl & Htr & Hnone & Hlive & _).
  split; [done|].
  intros wi cid' s' Hin Hl.
  rewrite fmap_app, app_comm_cons in Hin.
  apply elem_of_app in Hin as [Hin|Hin].
  - destruct (IH _ _ _ Hin Hl) as [Hlt [Hl'|[Hg [ok Hc]]]].
    + split; [lia|]. destruct (Hlive _ _ Hl') as [?|[Hg [ok Hc]]]; [by left|].
      right. split; [done|]. exists ok. rewrite Htr. apply elem_of_app. by right.
    + split; [lia|]. right. split; [by apply Hnone|].
      exists ok. rewrite Htr. apply elem_of_app. by left.
  - apply list_elem_of_singleton in Hin. simpl in Hin. subst wi.
    split; [|by left]. apply (ok_fresh _ Hok'). destruct Hl as [Hl _]. eauto.
Qed.

(** C1. Single session per device: after any sequence of [connect] calls
    for device [d], started in a consistent registry, whose last call
    returns the identifier [cid], exactly one live session exists for [d];
    [lookup_by_device d] resolves to it, it is stored under [cid] and holds
    the channel of the last call.  Every session that was live for [d] in
    an earlier world of the sequence is gone from both indexes and [close]
    was called on its channel.  The teardown comes first: the last call
    reaches a world with no session for [d], and only then stores the new
    one. *)
Theorem single_session_per_device d calls ws subs w0 w' cid :
  registry_ok w0 ->
  last (connects d (calls ++ [(ws, subs)]) w0) = Some (w', Ok cid) ->
  (exists s,
     lookup_by_device d w' = Some s /\
     active_connections w' !! cid = Some s /\
     websocket s = ws /\ device_id s = d /\
     forall cid' s', live_for d w' cid' s' -> cid' = cid /\ s' = s) /\
  (forall wi cid' s',
     wi ∈ w0 :: (connects d calls w0).*1 -> live_for d wi cid' s' ->
     active_connections w' !! cid' = None /\
     device_to_connection w' !! d <> Some cid' /\
     exists ok, EvClose (websocket s') ok ∈ trace w') /\
  (exists wm,
     connect_teardown ws d (after_connects d calls w0) = (wm, Ok cid) /\
     device_to_connection wm !! d = None /\
     (forall cid0 c0, ~ live_for d wm cid0 c0) /\
     connect_store ws d subs cid wm = (w', Ok cid)).
Proof.
  intros Hok0. rewrite connects_snoc, last_snoc. intros [= E].
  destruct (history_closed d calls w0 Hok0) as [Hokp Hhist].
  destruct (connect_step _ _ _ _ _ _ Hokp E)
    as (Hok' & Hn & _ & _ & _ & tl & Htr & Hnone & _ & Hres).
  destruct (Hres cid eq_refl)
    as (-> & (wm & Et & Es & Hdm & Hnol) & Hd' & (tc & tp & Ha') & Huniq & Hold).
  split; [|split].
  - eexists. unfold lookup_by_device. rewrite Hd'. split; [done|].
    split; [done|]. split; [done|]. split; [done|].
    intros cid' s' Hl. pose proof (Huniq _ _ Hl) as ->. split; [done|].
    destruct Hl as [Hl _]. congruence.
  - intros wi cid' s' Hin Hl.
    destruct (Hhist _ _ _ Hin Hl) as [Hlt [Hl'|[Hg [ok Hc]]]].
    + destruct (Hold _ _ Hl') as [Hg [ok Hc]].
      split; [done|]. split; [congruence|].
      exists ok. rewrite Htr. apply elem_of_app. by right.
    + assert (active_connections w' !! cid' = None) by by apply Hnone.
      split; [done|]. split; [congruence|].
      exists ok. rewrite Htr. apply elem_of_app. by left.
  - by exists wm.
Qed.

(** C7. [disconnect] is idempotent: for an absent session it is a no-op
    that leaves the world unchanged and raises nothing; a second call right
    after a first one raises nothing and changes nothing, the size of the
    registry included; and when closing the channel raises during the first
    call, the error is swallowed and both index entries are removed all the
    same. *)
Theorem unregister_idempotent cid w w1 r1 :
  disconnect cid w = (w1, r1) ->
  (active_connections w !! cid = None -> w1 = w /\ r1 = Ok tt) /\
  disconnect cid w1 = (w1, Ok tt) /\
  size (active_connections (disconnect cid w1).1) = size (active_connections w1) /\
  (forall c,
     active_connections w !! cid = Some c ->
     faulty w (length (trace w)) = true ->
     EvClose (websocket c) false ∈ trace w1 /\
     r1 <> Raise CloseError /\
     active_connections w1 !! cid = None /\
     device_to_connection w1 !! device_id c = None).
Proof.
  intros E.
  assert (Hgone : active_connections w1 !! cid = None).
  { destruct (active_connections w !! cid) as [c|] eqn:Hc.
    - destruct (disconnect_present _ _ _ Hc) as (tl & r & E' & _).
      rewrite E' in E. inversion E; subst. simpl. apply lookup_delete_eq.
    - rewrite (disconnect_absent _ _ Hc) in E. by inversion E; subst. }
  split; [|split; [|split]].
  - intros Hc. rewrite (disconnect_absent _ _ Hc) in E. by inversion E.
  - by apply disconnect_absent.
  - by rewrite disconnect_absent.
  - intros c Hc Hf.
    destruct (disconnect_present _ _ _ Hc) as (tl & r & E' & (tl' & Htl) & Hr).
    rewrite E' in E. inversion E; subst w1 r1. simpl.
    split. { rewrite Htl, Hf. simpl. apply elem_of_app. right. apply list_elem_of_here. }
    split. { by destruct Hr as [[-> _]|[-> _]]. }
    split; apply lookup_delete_eq.
Qed.

(** C7 at a session whose channel raises on [close]. *)
Lemma unregister_idempotent_witness :
  let w := w_connected (fails_at 4) in
  EvClose 7 false ∈ trace (disconnect 0 w).1 /\
  (disconnect 0 w).2 <> Raise CloseError /\
  active_connections (disconnect 0 w).1 !! 0%nat = None /\
  device_to_connection (disconnect 0 w).1 !! "D1" = None.
Proof.
  intros w.
  destruct (unregister_idempotent 0 w (disconnect 0 w).1 (disconnect 0 w).2)
    as (_ & _ & _ & H).
  - by destruct (disconnect 0 w).
  - apply (H (new_connection 7 "D1" None 0 0)); vm_compute; reflexivity.
Defined.

(** C4 as stated fails: with the store failing on [setex], [connect]
    raises the store's error, and with the store failing on [delete],
    [disconnect] raises it. *)
Lemma store_failure_not_swallowed :
  (connect 7 "D1" None (init (frozen 0) (fails_at 2))).2 = Raise RedisError /\
  (disconnect 0 (w_connected (fails_at 5))).2 = Raise RedisError.
Proof. split; vm_compute; reflexivity. Qed.

(** C4, amended. A failure of the store operation of [connect] or
    [disconnect] is not caught: it reaches the caller as the store's
    exception.  The registry mutation is complete by then: after
    [disconnect] both index entries are gone and [close] was called on the
    channel, whatever the outcome, and the only exception it can raise is
    the store's; a [connect] that ends on a failed [setex] raises the
    store's error with the new session stored in both indexes and its
    welcome envelope sent. *)
Theorem store_failure_after_mutation :
  (forall cid c w w1 r1,
     active_connections w !! cid = Some c ->
     disconnect cid w = (w1, r1) ->
     active_connections w1 !! cid = None /\
     device_to_connection w1 !! device_id c = None /\
     (exists ok, EvClose (websocket c) ok ∈ trace w1) /\
     (r1 = Ok tt \/ r1 = Raise RedisError) /\
     (last (trace w1) = Some (EvDelete cid false) -> r1 = Raise RedisError)) /\
  (forall ws d subs w w1 r1 k ttl v,
     registry_ok w ->
     connect ws d subs w = (w1, r1) ->
     last (trace w1) = Some (EvSetex k ttl v false) ->
     r1 = Raise RedisError /\ k = next_uuid w /\
     device_to_connection w1 !! d = Some k /\
     (exists s, active_connections w1 !! k = Some s /\
                websocket s = ws /\ device_id s = d) /\
     (exists m, EvSend ws m true ∈ trace w1 /\
                message_type m = "connection_established")).
Proof.
  split.
  - intros cid c w w1 r1 Hc E.
    destruct (disconnect_present _ _ _ Hc) as (tl & r & E' & (tl' & Htl) & Hr).
    rewrite E' in E. inversion E; subst w1 r1. simpl.
    split; [apply lookup_delete_eq|]. split; [apply lookup_delete_eq|].
    split. { eexists. rewrite Htl. apply elem_of_app. right. apply list_elem_of_here. }
    split. { destruct Hr as [[-> _]|[-> _]]; auto. }
    intros Hl. destruct Hr as [[-> Hl']|[-> _]]; [|done].
    rewrite Htl in Hl, Hl'. rewrite last_app_cons, last_cons in Hl.
    rewrite last_cons in Hl'. destruct (last tl'); congruence.
  - intros ws d subs w w1 r1 k ttl v Hok E Hl.
    rewrite connect_phases in E. unfold bind in E.
    destruct (connect_teardown ws d w) as [wm rt] eqn:Et.
    destruct (connect_teardown_spec _ _ _ _ _ Hok Et)
      as (Hokm & Hn & _ & _ & _ & _ & tl1 & Htr & Hcase).
    destruct Hcase as [(-> & -> & _)|((tl1' & Htl1) & Hrt & Hdm & _ & Hsub & _)].
    { inversion E; subst. rewrite Htr, last_snoc in Hl. discriminate. }
    destruct Hrt as [->|[-> [k' Hl']]].
    2:{ inversion E; subst. rewrite Htr, last_app_cons in Hl. congruence. }
    assert (Hfr : active_connections wm !! next_uuid w = None).
    { destruct (active_connections wm !! next_uuid w) eqn:E'; [|done].
      apply Hsub in E'. assert (next_uuid w < next_uuid w)%nat; [|lia].
      apply (ok_fresh _ Hok). eauto. }
    destruct (connect_store_spec _ _ _ _ _ _ _ Hokm Hdm Hfr ltac:(lia) E)
      as (_ & (tc & tp & Ea) & Ed & _ & _ & _ & _ & m & ok & tl2 & Htr' & Hmt & _ & _ & Hr).
    rewrite Htr', last_app_cons, last_cons in Hl.
    destruct Hr as [(-> & -> & v' & ->)|[(-> & -> & ->)|(-> & -> & v' & ->)]];
      simpl in Hl; try discriminate.
    inversion Hl; subst. split; [done|]. split; [done|].
    split; [by rewrite Ed, lookup_insert_eq|].
    split. { eexists. rewrite Ea, lookup_insert_eq. done. }
    exists m. split; [|done]. rewrite Htr'. apply elem_of_app. right.
    apply list_elem_of_here.
Qed.

(** C4, amended, at the two failing calls. *)
Lemma store_failure_after_mutation_witness :
  (active_connections (disconnect 0 (w_connected (fails_at 5))).1 !! 0%nat = None /\
   (disconnect 0 (w_connected (fails_at 5))).2 = Raise RedisError) /\
  ((connect 7 "D1" None (init (frozen 0) (fails_at 2))).2 = Raise RedisError /\
   device_to_connection (w_connected (fails_at 2)) !! "D1" = Some 0%nat).
Proof.
  destruct store_failure_after_mutation as [Hd Hc]. split.
  - destruct (disconnect 0 (w_connected (fails_at 5))) as [w1 r1] eqn:E.
    destruct (Hd 0%nat (new_connection 7 "D1" None 0 0)
                (w_connected (fails_at 5)) w1 r1) as (H1 & _ & _ & _ & H2).
    + vm_compute; reflexivity.
    + exact E.
    + simpl. split; [exact H1|]. apply H2.
      replace w1 with (disconnect 0 (w_connected (fails_at 5))).1 by (rewrite E; reflexivity).
      vm_compute; reflexivity.
  - destruct (connect 7 "D1" None (init (frozen 0) (fails_at 2))) as [w1 r1] eqn:E.
    destruct (Hc 7%nat "D1" None (init (frozen 0) (fails_at 2)) w1 r1 0%nat 3600
                (ConnectionMeta "D1" 0 ["scam"; "malware"; "phishing"]))
      as (H1 & _ & H2 & _).
    + apply init_ok.
    + exact E.
    + replace w1 with (connect 7 "D1" None (init (frozen 0) (fails_at 2))).1 by (rewrite E; reflexivity).
      vm_compute; reflexivity.
    + simpl. split; [exact H1|].
      unfold w_connected. rewrite E. exact H2.
Defined.

(** C6 at the failing input: [connect] without initial subscriptions
    stores the default set {phishing, malware, scam} on the session, while
    the [connection_established] envelope it sends carries an empty list of
    subscriptions. *)
Theorem welcome_omits_default_subscriptions :
  let r := connect 7 "D1" None (init (frozen 0) healthy) in
  r.2 = Ok 0%nat /\
  (exists m, trace r.1 !! 1%nat = Some (EvSend 7 m true) /\
             message_type m = "connection_established" /\
             data m = DConnectionEstablished 0 [] 0) /\
  (exists s, lookup_by_device "D1" r.1 = Some s /\
             subscriptions s = {[ "phishing"; "malware"; "scam" ]}).
Proof.
  simpl. split; [vm_compute; reflexivity|]. split.
  - eexists. split; [vm_compute; reflexivity|]. split; reflexivity.
  - eexists. split; [vm_compute; reflexivity|]. reflexivity.
Qed.

(** ** Inbound frames *)

Lemma handle_message_spec cid c (frame : MessageData) w w' r :
  active_connections w !! cid = Some c ->
  handle_client_message cid frame w = (w', r) ->
  exists c',
    active_connections w' = <[cid := c']> (active_connections w) /\
    device_to_connection w' = device_to_connection w /\
    tasks w' = tasks w /\ (next_uuid w <= next_uuid w')%nat /\
    device_id c' = device_id c /\ websocket c' = websocket c /\
    geographic_regions c' = geographic_regions c /\
    subscriptions c' =
      (if decide (md_type frame = Some "subscribe")
       then subscriptions c ∪ default ∅ (threat_types_set frame)
       else if decide (md_type frame = Some "unsubscribe")
       then subscriptions c ∖ default ∅ (threat_types_set frame)
       else subscriptions c) /\
    risk_threshold c' =
      (if decide (md_type frame = Some "subscribe")
       then match threat_types_set frame with
            | Some _ => default (risk_threshold c) (md_risk_threshold frame)
            | None => risk_threshold c
            end
       else risk_threshold c).
Proof.
  intros Hc.
  unfold handle_client_message, _handle_threat_report, set_of_threat_types,
    threat_types_set, bind, gets, utcnow, uuid4, store_active, modify,
    _send_message, to_json, try_except, bind, ws_send_text, redis_lpush,
    extern, log, modify, ret, raise. simpl. rewrite Hc. simpl.
  repeat case_decide; try congruence; simpl;
    try destruct (md_threat_types frame) as [[l|]|]; simpl;
    repeat match goal with
           | |- context [faulty w ?n] => destruct (faulty w n); simpl
           end;
    intros [= <- <-]; simpl; rewrite ?insert_insert_eq;
    (eexists; split; [reflexivity|]; simpl; split; [done|]; split; [done|];
     split; [lia|]; repeat (split; [done|]));
    rewrite ?(right_id_L ∅ (∪)), ?difference_empty_L;
    try done.
  all: by destruct (md_risk_threshold frame).
Qed.

Lemma threat_types_set_wire (frame : ClientMessage) :
  threat_types_set frame =
  Some (list_to_set (default [] (in_threat_types frame))).
Proof. unfold threat_types_set. simpl. by destruct (in_threat_types frame). Qed.

Lemma handle_client_message_spec cid c (frame : ClientMessage) w w' r :
  active_connections w !! cid = Some c ->
  handle_client_message cid frame w = (w', r) ->
  exists c',
    active_connections w' = <[cid := c']> (active_connections w) /\
    device_to_connection w' = device_to_connection w /\
    tasks w' = tasks w /\ (next_uuid w <= next_uuid w')%nat /\
    device_id c' = device_id c /\ websocket c' = websocket c /\
    geographic_regions c' = geographic_regions c /\
    subscriptions c' =
      (if decide (in_type frame = Some "subscribe")
       then subscriptions c ∪ list_to_set (default [] (in_threat_types frame))
       else if decide (in_type frame = Some "unsubscribe")
       then subscriptions c ∖ list_to_set (default [] (in_threat_types frame))
       else subscriptions c) /\
    risk_threshold c' =
      (if decide (in_type frame = Some "subscribe")
       then default (risk_threshold c) (in_risk_threshold frame)
       else risk_threshold c).
Proof.
  intros Hc E.
  destruct (handle_message_spec _ _ _ _ _ _ Hc E)
    as (c' & Ha & Hd & Htk & Hn & Hdev & Hws & Hg & Hs & Ht).
  rewrite threat_types_set_wire in Hs, Ht. simpl in Hs, Ht.
  exists c'. repeat (split; [done|]). done.
Qed.

Lemma connect_ok ws d subs w :
  registry_ok w -> registry_ok (connect ws d subs w).1.
Proof.
  intros Hok. destruct (connect ws d subs w) as [w' r] eqn:E.
  by destruct (connect_step _ _ _ _ _ _ Hok E) as [? _].
Qed.

Lemma handle_client_message_ok cid (frame : MessageData) w :
  registry_ok w -> registry_ok (handle_client_message cid frame w).1.
Proof.
  intros Hok. destruct (active_connections w !! cid) as [c|] eqn:Hc.
  - destruct (handle_client_message cid frame w) as [w' r] eqn:E.
    destruct (handle_message_spec _ _ _ _ _ _ Hc E)
      as (c' & Ea & Ed & _ & Hn & Hdev & _).
    destruct Hok as [Hd Ha Hf]. split; simpl; rewrite ?Ea, ?Ed.
    + intros d cid' H. destruct (Hd _ _ H) as (c0 & H0 & Hd0).
      destruct (decide (cid' = cid)) as [->|Hne].
      * exists c'. rewrite lookup_insert_eq. split; [done|]. congruence.
      * exists c0. by rewrite lookup_insert_ne.
    + intros cid' c0 H. apply lookup_insert_Some in H as [[<- <-]|[_ H]].
      * rewrite Hdev. by apply Ha.
      * by apply Ha.
    + intros cid' [c0 H]. apply lookup_insert_Some in H as [[<- <-]|[_ H]].
      * assert (cid < next_uuid w)%nat by (apply Hf; eauto). lia.
      * assert (cid' < next_uuid w)%nat by (apply Hf; eauto). lia.
  - unfold handle_client_message, bind, gets. simpl. by rewrite Hc.
Qed.

Lemma union_difference_fresh (s : gset string) (m : string) :
  m ∉ s -> (s ∪ list_to_set [m]) ∖ list_to_set [m] = s.
Proof.
  intros Hm. apply set_eq. intros x. simpl.
  rewrite elem_of_difference, !elem_of_union, elem_of_singleton, elem_of_empty.
  split.
  - intros [[Hx|[Hx|[]]] Hn]; [done|]. destruct Hn. by left.
  - intros Hx. split; [by left|]. intros [->|[]]. done.
Qed.

(** C9. Subscribe/unsubscribe round trip: for a registered session that
    is not subscribed to "malware", a subscribe frame for ["malware"]
    without a threshold adds it, and the unsubscribe frame for ["malware"]
    that follows leaves the subscriptions as they were before the pair. *)
Theorem subscribe_unsubscribe_roundtrip cid c w :
  active_connections w !! cid = Some c ->
  "malware" ∉ subscriptions c ->
  let w1 := (handle_client_message cid (subscribe_frame ["malware"] None) w).1 in
  let w2 := (handle_client_message cid (unsubscribe_frame ["malware"]) w1).1 in
  exists c1 c2,
    active_connections w1 !! cid = Some c1 /\
    subscriptions c1 = subscriptions c ∪ {["malware"]} /\
    active_connections w2 !! cid = Some c2 /\
    subscriptions c2 = subscriptions c.
Proof.
  intros Hc Hnot w1 w2.
  destruct (handle_client_message cid (subscribe_frame ["malware"] None) w)
    as [w1' r1] eqn:E1.
  destruct (handle_client_message_spec _ _ _ _ _ _ Hc E1)
    as (c1 & Ea1 & _ & _ & _ & _ & _ & _ & Hs1 & _).
  assert (Hc1 : active_connections w1 !! cid = Some c1).
  { subst w1. simpl. by rewrite Ea1, lookup_insert_eq. }
  destruct (handle_client_message cid (unsubscribe_frame ["malware"]) w1)
    as [w2' r2] eqn:E2.
  destruct (handle_client_message_spec _ _ _ _ _ _ Hc1 E2)
    as (c2 & Ea2 & _ & _ & _ & _ & _ & _ & Hs2 & _).
  exists c1, c2. simpl in Hs1, Hs2.
  split; [done|]. split; [rewrite Hs1; simpl; by rewrite (right_id_L ∅ (∪))|].
  split. { subst w2. simpl. by rewrite Ea2, lookup_insert_eq. }
  rewrite Hs2, Hs1. by apply union_difference_fresh.
Qed.

(** C9 at a session subscribed to phishing and scam. *)
Lemma subscribe_unsubscribe_roundtrip_witness :
  let w := w_connected healthy in
  let w1 := (handle_client_message 0 (subscribe_frame ["malware"] None)
               (handle_client_message 0 (unsubscribe_frame ["malware"]) w).1).1 in
  let w2 := (handle_client_message 0 (unsubscribe_frame ["malware"]) w1).1 in
  exists c2, active_connections w2 !! 0%nat = Some c2 /\
             subscriptions c2 = {[ "phishing"; "scam" ]}.
Proof.
  intros w w1 w2.
  destruct (subscribe_unsubscribe_roundtrip 0
              (set_subscriptions {[ "phishing"; "scam" ]}
                 (new_connection 7 "D1" None 0 0))
              (handle_client_message 0 (unsubscribe_frame ["malware"]) w).1)
    as (c1 & c2 & _ & _ & H2 & H3).
  - vm_compute; reflexivity.
  - vm_compute. intros H. inversion H.
  - exists c2. split; [exact H2|exact H3].
Defined.

(** C8 as stated fails: a subscribe frame carrying [risk_threshold = 150]
    takes a session from the default threshold 50 to 150, outside 0..100. *)
Lemma risk_threshold_out_of_range :
  let w := w_connected healthy in
  let w' := (handle_client_message 0 (subscribe_frame [] (Some 150)) w).1 in
  exists c, active_connections w !! 0%nat = Some c /\ in_range (risk_threshold c) /\
  exists c', active_connections w' !! 0%nat = Some c' /\
             ~ in_range (risk_threshold c').
Proof.
  eexists. split; [vm_compute; reflexivity|]. split; [unfold in_range; simpl; lia|].
  eexists. split; [vm_compute; reflexivity|]. unfold in_range; simpl; lia.
Qed.

Lemma handle_frames_threshold cid frames : forall c w,
  active_connections w !! cid = Some c ->
  in_range (risk_threshold c) ->
  Forall (fun frame => forall t, in_risk_threshold frame = Some t -> in_range t)
         frames ->
  exists c', active_connections (handle_frames cid frames w) !! cid = Some c' /\
             in_range (risk_threshold c').
Proof.
  induction frames as [|frame frames IH]; intros c w Hc Hr Hall; simpl.
  { by exists c. }
  apply Forall_cons in Hall as [Hf Hall].
  destruct (handle_client_message cid frame w) as [w1 r1] eqn:E.
  destruct (handle_client_message_spec _ _ _ _ _ _ Hc E)
    as (c1 & Ea & _ & _ & _ & _ & _ & _ & _ & Ht).
  apply (IH c1); simpl; [by rewrite Ea, lookup_insert_eq| |done].
  rewrite Ht. case_decide; [|done].
  destruct (in_risk_threshold frame) as [t|] eqn:Et; simpl; auto.
Qed.

(** C8, amended. The threshold of a session is 50 after [connect]; a
    subscribe frame carrying [risk_threshold] overwrites it with the value
    of the client, unchecked, and every other frame leaves it as it is.
    Hence along any sequence of frames it stays within 0..100 as long as
    every value supplied by the client does.  (The frames are at the types
    of the wire format; a frame on whose [threat_types] [set(..)] raises
    changes no threshold either, whatever it carries.) *)
Theorem risk_threshold_follows_client :
  (forall ws d subs w w' cid,
     registry_ok w -> connect ws d subs w = (w', Ok cid) ->
     exists c, active_connections w' !! cid = Some c /\ risk_threshold c = 50) /\
  (forall cid c (frame : ClientMessage) w,
     active_connections w !! cid = Some c ->
     exists c',
       active_connections (handle_client_message cid frame w).1 !! cid = Some c' /\
       risk_threshold c' =
         match in_risk_threshold frame with
         | Some t => if decide (in_type frame = Some "subscribe")
                     then t else risk_threshold c
         | None => risk_threshold c
         end) /\
  (forall cid c frames w,
     active_connections w !! cid = Some c ->
     in_range (risk_threshold c) ->
     Forall (fun frame => forall t, in_risk_threshold frame = Some t -> in_range t)
            frames ->
     exists c', active_connections (handle_frames cid frames w) !! cid = Some c' /\
                in_range (risk_threshold c')) /\
  (forall cid c (frame : MessageData) w,
     active_connections w !! cid = Some c ->
     threat_types_set frame = None ->
     exists c',
       active_connections (handle_client_message cid frame w).1 !! cid = Some c' /\
       risk_threshold c' = risk_threshold c).
Proof.
  split; [|split; [|split]].
  - intros ws d subs w w' cid Hok E.
    destruct (connect_step _ _ _ _ _ _ Hok E) as (_ & _ & _ & _ & _ & tl & _ & _ & _ & H).
    destruct (H cid eq_refl) as (_ & _ & _ & (tc & tp & Ha) & _).
    eexists. split; [exact Ha|reflexivity].
  - intros cid c frame w Hc.
    destruct (handle_client_message cid frame w) as [w1 r1] eqn:E.
    destruct (handle_client_message_spec _ _ _ _ _ _ Hc E)
      as (c1 & Ea & _ & _ & _ & _ & _ & _ & _ & Ht).
    exists c1. simpl. split; [by rewrite Ea, lookup_insert_eq|].
    rewrite Ht. destruct (in_risk_threshold frame); by case_decide.
  - intros cid c frames w. apply handle_frames_threshold.
  - intros cid c frame w Hc Hbad.
    destruct (handle_client_message cid frame w) as [w1 r1] eqn:E.
    destruct (handle_message_spec _ _ _ _ _ _ Hc E)
      as (c1 & Ea & _ & _ & _ & _ & _ & _ & _ & Ht).
    exists c1. simpl. split; [by rewrite Ea, lookup_insert_eq|].
    rewrite Ht, Hbad. by case_decide.
Qed.

(** C8, amended, at a session that receives a threshold of 80. *)
Lemma risk_threshold_follows_client_witness :
  (exists c, active_connections (w_connected healthy) !! 0%nat = Some c /\
             risk_threshold c = 50) /\
  (exists c',
     active_connections
       (handle_frames 0 [subscribe_frame ["malware"] (Some 80);
                         unsubscribe_frame ["scam"]]
          (w_connected healthy)) !! 0%nat = Some c' /\
     in_range (risk_threshold c')).
Proof.
  destruct risk_threshold_follows_client as (H1 & _ & H3 & _). split.
  - apply (H1 7%nat "D1" None (init (frozen 0) healthy)).
    + apply init_ok.
    + vm_compute; reflexivity.
  - apply (H3 0%nat (new_connection 7 "D1" None 0 0)).
    + vm_compute; reflexivity.
    + unfold in_range; simpl; lia.
    + constructor; [|constructor; [|constructor]]; simpl; intros t [= <-];
        unfold in_range; lia.
Defined.

(** C10. [uptime_seconds] of [get_connection_stats] is the reading of the
    clock taken at the start of the call minus a reading taken later in the
    same call: under a clock that does not run backwards it is never
    positive, it is zero when the two readings agree, and it depends on
    nothing else, so it never is the uptime of the process. *)
Theorem uptime_never_positive w :
  (forall i j, (i <= j)%nat -> clock w i <= clock w j) ->
  exists st,
    (get_connection_stats w).2 = Ok st /\
    uptime_seconds st =
      total_seconds (clock w (reads w) - clock w (S (reads w))) /\
    (uptime_seconds st <= 0)%Q /\
    (clock w (S (reads w)) = clock w (reads w) -> (uptime_seconds st == 0)%Q).
Proof.
  intros Hmono. eexists. split; [reflexivity|]. simpl. split; [reflexivity|].
  pose proof (Hmono (reads w) (S (reads w)) ltac:(lia)) as H.
  split.
  - unfold total_seconds, Qle. simpl. lia.
  - intros ->. unfold total_seconds, Qeq. simpl. lia.
Qed.

(** C10 under a clock that stands still. *)
Lemma uptime_never_positive_witness :
  exists st,
    (get_connection_stats (w_connected healthy)).2 = Ok st /\
    total_connections st = 1%nat /\
    (uptime_seconds st == 0)%Q.
Proof.
  destruct (uptime_never_positive (w_connected healthy)) as (st & H1 & _ & _ & H4).
  - intros i j _. vm_compute. discriminate.
  - exists st. split; [exact H1|]. split.
    + vm_compute in H1. inversion H1. reflexivity.
    + apply H4. reflexivity.
Defined.

(** ** Fan-out *)

Lemma sends_app tl1 tl2 : sends (tl1 ++ tl2) = (sends tl1 ++ sends tl2)%list.
Proof. unfold sends. apply omap_app. Qed.

Lemma delivered_app tl1 tl2 :
  delivered (tl1 ++ tl2) = (delivered tl1 ++ delivered tl2)%list.
Proof. unfold delivered. apply omap_app. Qed.

Lemma should_receive_iff s a :
  _should_receive_alert s a = true <-> eligible s a.
Proof.
  unfold _should_receive_alert, eligible.
  case_bool_decide as Hsub; simpl; [|by intuition].
  destruct (Z.ltb_spec (severity_scores (severity a)) (risk_threshold s));
    [split; [done|lia]|].
  destruct (affected_regions a) as [|r1 ra] eqn:Ea; cbn [nonempty andb].
  { split; [|done]. intros _. repeat split; auto; lia. }
  destruct (geographic_regions s) as [|r2 rs] eqn:Es; cbn [nonempty andb].
  { split; [|done]. intros _. repeat split; auto; lia. }
  case_bool_decide as Hi.
  - split; [done|]. intros (_ & _ & [?|[?|(r & H1 & H2)]]); try done.
    assert (r ∈ (∅ : gset string)) as Hr; [|by apply not_elem_of_empty in Hr].
    rewrite <- Hi. apply elem_of_intersection. by rewrite !elem_of_list_to_set.
  - split; [|done]. intros _. split; [done|]. split; [lia|]. right. right.
    apply set_choose_L in Hi as [r Hr]. exists r.
    apply elem_of_intersection in Hr. by rewrite !elem_of_list_to_set in Hr.
Qed.

Lemma elem_of_values w c :
  c ∈ values w <-> exists cid, active_connections w !! cid = Some c.
Proof.
  unfold values, items. rewrite list_elem_of_fmap. split.
  - intros ([cid c'] & -> & H). exists cid. by apply elem_of_map_to_list in H.
  - intros [cid H]. exists (cid, c). split; [done|]. by apply elem_of_map_to_list.
Qed.

Lemma alert_targets_live a tds w c :
  c ∈ alert_targets a tds w -> c ∈ values w.
Proof.
  assert (Hf : c ∈ filter (fun c => _should_receive_alert c a = true) (values w) ->
               c ∈ values w).
  { intros H. by apply list_elem_of_filter in H as [_ H]. }
  assert (Hr : forall ds, c ∈ resolve_targets ds w -> c ∈ values w).
  { intros ds H. apply list_elem_of_omap in H as (d & _ & H).
    destruct (device_to_connection w !! d) as [cid|]; [|done].
    apply elem_of_values. by exists cid. }
  unfold alert_targets. destruct tds as [[|d ds]|]; [apply Hf|apply Hr|apply Hf].
Qed.

Lemma addressed_inj w m c1 c2 :
  registry_ok w -> c1 ∈ values w -> c2 ∈ values w ->
  addressed m c1 = addressed m c2 -> c1 = c2.
Proof.
  intros Hok H1 H2 E.
  apply elem_of_values in H1 as [cid1 H1]. apply elem_of_values in H2 as [cid2 H2].
  assert (device_id c1 = device_id c2) as Hd by (by inversion E).
  pose proof (registry_ok_unique _ _ _ _ _ Hok H1 H2 Hd) as ->. congruence.
Qed.

Lemma values_NoDup w : registry_ok w -> NoDup (values w).
Proof.
  intros Hok. unfold values, items. apply NoDup_fmap_2_strong.
  - intros [cid1 c1] [cid2 c2] H1 H2 E. simpl in E. subst c2.
    apply elem_of_map_to_list in H1, H2.
    by rewrite (registry_ok_unique _ _ _ _ _ Hok H1 H2 eq_refl).
  - apply NoDup_map_to_list.
Qed.

Lemma delivered_le_sends tl : (length (delivered tl) <= length (sends tl))%nat.
Proof.
  induction tl as [|e tl IH]; simpl; [done|].
  unfold delivered, sends in *. destruct e as [| |ws m [|]| | | |]; simpl; lia.
Qed.

Lemma send_updates_spec message targets : forall n w,
  json_serializable (data message) = true ->
  exists w' n',
    send_updates message targets n w = (w', Ok n') /\
    tasks w' = tasks w /\
    active_connections w' = active_connections w /\
    device_to_connection w' = device_to_connection w.
Proof.
  induction targets as [|c targets IH]; intros n w Hser; simpl.
  { by exists w, n. }
  unfold bind at 1. unfold try_except, bind, _send_message, to_json,
    try_except, bind, ws_send_text, extern, log, modify, ret, raise.
  simpl. rewrite Hser.
  destruct (faulty w (length (trace w))); simpl.
  - match goal with |- context [send_updates message targets n ?w1] =>
      destruct (IH n w1 Hser) as (w' & n' & E & Ht & Ha & Hd)
    end.
    rewrite E. by exists w', n'.
  - match goal with |- context [send_updates message targets (S n) ?w1] =>
      destruct (IH (S n) w1 Hser) as (w' & n' & E & Ht & Ha & Hd)
    end.
    rewrite E. by exists w', n'.
Qed.

(** C3 at the failing input: [send_security_update] never hands a
    [disconnect] to the event loop and leaves both indexes as they are.
    With one session whose channel refuses the send, it returns 0 and the
    session is still registered once the event loop has run; in the same
    world [send_threat_alert] schedules the teardown of that session, which
    is gone once the event loop has run. *)
Theorem security_update_keeps_failed_session :
  (forall update_data tds w,
     exists w' n,
       send_security_update update_data tds w = (w', Ok n) /\
       tasks w' = tasks w /\
       active_connections w' = active_connections w /\
       device_to_connection w' = device_to_connection w) /\
  (let w := w_connected (fails_at 4) in
   let r := send_security_update [] None w in
   r.2 = Ok 0%nat /\
   (exists m, trace r.1 !! 4%nat = Some (EvSend 7 m false)) /\
   tasks r.1 = [] /\
   lookup_by_device "D1" (run_tasks r.1) =
     Some (new_connection 7 "D1" None 0 0)) /\
  (let w := w_connected (fails_at 4) in
   let r := send_threat_alert (phishing_alert HIGH) (Some ["D1"]) w in
   r.2 = Ok 0%nat /\
   tasks r.1 = [0%nat] /\
   lookup_by_device "D1" (run_tasks r.1) = None).
Proof.
  split; [|split].
  - intros update_data tds w.
    unfold send_security_update, bind at 1. unfold uuid4. unfold bind at 1.
    unfold utcnow. unfold bind at 1. unfold gets.
    match goal with |- context [send_updates ?m ?t 0%nat ?w1] =>
      destruct (send_updates_spec m t 0%nat w1 eq_refl)
        as (w' & n & E & Ht & Ha & Hd)
    end.
    exists w', n. by rewrite E.
  - simpl. split; [vm_compute; reflexivity|]. split.
    { eexists. vm_compute. reflexivity. }
    split; vm_compute; reflexivity.
  - simpl. repeat split; vm_compute; reflexivity.
Qed.

(** C1 at a device that connects on channel 7 and then on channel 8. *)
Lemma single_session_per_device_witness :
  let w0 := init (frozen 0) healthy in
  let w' := (connect 8 "D1" None (w_connected healthy)).1 in
  (exists s, lookup_by_device "D1" w' = Some s /\ websocket s = 8%nat) /\
  active_connections w' !! 0%nat = None /\
  (exists ok, EvClose 7 ok ∈ trace w').
Proof.
  intros w0 w'.
  destruct (single_session_per_device "D1" [(7%nat, None)] 8%nat None w0 w' 2%nat)
    as ((s & Hl & _ & Hws & _) & Hold & _).
  - apply init_ok.
  - vm_compute; reflexivity.
  - split; [by exists s|].
    destruct (Hold (w_connected healthy) 0%nat (new_connection 7 "D1" None 0 0))
      as (Hg & _ & Hc).
    + apply list_elem_of_further, list_elem_of_here.
    + split; vm_compute; reflexivity.
    + split; [exact Hg|exact Hc].
Defined.

(** * Further properties of the module *)

(** ** Teardown *)

Lemma disconnect_ok cid w :
  registry_ok w -> registry_ok (disconnect cid w).1.
Proof.
  intros Hok. destruct (active_connections w !! cid) as [c|] eqn:Hc.
  - destruct (disconnect_present _ _ _ Hc) as (tl & r & E & _).
    rewrite E. simpl. by apply torn_down_ok.
  - by rewrite (disconnect_absent _ _ Hc).
Qed.

Lemma disconnect_lookup cid w cid' :
  active_connections (disconnect cid w).1 !! cid' =
  if decide (cid' = cid) then None else active_connections w !! cid'.
Proof.
  destruct (active_connections w !! cid) as [c|] eqn:Hc.
  - destruct (disconnect_present _ _ _ Hc) as (tl & r & E & _).
    rewrite E. simpl. case_decide as Hd.
    + subst. apply lookup_delete_eq.
    + by rewrite lookup_delete_ne.
  - rewrite (disconnect_absent _ _ Hc). simpl. case_decide; congruence.
Qed.

Lemma disconnect_env cid w :
  let w' := (disconnect cid w).1 in
  tasks w' = tasks w /\ next_uuid w' = next_uuid w /\ reads w' = reads w /\
  clock w' = clock w /\ faulty w' = faulty w /\
  exists tl, trace w' = (trace w ++ tl)%list /\ sends tl = [].
Proof.
  destruct (active_connections w !! cid) as [c|] eqn:Hc; simpl.
  - revert Hc. run. intros Hc. rewrite Hc.
    destruct (faulty w (length (trace w))) eqn:Hf; simpl; rewrite Hc; simpl;
    destruct (device_to_connection w !! device_id c) eqn:Hd; simpl;
    match goal with |- context [faulty w ?n] => destruct (faulty w n) eqn:Hr end;
    simpl; repeat (split; [done|]); rewrite <- ?(assoc_L (++));
    (eexists; split; [reflexivity|done]).
  - rewrite (disconnect_absent _ _ Hc). simpl. repeat (split; [done|]).
    exists []. by rewrite app_nil_r.
Qed.

Lemma disconnect_devices cid w d :
  registry_ok w ->
  device_to_connection (disconnect cid w).1 !! d =
  if decide (device_to_connection w !! d = Some cid) then None
  else device_to_connection w !! d.
Proof.
  intros Hok. destruct (active_connections w !! cid) as [c|] eqn:Hc.
  - destruct (disconnect_present _ _ _ Hc) as (tl & r & E & _).
    rewrite E. simpl. case_decide as Hd.
    + destruct (ok_device _ Hok _ _ Hd) as (c' & Hc' & <-).
      assert (c' = c) as -> by congruence. apply lookup_delete_eq.
    + rewrite lookup_delete_ne; [done|]. intros <-.
      by apply (ok_active _ Hok) in Hc.
  - rewrite (disconnect_absent _ _ Hc). simpl. case_decide as Hd; [|done].
    destruct (ok_device _ Hok _ _ Hd) as (c' & Hc' & _). congruence.
Qed.

Lemma run_each_ok q : forall w, registry_ok w -> registry_ok (run_each q w).
Proof.
  induction q as [|cid q IH]; intros w Hok; simpl; [done|].
  by apply IH, disconnect_ok.
Qed.

Lemma run_each_lookup q : forall w cid',
  active_connections (run_each q w) !! cid' =
  if decide (cid' ∈ q) then None else active_connections w !! cid'.
Proof.
  induction q as [|cid q IH]; intros w cid'; cbn [run_each].
  { destruct (decide (cid' ∈ [])) as [H|]; [by apply elem_of_nil in H|done]. }
  rewrite IH, disconnect_lookup.
  destruct (decide (cid' = cid)) as [->|Hne].
  - rewrite (decide_True (P := cid ∈ cid :: q)) by apply list_elem_of_here.
    by destruct (decide (cid ∈ q)).
  - destruct (decide (cid' ∈ q)) as [Hin|Hin].
    + by rewrite decide_True by by apply list_elem_of_further.
    + rewrite decide_False; [done|].
      intros H. apply elem_of_cons in H as [?|?]; done.
Qed.

Lemma run_each_devices q : forall w d,
  registry_ok w ->
  device_to_connection (run_each q w) !! d =
  match device_to_connection w !! d with
  | Some cid => if decide (cid ∈ q) then None else Some cid
  | None => None
  end.
Proof.
  induction q as [|cid q IH]; intros w d Hok; cbn [run_each].
  { destruct (device_to_connection w !! d) as [cid|]; [|done].
    destruct (decide (cid ∈ [])) as [H|]; [by apply elem_of_nil in H|done]. }
  rewrite IH by by apply disconnect_ok. rewrite disconnect_devices by done.
  destruct (device_to_connection w !! d) as [cid0|] eqn:Hd.
  - destruct (decide (Some cid0 = Some cid)) as [H1|H1].
    + inversion H1; subst.
      by rewrite decide_True by apply list_elem_of_here.
    + destruct (decide (cid0 ∈ q)) as [Hin|Hin].
      * by rewrite decide_True by by apply list_elem_of_further.
      * rewrite decide_False; [done|].
        intros H. apply elem_of_cons in H as [?|?]; [congruence|done].
  - by rewrite decide_False.
Qed.

Lemma run_each_env q : forall w,
  let w' := run_each q w in
  tasks w' = tasks w /\ next_uuid w' = next_uuid w /\ reads w' = reads w /\
  clock w' = clock w /\ faulty w' = faulty w /\
  exists tl, trace w' = (trace w ++ tl)%list /\ sends tl = [].
Proof.
  induction q as [|cid q IH]; intros w; simpl.
  { repeat (split; [done|]). exists []. by rewrite app_nil_r. }
  destruct (disconnect_env cid w) as (H1 & H2 & H3 & H4 & H5 & tl1 & H6 & H7).
  destruct (IH (disconnect cid w).1) as (I1 & I2 & I3 & I4 & I5 & tl2 & I6 & I7).
  repeat (split; [congruence|]).
  exists (tl1 ++ tl2)%list. split.
  - by rewrite I6, H6, <- (assoc_L (++)).
  - unfold sends in *. by rewrite omap_app, H7, I7.
Qed.

(** ** Fan-out with its teardown *)

Lemma refused_app tl1 tl2 :
  refused (tl1 ++ tl2) = (refused tl1 ++ refused tl2)%list.
Proof. unfold refused. apply omap_app. Qed.

Lemma send_message_unserializable ws m w :
  json_serializable (data m) = false ->
  _send_message ws m w =
    (emit (EvLog ERROR "Failed to send WebSocket message") w, Raise TypeError).
Proof.
  intros Hser. unfold _send_message, to_json, try_except, bind, log, modify,
    raise. by rewrite Hser.
Qed.

Lemma send_alerts_unsent message targets : forall n w,
  json_serializable (data message) = false ->
  (forall c, c ∈ targets -> c ∈ values w) ->
  exists w' (failed : list (nat * ConnectionInfo)),
    send_alerts message targets n w = (w', Ok n) /\
    active_connections w' = active_connections w /\
    device_to_connection w' = device_to_connection w /\
    next_uuid w' = next_uuid w /\ reads w' = reads w /\
    clock w' = clock w /\ faulty w' = faulty w /\
    trace w' = (trace w ++ (targets ≫= fun _ => alert_failure_log))%list /\
    tasks w' = (tasks w ++ failed.*1)%list /\
    failed.*2 = targets /\
    Forall (fun p => active_connections w !! p.1 = Some p.2) failed.
Proof.
  induction targets as [|c targets IH]; intros n w Hser Hin; simpl.
  { exists w, []. unfold ret. rewrite !app_nil_r. by repeat split. }
  assert (Hc : c ∈ values w) by apply Hin, list_elem_of_here.
  unfold bind at 1. unfold try_except, bind at 1.
  rewrite send_message_unserializable by done.
  unfold bind, log, modify, ret, create_task, find_connection_id. simpl.
  unfold items; simpl.
  unfold values, items in Hc. apply list_elem_of_fmap in Hc as ([cid c'] & -> & Hc).
  destruct (list_find_elem_of (fun p : nat * ConnectionInfo => p.2 = c')
              (map_to_list (active_connections w)) (cid, c') Hc eq_refl)
    as [[i [cid' c'']] Hfind].
  simpl in Hfind, Hin |- *. rewrite Hfind. simpl.
  apply list_find_Some in Hfind as (Hi & Hcc & _). simpl in Hcc. subst c''.
  apply list_elem_of_lookup_2, elem_of_map_to_list in Hi.
  match goal with |- context [send_alerts message targets n ?w1] =>
    destruct (IH n w1 Hser)
      as (w' & failed & E & Ha & Hd & Hn & Hr & Hck & Hfy & Htr & Htk & Hf2 & Hall)
  end.
  { intros c0 H0. unfold values, items. simpl.
    by apply Hin, list_elem_of_further. }
  rewrite E. exists w', ((cid', c') :: failed).
  split; [done|]. simpl in *. repeat (split; [done|]).
  split. { rewrite Htr, <- !(assoc_L (++)). reflexivity. }
  split. { rewrite Htk, <- (assoc_L (++)). done. }
  split; [f_equal; exact Hf2|]. by constructor.
Qed.

Lemma sends_alert_failure_log (targets : list ConnectionInfo) :
  sends (targets ≫= fun _ => alert_failure_log) = [].
Proof. induction targets as [|c targets IH]; [done|]. simpl. exact IH. Qed.

Lemma keeps_registry_ok w w' :
  keeps_registry w w' -> registry_ok w -> registry_ok w'.
Proof.
  intros [Ha Hd _ _ Hn]. by apply registry_ok_same.
Qed.

(** [send_threat_alert] in full: the envelope cannot be rendered, so every
    selected connection ends in the [except] branch. *)
Lemma send_threat_alert_full a tds w :
  exists w' (failed : list (nat * ConnectionInfo)),
    send_threat_alert a tds w = (w', Ok 0%nat) /\
    keeps_registry w w' /\
    trace w' =
      (trace w ++ (alert_targets a tds w ≫= fun _ => alert_failure_log)
               ++ [EvLog INFO "Sent threat alert"])%list /\
    tasks w' = (tasks w ++ failed.*1)%list /\
    failed.*2 = alert_targets a tds w /\
    Forall (fun p => active_connections w !! p.1 = Some p.2) failed.
Proof.
  unfold send_threat_alert, bind at 1. unfold uuid4. unfold bind at 1.
  unfold utcnow. unfold bind at 1. unfold gets. unfold bind at 1.
  set (w0 := set_reads _ _).
  destruct (send_alerts_unsent (alert_message a w) (alert_targets a tds w) 0%nat w0)
    as (w' & failed & E & Ha & Hd & Hn & Hr & Hck & Hfy & Htr & Htk & Hf2 & Hall).
  { reflexivity. }
  { intros c Hc. apply alert_targets_live in Hc. done. }
  change (send_alerts _ _ 0%nat w0)
    with (send_alerts (alert_message a w) (alert_targets a tds w) 0%nat w0).
  rewrite E. unfold log, modify, bind, ret. simpl.
  exists (emit (EvLog INFO "Sent threat alert") w'), failed.
  split; [done|]. split.
  { split; simpl; try done. rewrite Hn. simpl. lia. }
  simpl. split. { rewrite Htr. simpl. by rewrite <- (assoc_L (++)). }
  done.
Qed.

Lemma sends_alert_trace (targets : list ConnectionInfo) :
  sends ((targets ≫= fun _ => alert_failure_log)
         ++ [EvLog INFO "Sent threat alert"]) = [].
Proof. by rewrite sends_app, sends_alert_failure_log. Qed.

Lemma failed_iff_member w (failed : list (nat * ConnectionInfo)) cid s :
  registry_ok w ->
  Forall (fun p => active_connections w !! p.1 = Some p.2) failed ->
  active_connections w !! cid = Some s ->
  cid ∈ failed.*1 <-> s ∈ failed.*2.
Proof.
  intros Hok Hall Hs. rewrite Forall_forall in Hall. split.
  - intros H. apply list_elem_of_fmap in H as ([cid' c'] & -> & Hin).
    pose proof (Hall _ Hin) as Hl. simpl in Hl, Hs.
    assert (c' = s) as -> by congruence.
    apply list_elem_of_fmap. by exists (cid', s).
  - intros H. apply list_elem_of_fmap in H as ([cid' c'] & -> & Hin).
    pose proof (Hall _ Hin) as Hl. simpl in Hl, Hs |- *.
    assert (cid' = cid) as -> by (eapply registry_ok_unique; eauto).
    apply list_elem_of_fmap. by exists (cid, c').
Qed.

Lemma failed_iff w m (failed : list (nat * ConnectionInfo)) cid s :
  registry_ok w ->
  Forall (fun p => active_connections w !! p.1 = Some p.2) failed ->
  active_connections w !! cid = Some s ->
  cid ∈ failed.*1 <-> addressed m s ∈ addressed m <$> failed.*2.
Proof.
  intros Hok Hall Hs. rewrite (failed_iff_member w failed cid s) by done.
  split.
  - intros H. apply list_elem_of_fmap. by exists s.
  - intros H. apply list_elem_of_fmap in H as (c' & Heq & Hin).
    assert (s = c') as ->; [|done].
    eapply (addressed_inj w); eauto; [apply elem_of_values; eauto|].
    rewrite Forall_forall in Hall.
    apply list_elem_of_fmap in Hin as ([cid' c''] & -> & Hin).
    apply elem_of_values. exists cid'. by apply (Hall _ Hin).
Qed.

Lemma run_tasks_lookup w cid :
  active_connections (run_tasks w) !! cid =
  if decide (cid ∈ tasks w) then None else active_connections w !! cid.
Proof. unfold run_tasks. by rewrite run_each_lookup. Qed.

Lemma run_tasks_ok w : registry_ok w -> registry_ok (run_tasks w).
Proof.
  intros Hok. apply run_each_ok. by eapply registry_ok_same; [..|exact Hok].
Qed.

Lemma run_tasks_device w d :
  registry_ok w ->
  lookup_by_device d (run_tasks w) =
  match device_to_connection w !! d with
  | Some cid => if decide (cid ∈ tasks w) then None
                else active_connections w !! cid
  | None => None
  end.
Proof.
  intros Hok. unfold lookup_by_device, run_tasks.
  rewrite run_each_devices by by eapply registry_ok_same; [..|exact Hok].
  simpl. destruct (device_to_connection w !! d) as [cid|]; [|done].
  destruct (decide (cid ∈ tasks w)) as [Hin|Hin]; [done|].
  rewrite run_each_lookup. simpl. by rewrite decide_False.
Qed.

Lemma teardown_after w w' (failed : list (nat * ConnectionInfo)) cid s :
  registry_ok w -> keeps_registry w w' ->
  tasks w' = (tasks w ++ failed.*1)%list ->
  active_connections w !! cid = Some s ->
  (cid ∈ failed.*1 ->
   cid ∈ tasks w' /\
   active_connections (run_tasks w') !! cid = None /\
   lookup_by_device (device_id s) (run_tasks w') = None) /\
  (cid ∉ failed.*1 -> cid ∉ tasks w ->
   active_connections (run_tasks w') !! cid = Some s /\
   lookup_by_device (device_id s) (run_tasks w') = Some s).
Proof.
  intros Hok Hk Htk Hs.
  assert (Hok' : registry_ok w') by by eapply keeps_registry_ok.
  destruct Hk as [Ha Hd _ _ _].
  assert (Hdev : device_to_connection w' !! device_id s = Some cid).
  { rewrite Hd. by apply (ok_active _ Hok). }
  split.
  - intros Hin.
    assert (Hin' : cid ∈ tasks w') by (rewrite Htk; apply elem_of_app; by right).
    split; [done|]. rewrite run_tasks_lookup, run_tasks_device, Hdev by done.
    by rewrite !decide_True.
  - intros Hnf Hnt.
    assert (Hin' : cid ∉ tasks w').
    { rewrite Htk. intros H. apply elem_of_app in H as [?|?]; done. }
    rewrite run_tasks_lookup, run_tasks_device, Hdev by done.
    rewrite !decide_False by done. by rewrite Ha.
Qed.

(** What [send_threat_alert] does to one live session. *)
Lemma alert_teardown a tds w cid s :
  registry_ok w ->
  active_connections w !! cid = Some s ->
  exists w' tl,
    send_threat_alert a tds w = (w', Ok 0%nat) /\
    keeps_registry w w' /\
    trace w' = (trace w ++ tl)%list /\
    sends tl = [] /\
    (alert_targets a tds w = [] -> tasks w' = tasks w) /\
    (s ∈ alert_targets a tds w ->
     cid ∈ tasks w' /\
     active_connections (run_tasks w') !! cid = None /\
     lookup_by_device (device_id s) (run_tasks w') = None) /\
    (s ∉ alert_targets a tds w -> cid ∉ tasks w ->
     (cid ∉ tasks w') /\
     active_connections (run_tasks w') !! cid = Some s /\
     lookup_by_device (device_id s) (run_tasks w') = Some s).
Proof.
  intros Hok Hs.
  destruct (send_threat_alert_full a tds w)
    as (w' & failed & E & Hk & Htr & Htk & Hf2 & Hall).
  eexists w', _. split; [done|]. split; [done|]. split; [exact Htr|].
  split; [apply sends_alert_trace|].
  destruct (teardown_after w w' failed cid s Hok Hk Htk Hs) as [H1 H2].
  rewrite <- Hf2, <- (failed_iff_member w failed cid s) by done.
  split.
  { intros Hnil. destruct failed; [|done]. rewrite Htk. simpl.
    by rewrite app_nil_r. }
  split; [done|]. intros Hnf Hnt. split; [|by apply H2].
  rewrite Htk. intros H. apply elem_of_app in H as [?|?]; done.
Qed.

(** C2: the selection works as claimed, the delivery does not happen.
    [_should_receive_alert] holds exactly when the tag of the alert type is
    among the subscriptions, the score of the severity (25, 50, 75, 95) is
    at least the threshold, and the regions of either side are empty or
    intersect.  But the envelope of a threat alert cannot be rendered:
    [to_json] raises [TypeError] on it, so [_send_message] raises before
    the transport is called.  Hence [send_threat_alert] without target
    devices returns 0 and calls [send_text] on no channel, whatever the
    sessions; an eligible session is scheduled for [disconnect] instead and
    is unregistered once the event loop has run, while a session that is
    not eligible stays registered. *)
Theorem eligible_session_gets_no_alert w a cid s :
  registry_ok w ->
  active_connections w !! cid = Some s ->
  (severity_scores LOW = 25 /\ severity_scores MEDIUM = 50 /\
   severity_scores HIGH = 75 /\ severity_scores CRITICAL = 95) /\
  (_should_receive_alert s a = true <-> eligible s a) /\
  (forall w0,
     to_json (stamp (alert_message a w) (device_id s)) w0
       = (w0, Raise TypeError) /\
     _send_message (websocket s) (stamp (alert_message a w) (device_id s)) w0
       = (emit (EvLog ERROR "Failed to send WebSocket message") w0,
          Raise TypeError)) /\
  exists w' tl,
    send_threat_alert a None w = (w', Ok 0%nat) /\
    trace w' = (trace w ++ tl)%list /\
    sends tl = [] /\
    (eligible s a ->
     cid ∈ tasks w' /\
     lookup_by_device (device_id s) (run_tasks w') = None) /\
    ((~ eligible s a) -> cid ∉ tasks w ->
     lookup_by_device (device_id s) (run_tasks w') = Some s).
Proof.
  intros Hok Hs. split; [done|]. split; [apply should_receive_iff|].
  split.
  { intros w0. split; [done|]. by apply send_message_unserializable. }
  destruct (alert_teardown a None w cid s Hok Hs)
    as (w' & tl & E & _ & Htr & Hsd & _ & Hin & Hout).
  exists w', tl. repeat (split; [done|]).
  assert (Hiff : s ∈ alert_targets a None w <-> eligible s a).
  { rewrite <- should_receive_iff. simpl. rewrite list_elem_of_filter.
    split; [by intros [? _]|]. intros H. split; [done|].
    apply elem_of_values. eauto. }
  rewrite <- Hiff. split.
  - intros H. by destruct (Hin H) as (? & _ & ?).
  - intros H Ht. by destruct (Hout H Ht) as (_ & _ & ?).
Qed.

(** C2 at a session subscribed to new_threat and a high severity alert:
    the session is eligible, nothing is sent, the call returns 0 and the
    device is unregistered once the event loop has run. *)
Lemma eligible_session_gets_no_alert_witness :
  let w := (handle_client_message 0 (subscribe_frame ["new_threat"] None)
              (w_connected healthy)).1 in
  let s := set_subscriptions {[ "phishing"; "malware"; "scam"; "new_threat" ]}
             (new_connection 7 "D1" None 0 0) in
  eligible s (phishing_alert HIGH) /\
  exists w' tl,
    send_threat_alert (phishing_alert HIGH) None w = (w', Ok 0%nat) /\
    trace w' = (trace w ++ tl)%list /\ sends tl = [] /\
    lookup_by_device "D1" w' = Some s /\
    lookup_by_device "D1" (run_tasks w') = None.
Proof.
  intros w s.
  assert (Hok : registry_ok w).
  { apply handle_client_message_ok, connect_ok, init_ok. }
  destruct (eligible_session_gets_no_alert w (phishing_alert HIGH) 0%nat s Hok)
    as (_ & Hiff & _ & w' & tl & E & Htr & Hsd & Hin & _).
  - vm_compute; reflexivity.
  - assert (He : eligible s (phishing_alert HIGH)).
    { apply Hiff. vm_compute; reflexivity. }
    split; [exact He|]. exists w', tl.
    split; [exact E|]. split; [exact Htr|]. split; [exact Hsd|]. split.
    + replace w' with (send_threat_alert (phishing_alert HIGH) None w).1
        by (rewrite E; reflexivity).
      vm_compute; reflexivity.
    + apply (Hin He).
Defined.

(** C5. In a call of [send_threat_alert], with or without target devices
    and whatever the list of target devices repeats, no live session
    receives more than one copy of the alert envelope, and the returned
    count is at most the number of distinct connections selected.  Both
    bounds hold with room to spare: the envelope cannot be rendered, so no
    copy is sent at all and the count is 0. *)
Theorem at_most_one_copy_per_session a tds w :
  exists w' n tl,
    send_threat_alert a tds w = (w', Ok n) /\
    trace w' = (trace w ++ tl)%list /\
    (forall s, s ∈ values w ->
       (length (filter (fun p => p.1 = websocket s) (sends tl)) <= 1)%nat) /\
    (n <= length (remove_dups (alert_targets a tds w)))%nat /\
    sends tl = [] /\ n = 0%nat.
Proof.
  destruct (send_threat_alert_full a tds w)
    as (w' & failed & E & _ & Htr & _).
  eexists w', 0%nat, _. split; [exact E|]. split; [exact Htr|].
  rewrite sends_alert_trace. split; [|split; [lia|done]].
  intros s _. simpl. lia.
Qed.

(** C5 at a list of target devices that names the only live device
    twice. *)
Lemma at_most_one_copy_per_session_witness :
  let w := w_connected healthy in
  exists w' n tl,
    send_threat_alert (phishing_alert HIGH) (Some ["D1"; "D1"]) w = (w', Ok n) /\
    trace w' = (trace w ++ tl)%list /\
    (length (filter (fun p => p.1 = 7%nat) (sends tl)) <= 1)%nat /\
    (n <= 1)%nat.
Proof.
  intros w.
  destruct (at_most_one_copy_per_session (phishing_alert HIGH)
              (Some ["D1"; "D1"]) w)
    as (w' & n & tl & E & Htr & Hcopies & Hn & _).
  exists w', n, tl. split; [exact E|]. split; [exact Htr|]. split.
  - apply (Hcopies (new_connection 7 "D1" None 0 0)).
    apply elem_of_values. exists 0%nat. vm_compute; reflexivity.
  - assert (Hd : remove_dups (alert_targets (phishing_alert HIGH)
                                (Some ["D1"; "D1"]) w)
                 = [new_connection 7 "D1" None 0 0])
      by (vm_compute; reflexivity).
    rewrite Hd in Hn. exact Hn.
Defined.



Lemma create_tasks_spec l : forall w,
  exists w',
    create_tasks l w = (w', Ok tt) /\
    tasks w' = (tasks w ++ l)%list /\
    active_connections w' = active_connections w /\
    device_to_connection w' = device_to_connection w /\
    next_uuid w' = next_uuid w /\ reads w' = reads w /\
    clock w' = clock w /\ faulty w' = faulty w /\ trace w' = trace w.
Proof.
  induction l as [|cid l IH]; intros w; simpl.
  { exists w. unfold ret. by rewrite app_nil_r. }
  unfold bind, create_task, modify.
  destruct (IH (set_tasks (fun q => (q ++ [cid])%list) w))
    as (w' & E & Ht & H).
  rewrite E. exists w'. split; [done|]. simpl in *.
  split; [by rewrite Ht, <- (assoc_L (++))|done].
Qed.

Lemma broadcast_each_spec m conns : forall n failed0 w,
  json_serializable (data m) = true ->
  exists w' n' tl (failed : list (nat * ConnectionInfo)),
    broadcast_each m conns n failed0 w =
      (w', Ok (n', (failed0 ++ failed.*1)%list)) /\
    active_connections w' = active_connections w /\
    device_to_connection w' = device_to_connection w /\
    next_uuid w' = next_uuid w /\ reads w' = reads w /\
    clock w' = clock w /\ faulty w' = faulty w /\ tasks w' = tasks w /\
    trace w' = (trace w ++ tl)%list /\
    sends tl = addressed m <$> conns.*2 /\
    n' = (n + length (delivered tl))%nat /\
    refused tl = addressed m <$> failed.*2 /\
    Forall (fun p => p ∈ conns) failed /\
    ((forall k, faulty w k = false) -> failed = [] /\ delivered tl = sends tl).
Proof.
  induction conns as [|[cid c] conns IH]; intros n failed0 w Hser; simpl.
  { exists w, n, [], []. unfold ret. rewrite !app_nil_r. simpl.
    repeat split; try done; lia. }
  unfold bind at 1. unfold try_except, bind, _send_message, to_json,
    try_except, bind, ws_send_text, extern, log, modify, ret, raise.
  simpl. rewrite Hser.
  destruct (faulty w (length (trace w))) eqn:Hf; simpl.
  - match goal with |- context [broadcast_each m conns n ?f ?w1] =>
      destruct (IH n f w1 Hser)
        as (w' & n' & tl & failed & E & Ha & Hd & Hn & Hr & Hck & Hfy & Htk &
            Htr & Hs & Hcnt & Hrf & Hall & _)
    end.
    rewrite E. eexists w', n', (_ :: _ :: _ :: tl), ((cid, c) :: failed).
    simpl in *. split; [by rewrite <- (assoc_L (++))|].
    repeat (split; [done|]).
    split. { rewrite Htr, <- !(assoc_L (++)). reflexivity. }
    split. { unfold sends in *. simpl. by rewrite Hs. }
    split. { unfold delivered in *. simpl. done. }
    split. { unfold refused in *. simpl. by rewrite Hrf. }
    split.
    { constructor; [apply list_elem_of_here|].
      eapply Forall_impl; [exact Hall|]. intros p Hp.
      by apply list_elem_of_further. }
    intros Hall'. rewrite Hall' in Hf. discriminate.
  - match goal with |- context [broadcast_each m conns (S n) ?f ?w1] =>
      destruct (IH (S n) f w1 Hser)
        as (w' & n' & tl & failed & E & Ha & Hd & Hn & Hr & Hck & Hfy & Htk &
            Htr & Hs & Hcnt & Hrf & Hall & Hh)
    end.
    rewrite E. eexists w', n', (_ :: tl), failed.
    simpl in *. split; [done|].
    repeat (split; [done|]).
    split. { rewrite Htr, <- !(assoc_L (++)). reflexivity. }
    split. { unfold sends in *. simpl. by rewrite Hs. }
    split. { unfold delivered in *. simpl. lia. }
    split. { unfold refused in *. simpl. done. }
    split.
    { eapply Forall_impl; [exact Hall|]. intros p Hp.
      by apply list_elem_of_further. }
    intros Hall'. destruct (Hh Hall') as [-> Hdl]. split; [done|].
    unfold delivered, sends in *. simpl. by rewrite Hdl.
Qed.

Lemma broadcast_system_message_full message mtype w :
  exists w' n tl (failed : list (nat * ConnectionInfo)),
    broadcast_system_message message mtype w = (w', Ok n) /\
    keeps_registry w w' /\
    trace w' = (trace w ++ tl)%list /\
    sends tl = addressed (broadcast_message message mtype w) <$> values w /\
    n = length (delivered tl) /\
    tasks w' = (tasks w ++ failed.*1)%list /\
    refused tl = addressed (broadcast_message message mtype w) <$> failed.*2 /\
    Forall (fun p => active_connections w !! p.1 = Some p.2) failed /\
    ((forall k, faulty w k = false) ->
     failed = [] /\ delivered tl = sends tl).
Proof.
  unfold broadcast_system_message, bind at 1. unfold uuid4. unfold bind at 1.
  unfold utcnow. unfold bind at 1. unfold gets. unfold bind at 1.
  set (w0 := set_reads _ _).
  destruct (broadcast_each_spec (broadcast_message message mtype w) (items w0)
              0%nat [] w0 eq_refl)
    as (w1 & n & tl & failed & E & Ha & Hd & Hn & Hr & Hck & Hfy & Htk &
        Htr & Hs & Hcnt & Hrf & Hall & Hh).
  change (broadcast_each _ (items w0) 0%nat [] w0)
    with (broadcast_each (broadcast_message message mtype w) (items w0)
            0%nat [] w0).
  rewrite E. simpl.
  destruct (create_tasks_spec failed.*1 w1)
    as (w2 & E2 & Htk2 & Ha2 & Hd2 & Hn2 & Hr2 & Hck2 & Hfy2 & Htr2).
  unfold bind at 1. rewrite E2. unfold log, modify, bind, ret. simpl.
  exists (emit (EvLog INFO "Broadcast message sent") w2), n,
    (tl ++ [EvLog INFO "Broadcast message sent"])%list, failed.
  split; [done|]. subst w0. simpl in *. split.
  { split; simpl; [congruence..|]. rewrite Hn2, Hn. lia. }
  split. { rewrite Htr2, Htr. by rewrite <- (assoc_L (++)). }
  rewrite sends_app, delivered_app, refused_app. simpl. rewrite !app_nil_r.
  split; [done|]. split; [done|]. split; [congruence|]. split; [done|].
  split; [|done].
  eapply Forall_impl; [exact Hall|]. intros [cid c] Hp. simpl.
  by apply elem_of_map_to_list in Hp.
Qed.

Lemma size_values w : size (active_connections w) = length (values w).
Proof. unfold values, items. by rewrite length_fmap, length_map_to_list. Qed.

Lemma sends_NoDup w m l :
  registry_ok w -> NoDup l -> (forall c, c ∈ l -> c ∈ values w) ->
  NoDup (addressed m <$> l).
Proof.
  intros Hok Hnd Hl. apply NoDup_fmap_2_strong; [|done].
  intros c1 c2 H1 H2. apply (addressed_inj w); auto.
Qed.

(** X15. [broadcast_system_message] never raises; it sends the envelope to
    every live session, once each, and returns the number of accepted sends,
    at most the number of sessions and equal to it when no transport call
    fails.  A session whose send was refused is scheduled for [disconnect]
    and unregistered once the event loop has run; the others stay. *)
Theorem broadcast_reaches_every_session message mtype w :
  registry_ok w ->
  exists w' n tl,
    broadcast_system_message message mtype w = (w', Ok n) /\
    trace w' = (trace w ++ tl)%list /\
    active_connections w' = active_connections w /\
    device_to_connection w' = device_to_connection w /\
    sends tl = addressed (broadcast_message message mtype w) <$> values w /\
    NoDup (sends tl) /\
    n = length (delivered tl) /\ (n <= size (active_connections w))%nat /\
    (forall cid s,
       active_connections w !! cid = Some s ->
       addressed (broadcast_message message mtype w) s ∈ sends tl /\
       (addressed (broadcast_message message mtype w) s ∈ refused tl ->
        cid ∈ tasks w' /\
        lookup_by_device (device_id s) (run_tasks w') = None) /\
       (addressed (broadcast_message message mtype w) s ∉ refused tl ->
        cid ∉ tasks w ->
        lookup_by_device (device_id s) (run_tasks w') = Some s)) /\
    ((forall k, faulty w k = false) ->
     n = size (active_connections w) /\ tasks w' = tasks w).
Proof.
  intros Hok.
  destruct (broadcast_system_message_full message mtype w)
    as (w' & n & tl & failed & E & Hk & Htr & Hs & Hn & Htk & Hrf & Hall & Hh).
  exists w', n, tl. split; [done|]. split; [done|].
  split; [apply Hk|]. split; [apply Hk|]. split; [done|].
  split. { rewrite Hs. apply (sends_NoDup w); [done|by apply values_NoDup|done]. }
  split; [done|]. split.
  { rewrite Hn, size_values. etrans; [apply delivered_le_sends|].
    by rewrite Hs, length_fmap. }
  split.
  - intros cid s Hl. split.
    { rewrite Hs. apply list_elem_of_fmap. exists s. split; [done|].
      apply elem_of_values. eauto. }
    destruct (teardown_after w w' failed cid s Hok Hk Htk Hl) as [H1 H2].
    rewrite Hrf, <- (failed_iff w _ failed cid s) by done.
    split; [intros H; by destruct (H1 H) as (? & _ & ?)|].
    intros H Ht. by destruct (H2 H Ht).
  - intros Hhe. destruct (Hh Hhe) as [-> Hd]. split.
    + by rewrite Hn, Hd, Hs, length_fmap, size_values.
    + rewrite Htk. simpl. by rewrite app_nil_r.
Qed.

(** X15 at a concrete world. *)
Lemma broadcast_reaches_every_session_witness :
  exists w' n,
    broadcast_system_message "maintenance at noon" "system_announcement"
      (w_connected healthy) = (w', Ok n) /\
    n = 1%nat /\ tasks w' = [].
Proof.
  destruct (broadcast_reaches_every_session "maintenance at noon"
              "system_announcement" (w_connected healthy))
    as (w' & n & tl & E & _ & _ & _ & _ & _ & _ & _ & _ & H).
  - apply connect_ok, init_ok.
  - exists w', n. split; [exact E|]. apply H. reflexivity.
Defined.

Lemma heartbeat_each_spec m conns : forall failed0 w,
  json_serializable (data m) = true ->
  exists w' tl (failed : list (nat * ConnectionInfo)),
    heartbeat_each m conns failed0 w = (w', Ok (failed0 ++ failed.*1)%list) /\
    active_connections w' = active_connections w /\
    device_to_connection w' = device_to_connection w /\
    next_uuid w' = next_uuid w /\ reads w' = reads w /\
    clock w' = clock w /\ faulty w' = faulty w /\ tasks w' = tasks w /\
    trace w' = (trace w ++ tl)%list /\
    sends tl = addressed m <$> conns.*2 /\
    refused tl = addressed m <$> failed.*2 /\
    Forall (fun p => p ∈ conns) failed /\
    ((forall k, faulty w k = false) -> failed = [] /\ delivered tl = sends tl).
Proof.
  induction conns as [|[cid c] conns IH]; intros failed0 w Hser; simpl.
  { exists w, [], []. unfold ret. rewrite !app_nil_r. simpl.
    repeat split; done. }
  unfold bind at 1. unfold try_except, bind, _send_message, to_json,
    try_except, bind, ws_send_text, extern, log, modify, ret, raise.
  simpl. rewrite Hser.
  destruct (faulty w (length (trace w))) eqn:Hf; simpl.
  - match goal with |- context [heartbeat_each m conns ?f ?w1] =>
      destruct (IH f w1 Hser)
        as (w' & tl & failed & E & Ha & Hd & Hn & Hr & Hck & Hfy & Htk &
            Htr & Hs & Hrf & Hall & _)
    end.
    rewrite E. eexists w', (_ :: _ :: _ :: tl), ((cid, c) :: failed).
    simpl in *. split; [by rewrite <- (assoc_L (++))|].
    repeat (split; [done|]).
    split. { rewrite Htr, <- !(assoc_L (++)). reflexivity. }
    split. { unfold sends in *. simpl. by rewrite Hs. }
    split. { unfold refused in *. simpl. by rewrite Hrf. }
    split.
    { constructor; [apply list_elem_of_here|].
      eapply Forall_impl; [exact Hall|]. intros p Hp.
      by apply list_elem_of_further. }
    intros Hall'. rewrite Hall' in Hf. discriminate.
  - match goal with |- context [heartbeat_each m conns ?f ?w1] =>
      destruct (IH f w1 Hser)
        as (w' & tl & failed & E & Ha & Hd & Hn & Hr & Hck & Hfy & Htk &
            Htr & Hs & Hrf & Hall & Hh)
    end.
    rewrite E. eexists w', (_ :: tl), failed.
    simpl in *. split; [done|].
    repeat (split; [done|]).
    split. { rewrite Htr, <- !(assoc_L (++)). reflexivity. }
    split. { unfold sends in *. simpl. by rewrite Hs. }
    split. { unfold refused in *. simpl. done. }
    split.
    { eapply Forall_impl; [exact Hall|]. intros p Hp.
      by apply list_elem_of_further. }
    intros Hall'. destruct (Hh Hall') as [-> Hdl]. split; [done|].
    unfold delivered, sends in *. simpl. by rewrite Hdl.
Qed.

Lemma heartbeat_iteration_full w :
  exists w' tl (failed : list (nat * ConnectionInfo)),
    heartbeat_iteration w = (w', Ok tt) /\
    keeps_registry w w' /\
    trace w' = (trace w ++ tl)%list /\
    sends tl = addressed (ping_message w) <$> values w /\
    tasks w' = (tasks w ++ failed.*1)%list /\
    refused tl = addressed (ping_message w) <$> failed.*2 /\
    Forall (fun p => active_connections w !! p.1 = Some p.2) failed /\
    ((forall k, faulty w k = false) ->
     failed = [] /\ delivered tl = sends tl).
Proof.
  unfold heartbeat_iteration, try_except, bind at 1. unfold uuid4.
  unfold bind at 1. unfold utcnow at 1. unfold bind at 1. unfold utcnow.
  unfold bind at 1. unfold gets. unfold bind at 1. simpl.
  match goal with |- context [heartbeat_each ?m (items ?w1) [] _] =>
    destruct (heartbeat_each_spec m (items w1) [] w1 eq_refl)
      as (w1' & tl & failed & E & Ha & Hd & Hn & Hr & Hck & Hfy & Htk &
          Htr & Hs & Hrf & Hall & Hh)
  end.
  rewrite E. simpl.
  destruct (create_tasks_spec failed.*1 w1')
    as (w2 & E2 & Htk2 & Ha2 & Hd2 & Hn2 & Hr2 & Hck2 & Hfy2 & Htr2).
  rewrite E2.
  exists w2, tl, failed.
  split; [done|]. simpl in *. split.
  { split; simpl; [congruence..|]. rewrite Hn2, Hn. lia. }
  split; [congruence|]. split; [done|]. split; [congruence|].
  split; [done|]. split; [|done].
  eapply Forall_impl; [exact Hall|]. intros [cid c] Hp. simpl.
  by apply elem_of_map_to_list in Hp.
Qed.

(** X16. A turn of the heartbeat loop never raises; it sends one
    [server_ping] envelope to every live session, schedules the [disconnect]
    of those whose send was refused, which are unregistered once the event
    loop has run, and leaves the others registered.  When no transport call
    fails it schedules nothing. *)
Theorem heartbeat_pings_every_session w :
  registry_ok w ->
  exists w' tl,
    heartbeat_iteration w = (w', Ok tt) /\
    trace w' = (trace w ++ tl)%list /\
    active_connections w' = active_connections w /\
    device_to_connection w' = device_to_connection w /\
    sends tl = addressed (ping_message w) <$> values w /\
    (forall cid s,
       active_connections w !! cid = Some s ->
       addressed (ping_message w) s ∈ sends tl /\
       (addressed (ping_message w) s ∈ refused tl ->
        cid ∈ tasks w' /\
        lookup_by_device (device_id s) (run_tasks w') = None) /\
       (addressed (ping_message w) s ∉ refused tl -> cid ∉ tasks w ->
        lookup_by_device (device_id s) (run_tasks w') = Some s)) /\
    ((forall k, faulty w k = false) -> tasks w' = tasks w).
Proof.
  intros Hok.
  destruct (heartbeat_iteration_full w)
    as (w' & tl & failed & E & Hk & Htr & Hs & Htk & Hrf & Hall & Hh).
  exists w', tl. split; [done|]. split; [done|].
  split; [apply Hk|]. split; [apply Hk|]. split; [done|].
  split.
  - intros cid s Hl. split.
    { rewrite Hs. apply list_elem_of_fmap. exists s. split; [done|].
      apply elem_of_values. eauto. }
    destruct (teardown_after w w' failed cid s Hok Hk Htk Hl) as [H1 H2].
    rewrite Hrf, <- (failed_iff w _ failed cid s) by done.
    split; [intros H; by destruct (H1 H) as (? & _ & ?)|].
    intros H Ht. by destruct (H2 H Ht).
  - intros Hhe. destruct (Hh Hhe) as [-> Hd].
    rewrite Htk. simpl. by rewrite app_nil_r.
Qed.

(** X16 at a concrete world. *)
Lemma heartbeat_pings_every_session_witness :
  let w := w_connected (fails_at 4) in
  exists w', heartbeat_iteration w = (w', Ok tt) /\
             lookup_by_device "D1" (run_tasks w') = None.
Proof.
  intros w.
  destruct (heartbeat_pings_every_session w)
    as (w' & tl & E & Htr & _ & _ & _ & H & _).
  - apply connect_ok, init_ok.
  - exists w'. split; [exact E|].
    destruct (H 0%nat (new_connection 7 "D1" None 0 0)) as (_ & H1 & _).
    + vm_compute; reflexivity.
    + apply H1.
      assert (tl = drop (length (trace w)) (trace w')) as ->.
      { by rewrite Htr, drop_app_length. }
      replace w' with (heartbeat_iteration w).1 by (rewrite E; reflexivity).
      vm_compute. apply list_elem_of_here.
Defined.

Lemma send_updates_full m targets : forall n w,
  json_serializable (data m) = true ->
  exists w' n' tl,
    send_updates m targets n w = (w', Ok n') /\
    active_connections w' = active_connections w /\
    device_to_connection w' = device_to_connection w /\
    next_uuid w' = next_uuid w /\ reads w' = reads w /\
    clock w' = clock w /\ faulty w' = faulty w /\ tasks w' = tasks w /\
    trace w' = (trace w ++ tl)%list /\
    sends tl = addressed m <$> targets /\
    n' = (n + length (delivered tl))%nat /\
    ((forall k, faulty w k = false) -> delivered tl = sends tl).
Proof.
  induction targets as [|c targets IH]; intros n w Hser; simpl.
  { exists w, n, []. unfold ret. rewrite !app_nil_r. simpl.
    repeat split; try done; lia. }
  unfold bind at 1. unfold try_except, bind, _send_message, to_json,
    try_except, bind, ws_send_text, extern, log, modify, ret, raise.
  simpl. rewrite Hser.
  destruct (faulty w (length (trace w))) eqn:Hf; simpl.
  - match goal with |- context [send_updates m targets n ?w1] =>
      destruct (IH n w1 Hser)
        as (w' & n' & tl & E & Ha & Hd & Hn & Hr & Hck & Hfy & Htk &
            Htr & Hs & Hcnt & _)
    end.
    rewrite E. eexists w', n', (_ :: _ :: _ :: tl).
    simpl in *. split; [done|]. repeat (split; [done|]).
    split. { rewrite Htr, <- !(assoc_L (++)). reflexivity. }
    split. { unfold sends in *. simpl. by rewrite Hs. }
    split. { unfold delivered in *. simpl. done. }
    intros Hall'. rewrite Hall' in Hf. discriminate.
  - match goal with |- context [send_updates m targets (S n) ?w1] =>
      destruct (IH (S n) w1 Hser)
        as (w' & n' & tl & E & Ha & Hd & Hn & Hr & Hck & Hfy & Htk &
            Htr & Hs & Hcnt & Hh)
    end.
    rewrite E. eexists w', n', (_ :: tl).
    simpl in *. split; [done|]. repeat (split; [done|]).
    split. { rewrite Htr, <- !(assoc_L (++)). reflexivity. }
    split. { unfold sends in *. simpl. by rewrite Hs. }
    split. { unfold delivered in *. simpl. lia. }
    intros Hall'. unfold delivered, sends in *. simpl. by rewrite (Hh Hall').
Qed.

Lemma elem_of_resolve_targets w ds c :
  c ∈ resolve_targets ds w <->
  exists d, d ∈ ds /\ lookup_by_device d w = Some c.
Proof. unfold resolve_targets. by rewrite list_elem_of_omap. Qed.

Lemma lookup_by_device_live w cid s :
  registry_ok w -> active_connections w !! cid = Some s ->
  lookup_by_device (device_id s) w = Some s.
Proof.
  intros Hok Hs. unfold lookup_by_device.
  by rewrite (ok_active _ Hok _ _ Hs).
Qed.

Lemma lookup_by_device_Some w d s :
  registry_ok w -> lookup_by_device d w = Some s ->
  device_id s = d /\ exists cid, active_connections w !! cid = Some s.
Proof.
  intros Hok. unfold lookup_by_device.
  destruct (device_to_connection w !! d) as [cid|] eqn:Hd; [|done].
  intros Hs. destruct (ok_device _ Hok _ _ Hd) as (c & Hc & <-).
  split; [congruence|eauto].
Qed.

(** X14. [send_security_update] never raises and returns the number of
    sends the transport accepted.  Without target devices every live session
    is sent the update, with target devices exactly the live sessions of
    those devices; no filter applies.  When no transport call fails the
    count is the number of selected connections. *)
Theorem security_update_is_unconditional update_data tds w :
  registry_ok w ->
  exists w' n tl,
    send_security_update update_data tds w = (w', Ok n) /\
    trace w' = (trace w ++ tl)%list /\
    sends tl = addressed (update_message update_data w)
                 <$> update_targets tds w /\
    n = length (delivered tl) /\
    (forall cid s,
       active_connections w !! cid = Some s ->
       (addressed (update_message update_data w) s ∈ sends tl <->
        match tds with
        | Some (d :: ds) => device_id s ∈ d :: ds
        | _ => True
        end)) /\
    ((forall k, faulty w k = false) ->
     n = length (update_targets tds w)).
Proof.
  intros Hok.
  unfold send_security_update, bind at 1. unfold uuid4. unfold bind at 1.
  unfold utcnow. unfold bind at 1. unfold gets. simpl.
  match goal with |- context [send_updates ?m ?t 0%nat ?w1] =>
    destruct (send_updates_full m t 0%nat w1 eq_refl)
      as (w' & n & tl & E & Ha & Hd & Hn & Hr & Hck & Hfy & Htk &
          Htr & Hs & Hcnt & Hh);
    change t with (update_targets tds w) in *;
    change m with (update_message update_data w) in *
  end.
  exists w', n, tl. split; [exact E|]. simpl in *.
  repeat (split; [done|]). split.
  - intros cid s Hl. rewrite Hs.
    assert (Hlive : s ∈ values w) by (apply elem_of_values; eauto).
    assert (Hin : forall l : list ConnectionInfo,
              (forall c, c ∈ l -> c ∈ values w) ->
              addressed (update_message update_data w) s
                ∈ addressed (update_message update_data w) <$> l <-> s ∈ l).
    { intros l Hl'. split.
      - intros H. apply list_elem_of_fmap in H as (c & Hc & Hin).
        assert (s = c) as ->; [|done].
        eapply (addressed_inj w); eauto.
      - intros H. apply list_elem_of_fmap. by exists s. }
    assert (Hres : forall ds, s ∈ resolve_targets ds w <-> device_id s ∈ ds).
    { intros ds. rewrite elem_of_resolve_targets. split.
      - intros (d & Hd' & Hlk).
        by destruct (lookup_by_device_Some _ _ _ Hok Hlk) as [-> _].
      - intros H. exists (device_id s). split; [done|].
        by eapply lookup_by_device_live. }
    assert (Hrl : forall ds c, c ∈ resolve_targets ds w -> c ∈ values w).
    { intros ds c H. apply elem_of_resolve_targets in H as (d & _ & Hlk).
      destruct (lookup_by_device_Some _ _ _ Hok Hlk) as [_ [cid' H']].
      apply elem_of_values. eauto. }
    destruct tds as [[|d ds]|]; simpl.
    + by rewrite Hin.
    + rewrite <- (Hres (d :: ds)). apply Hin. apply Hrl.
    + by rewrite Hin.
  - intros Hhe. by rewrite Hcnt, (Hh Hhe), Hs, length_fmap.
Qed.

(** X14 at a concrete world. *)
Lemma security_update_is_unconditional_witness :
  exists w' n,
    send_security_update [("version", "2")] None (w_connected healthy)
      = (w', Ok n) /\ n = 1%nat.
Proof.
  destruct (security_update_is_unconditional [("version", "2")] None
              (w_connected healthy))
    as (w' & n & tl & E & _ & _ & _ & _ & H).
  - apply connect_ok, init_ok.
  - exists w', n. split; [exact E|]. apply H. reflexivity.
Defined.

Lemma resolve_targets_iff w ds cid s :
  registry_ok w -> active_connections w !! cid = Some s ->
  s ∈ resolve_targets ds w <-> device_id s ∈ ds.
Proof.
  intros Hok Hs. rewrite elem_of_resolve_targets. split.
  - intros (d & Hd' & Hlk).
    by destruct (lookup_by_device_Some _ _ _ Hok Hlk) as [-> _].
  - intros H. exists (device_id s). split; [done|].
    by eapply lookup_by_device_live.
Qed.

(** X13. With a non-empty list of target devices, [send_threat_alert]
    selects a live session exactly when its device is in the list, whatever
    its subscriptions, threshold and regions say.  The selected sessions are
    sent nothing and are unregistered once the event loop has run; the
    sessions of devices not in the list are untouched, and when no listed
    device has a session nothing is scheduled. *)
Theorem targeted_alert_ignores_filters a d ds w cid s :
  registry_ok w ->
  active_connections w !! cid = Some s ->
  exists w' tl,
    send_threat_alert a (Some (d :: ds)) w = (w', Ok 0%nat) /\
    trace w' = (trace w ++ tl)%list /\
    sends tl = [] /\
    (s ∈ alert_targets a (Some (d :: ds)) w <-> device_id s ∈ d :: ds) /\
    (device_id s ∈ d :: ds ->
     cid ∈ tasks w' /\
     lookup_by_device (device_id s) (run_tasks w') = None) /\
    (device_id s ∉ d :: ds -> cid ∉ tasks w ->
     lookup_by_device (device_id s) (run_tasks w') = Some s) /\
    ((forall d', d' ∈ d :: ds -> lookup_by_device d' w = None) ->
     tasks w' = tasks w).
Proof.
  intros Hok Hs.
  destruct (alert_teardown a (Some (d :: ds)) w cid s Hok Hs)
    as (w' & tl & E & _ & Htr & Hsd & Hnil & Hin & Hout).
  exists w', tl. repeat (split; [done|]).
  assert (Hiff : s ∈ alert_targets a (Some (d :: ds)) w <->
                 device_id s ∈ d :: ds)
    by by eapply resolve_targets_iff.
  split; [done|]. rewrite <- Hiff. split; [|split].
  - intros H. by destruct (Hin H) as (? & _ & ?).
  - intros H Ht. by destruct (Hout H Ht) as (_ & _ & ?).
  - intros Hnone. apply Hnil.
    apply elem_of_nil_inv. intros c Hc.
    apply (elem_of_resolve_targets w (d :: ds)) in Hc as (d' & Hd' & Hlk).
    rewrite (Hnone d' Hd') in Hlk. discriminate.
Qed.

(** X13 at a session that is not eligible for the alert and is torn down
    all the same. *)
Lemma targeted_alert_ignores_filters_witness :
  let w := w_connected healthy in
  exists w' tl,
    send_threat_alert (phishing_alert LOW) (Some ["D1"]) w = (w', Ok 0%nat) /\
    sends tl = [] /\
    _should_receive_alert (new_connection 7 "D1" None 0 0) (phishing_alert LOW)
      = false /\
    lookup_by_device "D1" (run_tasks w') = None.
Proof.
  intros w.
  destruct (targeted_alert_ignores_filters (phishing_alert LOW) "D1" [] w
              0%nat (new_connection 7 "D1" None 0 0))
    as (w' & tl & E & _ & Hsd & _ & H & _).
  - apply connect_ok, init_ok.
  - vm_compute; reflexivity.
  - exists w', tl. split; [exact E|]. split; [exact Hsd|].
    split; [reflexivity|]. apply H. apply list_elem_of_here.
Defined.

(** ** Inbound frames in detail *)

Ltac run_frame Hc :=
  unfold handle_client_message, _handle_threat_report, set_of_threat_types,
    bind, gets, utcnow, uuid4, store_active, modify, _send_message, to_json,
    try_except, bind, ws_send_text, redis_lpush, extern, log, modify, ret,
    raise; simpl; rewrite Hc; simpl.

(** X7. A frame for an unregistered connection changes nothing and raises
    nothing.  A frame for a registered one, whatever it holds, leaves the
    session registered with its device, channel, connection time and
    regions, sets [last_ping] to the clock reading of the call, and leaves
    the device index and the scheduled tasks alone.  It can fail in two
    ways only: with the send error of the reply to a ping or a subscribe
    frame, or with the [TypeError] of [set(..)], which a subscribe or
    unsubscribe frame raises exactly when its [threat_types] is not an
    iterable of hashable items; in that case nothing but [last_ping] has
    changed and nothing was sent or logged. *)
Theorem frame_keeps_session cid (frame : MessageData) w w' r :
  handle_client_message cid frame w = (w', r) ->
  (active_connections w !! cid = None -> w' = w /\ r = Ok tt) /\
  (forall c,
     active_connections w !! cid = Some c ->
     exists c',
       active_connections w' = <[cid := c']> (active_connections w) /\
       device_id c' = device_id c /\ websocket c' = websocket c /\
       connected_at c' = connected_at c /\
       geographic_regions c' = geographic_regions c /\
       last_ping c' = clock w (reads w) /\
       device_to_connection w' = device_to_connection w /\
       tasks w' = tasks w /\
       (r = Ok tt \/
        r = Raise SendError /\
        (md_type frame = Some "ping" \/ md_type frame = Some "subscribe") \/
        r = Raise TypeError) /\
       (r = Raise TypeError <->
        (md_type frame = Some "subscribe" \/
         md_type frame = Some "unsubscribe") /\
        md_threat_types frame = Some Unusable) /\
       (r = Raise TypeError ->
        c' = set_last_ping (clock w (reads w)) c /\ trace w' = trace w)).
Proof.
  intros E. split.
  - intros Hc. revert E. unfold handle_client_message, bind, gets. simpl.
    rewrite Hc. by intros [= <- <-].
  - intros c Hc. revert E. run_frame Hc.
    repeat case_decide; try congruence; simpl;
      try destruct (md_threat_types frame) as [[l|]|]; simpl;
      repeat match goal with
             | |- context [faulty w ?n] => destruct (faulty w n); simpl
             end;
      intros [= <- <-]; simpl; rewrite ?insert_insert_eq;
      (eexists; split; [reflexivity|]);
      (split; [by destruct (md_risk_threshold frame)|]);
      (split; [by destruct (md_risk_threshold frame)|]);
      (split; [by destruct (md_risk_threshold frame)|]);
      (split; [by destruct (md_risk_threshold frame)|]);
      (split; [by destruct (md_risk_threshold frame)|]);
      (split; [done|]); (split; [done|]);
      (split; [auto|]);
      (split; [split; [try done; auto|intros [[?|?] ?]; congruence]|]);
      try done.
Qed.

(** X7 at a subscribe frame whose [threat_types] is [null]. *)
Lemma frame_keeps_session_witness :
  let w := w_connected healthy in
  let frame := {| md_type := Some "subscribe";
                  md_threat_types := Some Unusable;
                  md_risk_threshold := Some 10; md_data := None |} in
  (handle_client_message 0 frame w).2 = Raise TypeError /\
  trace (handle_client_message 0 frame w).1 = trace w /\
  active_connections (handle_client_message 0 frame w).1 !! 0%nat =
    Some (new_connection 7 "D1" None 0 0).
Proof.
  intros w frame.
  destruct (handle_client_message 0 frame w) as [w' r] eqn:E.
  destruct (frame_keeps_session 0 frame w w' r E) as [_ H].
  destruct (H (new_connection 7 "D1" None 0 0))
    as (c' & Ha & _ & _ & _ & _ & _ & _ & _ & _ & Hiff & Hte).
  - vm_compute; reflexivity.
  - assert (Hr : r = Raise TypeError).
    { apply Hiff. split; [by left|reflexivity]. }
    destruct (Hte Hr) as [-> Htr]. simpl.
    split; [exact Hr|]. split; [exact Htr|].
    rewrite Ha, lookup_insert_eq. reflexivity.
Defined.



(** X8. A ping frame is answered by exactly one send, a [pong] envelope
    addressed to the device on the channel of the session; subscriptions and
    threshold are unchanged, and the call raises exactly when that send is
    refused. *)
Theorem ping_gets_pong cid c frame w :
  active_connections w !! cid = Some c ->
  in_type frame = Some "ping" ->
  exists c' m ok tl,
    active_connections (handle_client_message cid frame w).1 !! cid = Some c' /\
    subscriptions c' = subscriptions c /\
    risk_threshold c' = risk_threshold c /\
    trace (handle_client_message cid frame w).1 =
      (trace w ++ EvSend (websocket c) m ok :: tl)%list /\
    sends tl = [] /\
    message_type m = "pong" /\
    msg_device_id m = Some (device_id c) /\
    (exists t, data m = DPong t) /\
    (handle_client_message cid frame w).2 =
      (if ok then Ok tt else Raise SendError).
Proof.
  intros Hc Ht. run_frame Hc. rewrite Ht.
  repeat case_decide; try congruence; simpl.
  destruct (faulty w (length (trace w))) eqn:Hf; simpl;
   rewrite ?lookup_insert_eq, <- ?(assoc_L (++)); simpl;
   [eexists _, _, false, _|eexists _, _, true, []];
   (split; [reflexivity|]); simpl; (split; [done|]); (split; [done|]);
   (split; [reflexivity|]); simpl; repeat (split; [done|]);
   (split; [by eexists|done]).
Qed.

(** X8 at a concrete world. *)
Lemma ping_gets_pong_witness :
  let w := w_connected healthy in
  let ping := {| in_type := Some "ping"; in_threat_types := None;
                 in_risk_threshold := None; in_data := None |} in
  exists m ok tl,
    trace (handle_client_message 0 ping w).1 =
      (trace w ++ EvSend 7 m ok :: tl)%list /\
    message_type m = "pong".
Proof.
  intros w ping.
  destruct (ping_gets_pong 0 (new_connection 7 "D1" None 0 0) ping w)
    as (c' & m & ok & tl & _ & _ & _ & Htr & _ & Hm & _).
  - vm_compute; reflexivity.
  - reflexivity.
  - exists m, ok, tl. split; [exact Htr|exact Hm].
Defined.

(** X10. A report frame never raises.  The report pushed on
    "threat_reports" carries the device of the session and the payload of
    the frame; when the push fails nothing is sent to the client, and when
    it succeeds the only send is a [report_acknowledged] envelope with the
    identifier of that very report. *)
Theorem report_threat_never_raises cid c frame w :
  active_connections w !! cid = Some c ->
  in_type frame = Some "report_threat" ->
  (handle_client_message cid frame w).2 = Ok tt /\
  exists rid ts stored tl,
    trace (handle_client_message cid frame w).1 =
      (trace w ++
       EvLpush "threat_reports"
         (ThreatReport rid (device_id c) (default [] (in_data frame)) ts)
         stored :: tl)%list /\
    (stored = false -> sends tl = []) /\
    (stored = true ->
     exists m ok tl',
       tl = EvSend (websocket c) m ok :: tl' /\
       message_type m = "report_acknowledged" /\
       msg_device_id m = Some (device_id c) /\
       data m = DReportAcknowledged rid /\
       sends tl' = []).
Proof.
  intros Hc Ht. run_frame Hc. rewrite Ht.
  repeat case_decide; try congruence; simpl.
  destruct (faulty w (length (trace w))) eqn:Hf; simpl.
  - split; [done|]. rewrite <- ?(assoc_L (++)). simpl.
    eexists _, _, false, _. split; [reflexivity|]. split; [done|]. done.
  - rewrite length_app. simpl.
    destruct (faulty w (length (trace w) + 1)%nat) eqn:Hf2; simpl;
      (split; [done|]); rewrite <- ?(assoc_L (++)); simpl;
      eexists _, _, true, _; (split; [reflexivity|]); (split; [done|]);
      intros _; eexists _, _, _; (split; [reflexivity|]); simpl; done.
Qed.

(** X10 at a concrete world. *)
Lemma report_threat_never_raises_witness :
  let w := w_connected (fails_at 4) in
  let report := {| in_type := Some "report_threat"; in_threat_types := None;
                   in_risk_threshold := None;
                   in_data := Some [("url", "http://bad.example")] |} in
  (handle_client_message 0 report w).2 = Ok tt.
Proof.
  intros w report.
  destruct (report_threat_never_raises 0 (new_connection 7 "D1" None 0 0)
              report w) as [H _].
  - vm_compute; reflexivity.
  - reflexivity.
  - exact H.
Defined.

(** X11. A frame that is neither ping, subscribe nor report_threat sends
    nothing.  An unsubscribe frame leaves no entry in the trace at all: it
    removes the given threat types from the subscriptions and returns, or,
    when its [threat_types] is not an iterable of hashable items, raises the
    [TypeError] of [set(..)] with the subscriptions as they were.  Any other
    frame (unknown or missing type) never raises; its only effects are a
    warning in the log and the new [last_ping]. *)
Theorem other_frames_send_nothing cid c (frame : MessageData) w :
  active_connections w !! cid = Some c ->
  md_type frame <> Some "ping" ->
  md_type frame <> Some "subscribe" ->
  md_type frame <> Some "report_threat" ->
  (exists tl,
     trace (handle_client_message cid frame w).1 = (trace w ++ tl)%list /\
     sends tl = []) /\
  (md_type frame = Some "unsubscribe" ->
   trace (handle_client_message cid frame w).1 = trace w /\
   match threat_types_set frame with
   | Some types =>
       (handle_client_message cid frame w).2 = Ok tt /\
       active_connections (handle_client_message cid frame w).1 =
         <[cid := set_subscriptions (subscriptions c ∖ types)
                    (set_last_ping (clock w (reads w)) c)]>
           (active_connections w)
   | None =>
       (handle_client_message cid frame w).2 = Raise TypeError /\
       active_connections (handle_client_message cid frame w).1 =
         <[cid := set_last_ping (clock w (reads w)) c]> (active_connections w)
   end) /\
  (md_type frame <> Some "unsubscribe" ->
   (handle_client_message cid frame w).2 = Ok tt /\
   trace (handle_client_message cid frame w).1 =
     (trace w ++ [EvLog WARNING "Unknown message type"])%list /\
   active_connections (handle_client_message cid frame w).1 =
     <[cid := set_last_ping (clock w (reads w)) c]> (active_connections w)).
Proof.
  intros Hc H1 H2 H3. unfold threat_types_set. run_frame Hc.
  repeat case_decide; try congruence; simpl.
  - destruct (md_threat_types frame) as [[l|]|]; simpl;
      rewrite ?insert_insert_eq;
      (split; [exists []; by rewrite app_nil_r|]); (split; [|done]);
      intros _; done.
  - split; [by eexists|]. split; [done|]. done.
Qed.

(** X11 at an unsubscribe frame whose [threat_types] is a number, and at a
    frame of unknown type. *)
Lemma other_frames_send_nothing_witness :
  let w := w_connected healthy in
  let bad := {| md_type := Some "unsubscribe";
                md_threat_types := Some Unusable;
                md_risk_threshold := None; md_data := None |} in
  let hello := {| md_type := Some "hello"; md_threat_types := None;
                  md_risk_threshold := Some 500; md_data := None |} in
  ((handle_client_message 0 bad w).2 = Raise TypeError /\
   trace (handle_client_message 0 bad w).1 = trace w) /\
  ((handle_client_message 0 hello w).2 = Ok tt /\
   trace (handle_client_message 0 hello w).1 =
     (trace w ++ [EvLog WARNING "Unknown message type"])%list).
Proof.
  intros w bad hello. split.
  - destruct (other_frames_send_nothing 0 (new_connection 7 "D1" None 0 0)
                bad w) as (_ & H & _).
    + vm_compute; reflexivity.
    + discriminate.
    + discriminate.
    + discriminate.
    + destruct (H eq_refl) as (Htr & Hr & _). split; [exact Hr|exact Htr].
  - destruct (other_frames_send_nothing 0 (new_connection 7 "D1" None 0 0)
                hello w) as (_ & _ & H).
    + vm_compute; reflexivity.
    + discriminate.
    + discriminate.
    + discriminate.
    + destruct (H ltac:(discriminate)) as (Hr & Htr & _).
      split; [exact Hr|exact Htr].
Defined.

(** ** Statistics *)

Lemma is_stale_iff now c : is_stale now c = true <-> stale_at now c.
Proof.
  unfold is_stale, stale_at, total_seconds.
  rewrite negb_true_iff, <- not_true_iff_false, Qle_bool_iff.
  unfold Qle. simpl. lia.
Qed.

Lemma count_one_lookup (l : list string) : forall (counts : gmap string nat) t,
  NoDup l ->
  foldl (fun counts' subscription =>
           <[subscription := S (default 0%nat (counts' !! subscription))]> counts')
        counts l !! t =
  if decide (t ∈ l) then Some (S (default 0%nat (counts !! t)))
  else counts !! t.
Proof.
  induction l as [|x l IH]; intros counts t Hnd; cbn [foldl].
  { destruct (decide (t ∈ [])) as [H|]; [by apply elem_of_nil in H|done]. }
  apply NoDup_cons in Hnd as [Hx Hnd]. rewrite IH by done.
  destruct (decide (t = x)) as [->|Hne].
  - rewrite decide_False by done.
    rewrite decide_True by apply list_elem_of_here.
    by rewrite lookup_insert_eq.
  - rewrite lookup_insert_ne by done.
    destruct (decide (t ∈ l)) as [Hin|Hin].
    + by rewrite decide_True by by apply list_elem_of_further.
    + rewrite decide_False; [done|].
      intros H. apply elem_of_cons in H as [?|?]; done.
Qed.

Lemma count_subscriptions_lookup conns : forall (acc : gmap string nat) t,
  foldl (fun counts c =>
           foldl (fun counts' subscription =>
                    <[subscription :=
                        S (default 0%nat (counts' !! subscription))]> counts')
                 counts (elements (subscriptions c)))
        acc conns !! t =
  match subscribers t conns with
  | O => acc !! t
  | S n => Some (default 0%nat (acc !! t) + S n)%nat
  end.
Proof.
  induction conns as [|c conns IH]; intros acc t; [done|].
  cbn [foldl]. rewrite IH, count_one_lookup by apply NoDup_elements.
  unfold subscribers. rewrite filter_cons.
  destruct (decide (t ∈ subscriptions c)) as [Hin|Hin].
  - rewrite decide_True by by apply elem_of_elements.
    cbn [length]. simpl.
    destruct (length (filter _ conns)); simpl; f_equal; lia.
  - rewrite decide_False by by rewrite elem_of_elements.
    done.
Qed.

(** X18. [get_connection_stats] changes neither the indexes, nor the trace,
    nor the tasks.  It reports the number of live sessions, the number of
    those whose last frame is more than 300 seconds old, never more than the
    total, and for each threat type the number of sessions subscribed to it,
    with no entry for a type nobody subscribes to. *)
Theorem stats_count_the_registry w :
  exists st,
    (get_connection_stats w).2 = Ok st /\
    active_connections (get_connection_stats w).1 = active_connections w /\
    device_to_connection (get_connection_stats w).1 = device_to_connection w /\
    trace (get_connection_stats w).1 = trace w /\
    tasks (get_connection_stats w).1 = tasks w /\
    total_connections st = size (active_connections w) /\
    stale_connections st =
      length (filter (stale_at (clock w (reads w))) (values w)) /\
    (stale_connections st <= total_connections st)%nat /\
    forall t,
      subscription_counts st !! t =
      match subscribers t (values w) with
      | O => None
      | S n => Some (S n)
      end.
Proof.
  eexists. split; [reflexivity|]. simpl. repeat (split; [done|]).
  assert (Hst : length (filter (fun c => is_stale (clock w (reads w)) c = true)
                           (values w)) =
                length (filter (stale_at (clock w (reads w))) (values w))).
  { f_equal. apply list_filter_iff. intros c. apply is_stale_iff. }
  split; [exact Hst|]. split.
  { rewrite size_values. unfold values, items. simpl. apply length_filter. }
  intros t. unfold count_subscriptions.
  rewrite count_subscriptions_lookup, lookup_empty. unfold values, items. simpl.
  by destruct (subscribers t _).
Qed.

(** ** The reaper *)

Lemma disconnect_healthy cid w :
  (forall k, faulty w k = false) -> (disconnect cid w).2 = Ok tt.
Proof.
  intros Hh. destruct (active_connections w !! cid) as [c|] eqn:Hc.
  - revert Hc. run. intros Hc. rewrite Hc, !Hh. simpl. rewrite Hc. simpl.
    destruct (device_to_connection w !! device_id c); simpl;
      by rewrite Hh.
  - by rewrite (disconnect_absent _ _ Hc).
Qed.

Lemma disconnect_closes cid c w :
  active_connections w !! cid = Some c ->
  exists ok, EvClose (websocket c) ok ∈ trace (disconnect cid w).1.
Proof.
  intros Hc. destruct (disconnect_present _ _ _ Hc) as (tl & r & E & (tl' & ->) & _).
  rewrite E. simpl. eexists. apply elem_of_app. right. apply list_elem_of_here.
Qed.

Lemma disconnect_delete_failed cid w tl :
  (disconnect cid w).2 = Raise RedisError ->
  trace (disconnect cid w).1 = (trace w ++ tl)%list ->
  EvDelete cid false ∈ tl.
Proof.
  destruct (active_connections w !! cid) as [c|] eqn:Hc.
  - destruct (disconnect_present _ _ _ Hc) as (tl0 & r & E & _ & Hr).
    rewrite E. simpl. intros -> Htl. apply app_inv_head in Htl as <-.
    destruct Hr as [[? _]|[_ Hl]]; [done|].
    apply last_Some in Hl as [l' ->].
    apply elem_of_app. right. apply list_elem_of_here.
  - by rewrite (disconnect_absent _ _ Hc).
Qed.

Lemma disconnect_stale_spec ids : forall w w' r,
  registry_ok w ->
  disconnect_stale ids w = (w', r) ->
  registry_ok w' /\
  tasks w' = tasks w /\ next_uuid w' = next_uuid w /\ reads w' = reads w /\
  clock w' = clock w /\ faulty w' = faulty w /\
  (exists tl, trace w' = (trace w ++ tl)%list /\ sends tl = [] /\
     (r = Raise RedisError -> exists k, EvDelete k false ∈ tl)) /\
  (forall cid, cid ∉ ids ->
     active_connections w' !! cid = active_connections w !! cid) /\
  (forall cid s, active_connections w' !! cid = Some s ->
     active_connections w !! cid = Some s) /\
  (r = Ok tt \/ r = Raise RedisError) /\
  (r = Ok tt ->
   forall cid, cid ∈ ids -> active_connections w' !! cid = None) /\
  ((forall k, faulty w k = false) -> r = Ok tt) /\
  (forall cid s, active_connections w !! cid = Some s ->
     active_connections w' !! cid = None ->
     exists ok, EvClose (websocket s) ok ∈ trace w').
Proof.
  induction ids as [|cid0 ids IH]; intros w w' r Hok; cbn [disconnect_stale].
  { unfold ret. intros [= <- <-]. repeat (split; [done|]).
    split. { exists []. by rewrite app_nil_r. }
    split; [done|]. split; [done|]. split; [by left|].
    split. { intros _ cid H. by apply elem_of_nil in H. }
    split; [done|]. intros cid s H1 H2. congruence. }
  unfold bind at 1. unfold log, modify. cbn beta iota.
  set (w0 := emit _ w).
  assert (Hok0 : registry_ok w0) by by eapply registry_ok_same; [..|exact Hok].
  unfold bind at 1.
  pose proof (disconnect_ok cid0 w0 Hok0) as Hok1.
  pose proof (disconnect_env cid0 w0) as (E1 & E2 & E3 & E4 & E5 & tl1 & E6 & E7).
  pose proof (disconnect_lookup cid0 w0) as Hlk.
  pose proof (disconnect_healthy cid0 w0) as Hhe.
  pose proof (disconnect_delete_failed cid0 w0 tl1) as Hdel.
  assert (Hclose : forall c, active_connections w0 !! cid0 = Some c ->
            exists ok, EvClose (websocket c) ok ∈ trace (disconnect cid0 w0).1)
    by (intros c; apply disconnect_closes).
  assert (Hr1 : (disconnect cid0 w0).2 = Ok tt \/
                (disconnect cid0 w0).2 = Raise RedisError).
  { destruct (active_connections w0 !! cid0) as [c|] eqn:Hc.
    - destruct (disconnect_present _ _ _ Hc) as (tl & r0 & E & _ & Hr).
      rewrite E. simpl. destruct Hr as [[-> _]|[-> _]]; auto.
    - rewrite (disconnect_absent _ _ Hc). auto. }
  destruct (disconnect cid0 w0) as [w1 r1]. simpl in *.
  assert (Hcl : forall cid s, active_connections w !! cid = Some s ->
            active_connections w1 !! cid = None ->
            exists ok, EvClose (websocket s) ok ∈ trace w1).
  { intros cid s H1 H2. rewrite Hlk in H2.
    destruct (decide (cid = cid0)) as [->|]; [|congruence].
    by apply Hclose. }
  destruct r1 as [[]|e].
  - intros E2'.
    destruct (IH w1 w' r Hok1 E2')
      as (I0 & I1 & I2 & I3 & I4 & I5 & (tl2 & I6 & I7 & I7') & I8 & I9 & I10 & I11 & I12 & I13).
    split; [done|]. repeat (split; [congruence|]).
    split.
    { exists (EvLog INFO "Cleaning up stale connection" :: tl1 ++ tl2)%list.
      split; [|split].
      - rewrite I6, E6. by rewrite <- !(assoc_L (++)).
      - unfold sends in *. simpl. by rewrite omap_app, E7, I7.
      - intros Hr. destruct (I7' Hr) as [k Hk]. exists k.
        apply list_elem_of_further, elem_of_app. by right. }
    split.
    { intros cid Hn. rewrite I8, Hlk.
      - rewrite decide_False; [done|]. intros ->. apply Hn, list_elem_of_here.
      - intros H. by apply Hn, list_elem_of_further. }
    split.
    { intros cid s H. apply I9 in H. rewrite Hlk in H.
      by destruct (decide (cid = cid0)). }
    split; [done|]. split.
    { intros Hr cid Hin. apply elem_of_cons in Hin as [->|Hin]; [|by apply I11].
      destruct (active_connections w' !! cid0) as [s|] eqn:Hs; [|done].
      apply I9 in Hs. rewrite Hlk in Hs. by rewrite decide_True in Hs. }
    split.
    { intros Hh. apply I12. intros k. rewrite E5. apply Hh. }
    intros cid s H1 H2.
    destruct (active_connections w1 !! cid) as [s1|] eqn:Hs1.
    + apply (I13 cid s); [|done]. rewrite Hlk in Hs1 |- *.
      destruct (decide (cid = cid0)); congruence.
    + destruct (Hcl cid s H1 Hs1) as [ok Hin]. exists ok.
      rewrite I6. apply elem_of_app. by left.
  - intros [= <- <-].
    split; [done|]. repeat (split; [congruence|]).
    split.
    { exists (EvLog INFO "Cleaning up stale connection" :: tl1)%list.
      split; [by rewrite E6, <- (assoc_L (++))|].
      split; [unfold sends in *; simpl; done|].
      intros [= ->]. exists cid0.
      apply list_elem_of_further, Hdel; done. }
    split.
    { intros cid Hn. rewrite Hlk. rewrite decide_False; [done|].
      intros ->. apply Hn, list_elem_of_here. }
    split.
    { intros cid s H. rewrite Hlk in H. by destruct (decide (cid = cid0)). }
    split. { right. destruct Hr1 as [?|?]; congruence. }
    split; [done|]. split.
    { intros Hh. by apply Hhe. }
    exact Hcl.
Qed.

Lemma elem_of_stale_ids now w cid :
  cid ∈ stale_ids now w <->
  exists s, active_connections w !! cid = Some s /\ stale_at now s.
Proof.
  unfold stale_ids, items. rewrite list_elem_of_fmap. split.
  - intros ([cid' s] & -> & H). apply list_elem_of_filter in H as [Hst H].
    exists s. split; [by apply elem_of_map_to_list in H|by apply is_stale_iff].
  - intros (s & Hs & Hst). exists (cid, s). split; [done|].
    apply list_elem_of_filter. split; [by apply is_stale_iff|].
    by apply elem_of_map_to_list.
Qed.

Lemma lookup_by_device_gone w w' cid s :
  registry_ok w -> registry_ok w' ->
  (forall cid' s', active_connections w' !! cid' = Some s' ->
     active_connections w !! cid' = Some s') ->
  active_connections w !! cid = Some s ->
  active_connections w' !! cid = None ->
  lookup_by_device (device_id s) w' = None.
Proof.
  intros Hok Hok' Hsub Hs Hg. unfold lookup_by_device.
  destruct (device_to_connection w' !! device_id s) as [cid'|] eqn:Hd; [|done].
  destruct (ok_device _ Hok' _ _ Hd) as (c' & Hc' & Hdev).
  pose proof (Hsub _ _ Hc') as Hc.
  assert (cid' = cid) as ->
    by exact (registry_ok_unique w cid' cid c' s Hok Hc Hs Hdev).
  congruence.
Qed.

Lemma cleanup_iteration_spec w :
  registry_ok w ->
  exists w' tl,
    cleanup_iteration w = (w', Ok tt) /\
    registry_ok w' /\ tasks w' = tasks w /\
    trace w' = (trace w ++ tl)%list /\ sends tl = [] /\
    (forall cid s, active_connections w' !! cid = Some s ->
       active_connections w !! cid = Some s) /\
    (forall cid s,
       active_connections w !! cid = Some s ->
       ~ stale_at (clock w (reads w)) s ->
       active_connections w' !! cid = Some s /\
       lookup_by_device (device_id s) w' = Some s) /\
    (forall cid s,
       active_connections w !! cid = Some s ->
       active_connections w' !! cid = None ->
       stale_at (clock w (reads w)) s /\
       lookup_by_device (device_id s) w' = None /\
       exists ok, EvClose (websocket s) ok ∈ trace w') /\
    ((forall k, EvDelete k false ∉ tl) ->
     forall cid s,
       active_connections w !! cid = Some s ->
       stale_at (clock w (reads w)) s ->
       active_connections w' !! cid = None) /\
    ((forall cid s, active_connections w !! cid = Some s ->
        ~ stale_at (clock w (reads w)) s) ->
     active_connections w' = active_connections w /\
     device_to_connection w' = device_to_connection w /\
     trace w' = trace w).
Proof.
  intros Hok. unfold cleanup_iteration, try_except, bind at 1. unfold utcnow.
  unfold bind at 1. unfold gets. cbn beta iota.
  set (now := clock w (reads w)). set (w0 := set_reads _ w).
  assert (Hok0 : registry_ok w0) by by eapply registry_ok_same; [..|exact Hok].
  change (stale_ids now w0) with (stale_ids now w).
  destruct (disconnect_stale (stale_ids now w) w0) as [w1 r1] eqn:E.
  destruct (disconnect_stale_spec _ _ _ _ Hok0 E)
    as (Hok1 & I1 & I2 & I3 & I4 & I5 & (tl & I6 & I7 & I7') & I8 & I9 & I10 &
        I11 & I12 & I13).
  simpl in *.
  assert (Hmain : forall w' tl',
    active_connections w' = active_connections w1 ->
    device_to_connection w' = device_to_connection w1 ->
    tasks w' = tasks w1 -> next_uuid w' = next_uuid w1 ->
    trace w' = (trace w1 ++ tl')%list -> sends tl' = [] ->
    (r1 = Ok tt -> w' = w1) ->
    registry_ok w' /\ tasks w' = tasks w /\
    trace w' = (trace w ++ (tl ++ tl'))%list /\ sends (tl ++ tl') = [] /\
    (forall cid s, active_connections w' !! cid = Some s ->
       active_connections w !! cid = Some s) /\
    (forall cid s,
       active_connections w !! cid = Some s -> ~ stale_at now s ->
       active_connections w' !! cid = Some s /\
       lookup_by_device (device_id s) w' = Some s) /\
    (forall cid s,
       active_connections w !! cid = Some s ->
       active_connections w' !! cid = None ->
       stale_at now s /\
       lookup_by_device (device_id s) w' = None /\
       exists ok, EvClose (websocket s) ok ∈ trace w') /\
    ((forall k, EvDelete k false ∉ (tl ++ tl')%list) ->
     forall cid s,
       active_connections w !! cid = Some s -> stale_at now s ->
       active_connections w' !! cid = None) /\
    ((forall cid s, active_connections w !! cid = Some s -> ~ stale_at now s) ->
     active_connections w' = active_connections w /\
     device_to_connection w' = device_to_connection w /\
     trace w' = trace w)).
  { intros w' tl' Ha Hd Htk Hn Htr Hs' Hsame.
    assert (Hok' : registry_ok w').
    { eapply registry_ok_same; [exact Ha|exact Hd|lia|exact Hok1]. }
    assert (Hkeep : forall cid s, active_connections w !! cid = Some s ->
              ~ stale_at now s -> active_connections w' !! cid = Some s).
    { intros cid s Hs Hns. rewrite Ha, I8; [done|].
      intros Hin. apply elem_of_stale_ids in Hin as (s' & Hs1 & Hst).
      congruence. }
    split; [done|]. split; [congruence|].
    split. { by rewrite Htr, I6, <- (assoc_L (++)). }
    split. { by rewrite sends_app, I7, Hs'. }
    split. { intros cid s H. rewrite Ha in H. by apply I9. }
    split.
    { intros cid s Hs Hns. split; [by apply Hkeep|].
      eapply lookup_by_device_live; [done|by apply Hkeep]. }
    split.
    { intros cid s Hs Hg. split.
      - destruct (decide (stale_at now s)) as [|Hns]; [done|].
        rewrite (Hkeep _ _ Hs Hns) in Hg. discriminate.
      - split.
        + apply (lookup_by_device_gone w w' cid s); try done.
          intros cid' s' H. rewrite Ha in H. by apply I9.
        + rewrite Ha in Hg. destruct (I13 _ _ Hs Hg) as [ok Hin].
          exists ok. rewrite Htr. apply elem_of_app. by left. }
    split.
    { intros Hstore cid s Hs Hst. rewrite Ha.
      assert (Hr : r1 = Ok tt).
      { destruct I10 as [?|Hr]; [done|].
        destruct (I7' Hr) as [k Hk]. destruct (Hstore k).
        apply elem_of_app. by left. }
      apply (I11 Hr). apply elem_of_stale_ids. eauto. }
    intros Hnone.
    assert (Hnil : stale_ids now w = []).
    { apply elem_of_nil_inv. intros cid Hin.
      apply elem_of_stale_ids in Hin as (s & Hs & Hst).
      by apply (Hnone _ _ Hs). }
    rewrite Hnil in E. cbn [disconnect_stale] in E. unfold ret in E.
    inversion E; subst w1 r1. rewrite (Hsame eq_refl). done. }
  destruct r1 as [[]|e].
  - exists w1, (tl ++ [])%list. split; [done|]. apply Hmain; try done.
    by rewrite app_nil_r.
  - unfold log, modify. eexists _, (tl ++ [_])%list. split; [reflexivity|].
    apply Hmain; try done.
Qed.

(** X17. A turn of the cleanup loop never raises, sends nothing and keeps
    the indexes consistent.  It only removes sessions whose last frame is
    more than 300 seconds old at the clock reading of the turn (exactly 300
    seconds is kept), closing their channels; every other session stays
    registered, whatever fails.  When no [delete] on the store fails during
    the turn it removes all stale sessions, also those whose channel raises
    on [close]; and when no session is stale it changes neither the indexes
    nor the trace, so a second turn at the same time is a no-op. *)
Theorem reaper_removes_only_stale w :
  registry_ok w ->
  exists w' tl,
    cleanup_iteration w = (w', Ok tt) /\
    registry_ok w' /\ tasks w' = tasks w /\
    trace w' = (trace w ++ tl)%list /\ sends tl = [] /\
    (forall cid s, active_connections w' !! cid = Some s ->
       active_connections w !! cid = Some s) /\
    (forall cid s,
       active_connections w !! cid = Some s ->
       ~ stale_at (clock w (reads w)) s ->
       active_connections w' !! cid = Some s /\
       lookup_by_device (device_id s) w' = Some s) /\
    (forall cid s,
       active_connections w !! cid = Some s ->
       active_connections w' !! cid = None ->
       stale_at (clock w (reads w)) s /\
       lookup_by_device (device_id s) w' = None /\
       exists ok, EvClose (websocket s) ok ∈ trace w') /\
    ((forall k, EvDelete k false ∉ tl) ->
     forall cid s,
       active_connections w !! cid = Some s ->
       stale_at (clock w (reads w)) s ->
       active_connections w' !! cid = None) /\
    ((forall cid s, active_connections w !! cid = Some s ->
        ~ stale_at (clock w (reads w)) s) ->
     active_connections w' = active_connections w /\
     device_to_connection w' = device_to_connection w /\
     trace w' = trace w).
Proof. apply cleanup_iteration_spec. Qed.

(** X17 at a stale session whose channel raises on [close] while the store
    works: the session is removed. *)
Lemma reaper_removes_only_stale_witness :
  exists w' (tl : list event),
    cleanup_iteration w_stale = (w', Ok tt) /\
    EvClose 7 false ∈ tl /\
    lookup_by_device "D1" w' = None.
Proof.
  assert (Hok : registry_ok w_stale).
  { split; unfold w_stale; simpl.
    - intros d cid H. apply lookup_singleton_Some in H as [<- <-].
      eexists. by rewrite lookup_singleton_eq.
    - intros cid s H. apply lookup_singleton_Some in H as [<- <-].
      by rewrite lookup_singleton_eq.
    - intros cid [s H]. apply lookup_singleton_Some in H as [<- _]. lia. }
  destruct (reaper_removes_only_stale w_stale Hok)
    as (w' & tl & E & _ & _ & Htr & _ & _ & _ & Hgone & Hall & _).
  assert (Htl : tl = drop (length (trace w_stale)) (trace w')).
  { by rewrite Htr, drop_app_length. }
  assert (Hw' : w' = (cleanup_iteration w_stale).1) by by rewrite E.
  exists w', tl. split; [exact E|]. split.
  { rewrite Htl, Hw'. vm_compute.
    apply list_elem_of_further, list_elem_of_here. }
  assert (Hg : active_connections w' !! 0%nat = None).
  { apply (Hall ltac:(rewrite Htl, Hw'; vm_compute;
                      intros k H; repeat (apply elem_of_cons in H as [H|H];
                                          [discriminate|]);
                      by apply elem_of_nil in H)
                0%nat (new_connection 7 "D1" None 0 0)).
    - vm_compute; reflexivity.
    - vm_compute. reflexivity. }
  destruct (Hgone 0%nat (new_connection 7 "D1" None 0 0)) as (_ & H & _).
  - vm_compute; reflexivity.
  - exact Hg.
  - exact H.
Defined.

(** ** Teardown of one session, by id and by device *)

(** X4. [disconnect] of a registered session unregisters that session and
    no other: afterwards its device resolves to nothing, every other session
    is still live and resolvable, nothing was sent on any channel and no
    task was scheduled. *)
Theorem disconnect_touches_one_session cid c w :
  registry_ok w ->
  active_connections w !! cid = Some c ->
  registry_ok (disconnect cid w).1 /\
  lookup_by_device (device_id c) (disconnect cid w).1 = None /\
  (forall cid' s,
     cid' <> cid -> active_connections w !! cid' = Some s ->
     active_connections (disconnect cid w).1 !! cid' = Some s /\
     lookup_by_device (device_id s) (disconnect cid w).1 = Some s) /\
  (exists tl, trace (disconnect cid w).1 = (trace w ++ tl)%list /\
              sends tl = []) /\
  tasks (disconnect cid w).1 = tasks w.
Proof.
  intros Hok Hc.
  pose proof (disconnect_ok cid w Hok) as Hok'.
  pose proof (disconnect_lookup cid w) as Hlk.
  destruct (disconnect_env cid w) as (Htk & _ & _ & _ & _ & Htr).
  split; [done|]. split.
  { apply (lookup_by_device_gone w _ cid c); try done.
    - intros cid' s' H. rewrite Hlk in H. by destruct (decide (cid' = cid)).
    - by rewrite Hlk, decide_True. }
  split; [|done].
  intros cid' s Hne Hs.
  assert (Hs' : active_connections (disconnect cid w).1 !! cid' = Some s).
  { by rewrite Hlk, decide_False. }
  split; [done|]. by eapply lookup_by_device_live.
Qed.

(** X4 at a concrete world. *)
Lemma disconnect_touches_one_session_witness :
  lookup_by_device "D1" (disconnect 0 (w_connected healthy)).1 = None.
Proof.
  destruct (disconnect_touches_one_session 0
              (new_connection 7 "D1" None 0 0) (w_connected healthy))
    as (_ & H & _).
  - apply connect_ok, init_ok.
  - vm_compute; reflexivity.
  - exact H.
Defined.

Lemma disconnect_device_ok d w :
  registry_ok w -> registry_ok (disconnect_device d w).1.
Proof.
  intros Hok. unfold disconnect_device, bind, gets. simpl.
  destruct (device_to_connection w !! d); [by apply disconnect_ok|done].
Qed.

(** X5. [disconnect_device] does nothing at all for a device without a
    session; for a device with one it is [disconnect] of that session, whose
    channel gets closed; either way the device resolves to nothing
    afterwards, and the sessions of all other devices stay resolvable. *)
Theorem disconnect_device_unregisters d w :
  registry_ok w ->
  (lookup_by_device d w = None -> disconnect_device d w = (w, Ok tt)) /\
  (forall s, lookup_by_device d w = Some s ->
     exists cid, active_connections w !! cid = Some s /\
                 disconnect_device d w = disconnect cid w /\
                 exists ok, EvClose (websocket s) ok
                              ∈ trace (disconnect_device d w).1) /\
  lookup_by_device d (disconnect_device d w).1 = None /\
  (forall cid s,
     active_connections w !! cid = Some s -> device_id s <> d ->
     lookup_by_device (device_id s) (disconnect_device d w).1 = Some s).
Proof.
  intros Hok. unfold disconnect_device, bind, gets. simpl.
  unfold lookup_by_device at 1 2.
  destruct (device_to_connection w !! d) as [cid|] eqn:Hd.
  - destruct (ok_device _ Hok _ _ Hd) as (c & Hc & Hdev). rewrite Hc.
    split; [done|]. split.
    { intros s [= <-]. exists cid. split; [done|]. split; [done|].
      by apply disconnect_closes. }
    pose proof (disconnect_ok cid w Hok) as Hok'.
    pose proof (disconnect_lookup cid w) as Hlk.
    split.
    + rewrite <- Hdev. apply (lookup_by_device_gone w _ cid c); try done.
      * intros cid' s' H. rewrite Hlk in H. by destruct (decide (cid' = cid)).
      * by rewrite Hlk, decide_True.
    + intros cid' s Hs Hne. eapply lookup_by_device_live; [done|].
      rewrite Hlk, decide_False; [done|]. intros ->. congruence.
  - split; [done|]. split; [done|]. unfold ret. simpl.
    split; [unfold lookup_by_device; by rewrite Hd|].
    intros cid s Hs _. by eapply lookup_by_device_live.
Qed.

(** X5 at a concrete world. *)
Lemma disconnect_device_unregisters_witness :
  lookup_by_device "D1" (disconnect_device "D1" (w_connected healthy)).1 = None
  /\ disconnect_device "D2" (w_connected healthy) = (w_connected healthy, Ok tt).
Proof.
  split.
  - destruct (disconnect_device_unregisters "D1" (w_connected healthy))
      as (_ & _ & H & _); [apply connect_ok, init_ok|exact H].
  - destruct (disconnect_device_unregisters "D2" (w_connected healthy))
      as (H & _); [apply connect_ok, init_ok|].
    apply H. vm_compute; reflexivity.
Defined.

(** ** What a failed [connect] leaves behind *)

Lemma connect_outcomes ws d subs w w' r :
  registry_ok w -> connect ws d subs w = (w', r) ->
  (r = Ok (next_uuid w) \/ r = Raise AcceptError \/
   r = Raise SendError \/ r = Raise RedisError) /\
  (r = Raise AcceptError ->
   active_connections w' = active_connections w /\
   device_to_connection w' = device_to_connection w /\
   trace w' = (trace w ++ [EvAccept ws false])%list) /\
  (r = Raise SendError ->
   exists tc tp,
     lookup_by_device d w' = Some (new_connection ws d subs tc tp)) /\
  (forall cid s,
     active_connections w !! cid = Some s -> device_id s <> d ->
     active_connections w' !! cid = Some s /\
     lookup_by_device (device_id s) w' = Some s).
Proof.
  intros Hok. rewrite connect_phases. unfold bind.
  destruct (connect_teardown ws d w) as [wm rt] eqn:Et.
  destruct (connect_teardown_spec _ _ _ _ _ Hok Et)
    as (Hokm & Hn & _ & _ & _ & _ & tl1 & Htr & Hcase).
  destruct Hcase as [(-> & -> & Ea & Ed)|(_ & Hrt & Hdm & _ & Hsub & Hkeep)].
  { intros [= <- <-]. split; [auto|]. split; [by rewrite Ea, Ed|].
    split; [done|]. intros cid s Hs Hne. split; [by rewrite Ea|].
    unfold lookup_by_device. rewrite Ed, Ea.
    by apply (lookup_by_device_live w cid s). }
  destruct Hrt as [->|[-> _]].
  2:{ intros [= <- <-]. split; [auto|]. split; [done|]. split; [done|].
      intros cid s Hs Hne. pose proof (Hkeep _ _ Hs Hne) as Hs'.
      split; [done|]. by eapply lookup_by_device_live. }
  intros Es.
  assert (Hfr : active_connections wm !! next_uuid w = None).
  { destruct (active_connections wm !! next_uuid w) eqn:E; [|done].
    apply Hsub in E. assert (next_uuid w < next_uuid w)%nat; [|lia].
    apply (ok_fresh _ Hok). eauto. }
  destruct (connect_store_spec _ _ _ _ _ _ _ Hokm Hdm Hfr ltac:(lia) Es)
    as (Hok' & (tc & tp & Ea) & Ed & _ & _ & _ & _ & m & ok & tl2 & _ & _ & _ & _ & Hr).
  split. { destruct Hr as [(-> & _)|[(-> & _)|(-> & _)]]; auto. }
  split. { intros ->. destruct Hr as [(? & _)|[(? & _)|(? & _)]]; discriminate. }
  split.
  { intros _. exists tc, tp. unfold lookup_by_device.
    by rewrite Ed, lookup_insert_eq, Ea, lookup_insert_eq. }
  intros cid s Hs Hne.
  assert (Hs' : active_connections w' !! cid = Some s).
  { rewrite Ea, lookup_insert_ne; [by apply Hkeep|]. intros <-.
    assert (next_uuid w < next_uuid w)%nat; [|lia]. apply (ok_fresh _ Hok). eauto. }
  split; [done|]. by eapply lookup_by_device_live.
Qed.

(** X3. [connect] returns the fresh identifier or raises the error of
    [accept], of the welcome send or of the store, nothing else.  When
    [accept] raises, nothing was registered or torn down; when the welcome
    send raises, the new session is nevertheless registered and the device
    resolves to it.  Sessions of other devices are never touched. *)
Theorem connect_failure_modes ws d subs w w' r :
  registry_ok w -> connect ws d subs w = (w', r) ->
  (r = Ok (next_uuid w) \/ r = Raise AcceptError \/
   r = Raise SendError \/ r = Raise RedisError) /\
  (r = Raise AcceptError ->
   active_connections w' = active_connections w /\
   device_to_connection w' = device_to_connection w /\
   trace w' = (trace w ++ [EvAccept ws false])%list) /\
  (r = Raise SendError ->
   exists tc tp,
     lookup_by_device d w' = Some (new_connection ws d subs tc tp)) /\
  (forall cid s,
     active_connections w !! cid = Some s -> device_id s <> d ->
     active_connections w' !! cid = Some s /\
     lookup_by_device (device_id s) w' = Some s).
Proof. apply connect_outcomes. Qed.

(** X3 at a concrete world. *)
Lemma connect_failure_modes_witness :
  (connect 7 "D1" None (init (frozen 0) (fails_at 1))).2 = Raise SendError /\
  exists tc tp,
    lookup_by_device "D1" (connect 7 "D1" None (init (frozen 0) (fails_at 1))).1
      = Some (new_connection 7 "D1" None tc tp).
Proof.
  destruct (connect 7 "D1" None (init (frozen 0) (fails_at 1))) as [w' r] eqn:E.
  assert (Hr : r = Raise SendError).
  { replace r with (connect 7 "D1" None (init (frozen 0) (fails_at 1))).2
      by (rewrite E; reflexivity).
    vm_compute; reflexivity. }
  destruct (connect_failure_modes 7%nat "D1" None (init (frozen 0) (fails_at 1)) w' r)
    as (_ & _ & H & _).
  - apply init_ok.
  - exact E.
  - simpl. split; [exact Hr|]. apply H. exact Hr.
Defined.

(** ** Authentication *)

Lemma authenticate_keeps ws decoded w :
  keeps_registry w (authenticate_connection ws decoded w).1.
Proof.
  unfold authenticate_connection, ws_close_with, extern, bind, log, modify, ret.
  destruct decoded as [|[d|]]; simpl; try case_decide; simpl;
    repeat match goal with
           | |- context [if faulty ?w ?n then _ else _] =>
               destruct (faulty w n); simpl
           end; by split.
Qed.

(** X6. [authenticate_connection] never changes the registry and schedules
    nothing.  It returns the device id, without touching the channel, when
    the token decodes to a payload with a non-empty [device_id]; in every
    other case (invalid token, missing or empty [device_id]) its last action
    is to close the channel, and it returns [None], or raises when that
    close raises. *)
Theorem authentication_gate ws decoded w :
  keeps_registry w (authenticate_connection ws decoded w).1 /\
  tasks (authenticate_connection ws decoded w).1 = tasks w /\
  (forall d, decoded = Payload (Some d) -> d <> "" ->
     authenticate_connection ws decoded w = (w, Ok (Some d))) /\
  ((forall d, decoded = Payload (Some d) -> d = "") ->
   exists ok tl,
     trace (authenticate_connection ws decoded w).1 =
       (trace w ++ tl ++ [EvClose ws ok])%list /\
     sends tl = [] /\
     (authenticate_connection ws decoded w).2 =
       (if ok then Ok None else Raise CloseError)).
Proof.
  split; [apply authenticate_keeps|].
  unfold authenticate_connection, ws_close_with, extern, bind, log, modify, ret.
  split; [|split].
  - destruct decoded as [|[d|]]; simpl; try case_decide; simpl;
      repeat match goal with
             | |- context [if faulty ?w ?n then _ else _] =>
                 destruct (faulty w n); simpl
             end; done.
  - intros d -> Hd. by rewrite decide_False.
  - intros Hbad. destruct decoded as [|[d|]]; simpl.
    + destruct (faulty w _); simpl; rewrite <- (assoc_L (++));
        [exists false|exists true]; by eexists [_].
    + rewrite decide_True by by apply Hbad.
      destruct (faulty w _); simpl; [exists false|exists true]; by exists [].
    + destruct (faulty w _); simpl; [exists false|exists true]; by exists [].
Qed.

(** ** Invariants of every history *)

Lemma connect_sessions ws d subs w cid s :
  registry_ok w ->
  active_connections (connect ws d subs w).1 !! cid = Some s ->
  active_connections w !! cid = Some s \/
  exists tc tp, s = new_connection ws d subs tc tp.
Proof.
  intros Hok. rewrite connect_phases. unfold bind.
  destruct (connect_teardown ws d w) as [wm rt] eqn:Et.
  destruct (connect_teardown_spec _ _ _ _ _ Hok Et)
    as (Hokm & Hn & _ & _ & _ & _ & tl1 & Htr & Hcase).
  destruct Hcase as [(-> & -> & Ea & Ed)|(_ & Hrt & Hdm & _ & Hsub & Hkeep)].
  { simpl. rewrite Ea. auto. }
  destruct Hrt as [->|[-> _]]; [|simpl; auto].
  destruct (connect_store ws d subs (next_uuid w) wm) as [w' r] eqn:Es.
  assert (Hfr : active_connections wm !! next_uuid w = None).
  { destruct (active_connections wm !! next_uuid w) eqn:E; [|done].
    apply Hsub in E. assert (next_uuid w < next_uuid w)%nat; [|lia].
    apply (ok_fresh _ Hok). eauto. }
  destruct (connect_store_spec _ _ _ _ _ _ _ Hokm Hdm Hfr ltac:(lia) Es)
    as (_ & (tc & tp & Ea) & _).
  simpl. rewrite Ea. intros H.
  apply lookup_insert_Some in H as [[_ <-]|[_ H]]; eauto.
Qed.

Lemma send_security_update_keeps update_data tds w :
  keeps_registry w (send_security_update update_data tds w).1.
Proof.
  unfold send_security_update, bind at 1. unfold uuid4. unfold bind at 1.
  unfold utcnow. unfold bind at 1. unfold gets. simpl.
  match goal with |- context [send_updates ?m ?t 0%nat ?w1] =>
    destruct (send_updates_full m t 0%nat w1 eq_refl)
      as (w' & n & tl & E & Ha & Hd & Hn & Hr & Hck & Hfy & _)
  end.
  rewrite E. simpl in *. split; try done. lia.
Qed.

Lemma perform_ok c w : registry_ok w -> registry_ok (perform c w).
Proof.
  intros Hok.
  destruct c as [ws0 decoded|ws0 d0 subs0|cid0|d0|cid0 frame|a0 tds|upd tds|
                 msg mtype| | | |]; simpl.
  - eapply keeps_registry_ok; [apply authenticate_keeps|done].
  - by apply connect_ok.
  - by apply disconnect_ok.
  - by apply disconnect_device_ok.
  - by apply handle_client_message_ok.
  - destruct (send_threat_alert_full a0 tds w)
      as (w' & failed & E & Hk & _).
    rewrite E. by eapply keeps_registry_ok.
  - eapply keeps_registry_ok; [apply send_security_update_keeps|done].
  - destruct (broadcast_system_message_full msg mtype w)
      as (w' & n & tl & failed & E & Hk & _).
    rewrite E. by eapply keeps_registry_ok.
  - by eapply registry_ok_same; [..|exact Hok]; simpl; auto.
  - destruct (cleanup_iteration_spec w Hok) as (w' & tl & E & Hok' & _).
    by rewrite E.
  - destruct (heartbeat_iteration_full w) as (w' & tl & failed & E & Hk & _).
    rewrite E. by eapply keeps_registry_ok.
  - by apply run_tasks_ok.
Qed.

Lemma perform_sessions c w cid s :
  registry_ok w ->
  active_connections (perform c w) !! cid = Some s ->
  (exists s0, active_connections w !! cid = Some s0 /\
              device_id s = device_id s0 /\ websocket s = websocket s0 /\
              geographic_regions s = geographic_regions s0) \/
  (exists ws d subs tc tp, c = Connect ws d subs /\
                           s = new_connection ws d subs tc tp).
Proof.
  intros Hok.
  assert (Hsame : forall w', active_connections w' = active_connections w ->
            active_connections w' !! cid = Some s ->
            exists s0, active_connections w !! cid = Some s0 /\
              device_id s = device_id s0 /\ websocket s = websocket s0 /\
              geographic_regions s = geographic_regions s0).
  { intros w' -> H. by exists s. }
  destruct c as [ws0 decoded|ws0 d0 subs0|cid0|d0|cid0 frame|a0 tds|upd tds|
                 msg mtype| | | |]; simpl.
  - intros H. left. eapply Hsame; [|exact H]. apply authenticate_keeps.
  - intros H.
    destruct (connect_sessions _ _ _ _ _ _ Hok H) as [H'|(tc & tp & ->)].
    + left. by exists s.
    + right. by eexists _, _, _, _, _.
  - rewrite disconnect_lookup. destruct (decide _); [done|].
    intros H. left. by exists s.
  - unfold disconnect_device, bind, gets. simpl.
    destruct (device_to_connection w !! d0).
    + rewrite disconnect_lookup. destruct (decide _); [done|].
      intros H. left. by exists s.
    + intros H. left. by exists s.
  - destruct (active_connections w !! cid0) as [c0|] eqn:Hc.
    + destruct (handle_client_message cid0 frame w)
        as [w' r] eqn:E.
      destruct (handle_message_spec _ _ _ _ _ _ Hc E)
        as (c' & Ea & _ & _ & _ & Hd & Hws & Hg & _).
      simpl. rewrite Ea. intros H. left.
      apply lookup_insert_Some in H as [[<- <-]|[_ H]].
      * by exists c0.
      * by exists s.
    + unfold handle_client_message, bind, gets. simpl. rewrite Hc.
      intros H. left. by exists s.
  - destruct (send_threat_alert_full a0 tds w)
      as (w' & failed & E & Hk & _).
    rewrite E. intros H. left. eapply Hsame; [|exact H]. apply Hk.
  - intros H. left. eapply Hsame; [|exact H].
    apply send_security_update_keeps.
  - destruct (broadcast_system_message_full msg mtype w)
      as (w' & n & tl & failed & E & Hk & _).
    rewrite E. intros H. left. eapply Hsame; [|exact H]. apply Hk.
  - intros H. left. by exists s.
  - destruct (cleanup_iteration_spec w Hok)
      as (w' & tl & E & _ & _ & _ & _ & Hsub & _).
    rewrite E. intros H. left. exists s. split; [by apply Hsub|done].
  - destruct (heartbeat_iteration_full w) as (w' & tl & failed & E & Hk & _).
    rewrite E. intros H. left. eapply Hsame; [|exact H]. apply Hk.
  - rewrite run_tasks_lookup. destruct (decide _); [done|].
    intros H. left. by exists s.
Qed.

Lemma perform_all_snoc cs c w :
  perform_all (cs ++ [c]) w = perform c (perform_all cs w).
Proof. unfold perform_all. by rewrite foldl_app. Qed.

Lemma perform_all_ok cs w : registry_ok w -> registry_ok (perform_all cs w).
Proof.
  intros Hok. induction cs as [|c cs IH] using rev_ind; [done|].
  rewrite perform_all_snoc. by apply perform_ok.
Qed.

Lemma perform_all_regions cs c f cid s :
  active_connections (perform_all cs (init c f)) !! cid = Some s ->
  geographic_regions s = ["IN"].
Proof.
  revert cid s. induction cs as [|c0 cs IH] using rev_ind; intros cid s.
  { simpl. by rewrite lookup_empty. }
  rewrite perform_all_snoc. intros H.
  destruct (perform_sessions _ _ _ _ (perform_all_ok cs _ (init_ok c f)) H)
    as [(s0 & Hs0 & _ & _ & ->)|(ws & d & subs & tc & tp & _ & ->)];
    [by eapply IH|done].
Qed.

(** X1. In every world reached from a fresh manager by any sequence of
    calls (handlers, producers, background loops, event loop, with any
    failures), the two indexes agree: a device entry resolves to a live
    session of that device, every live session is the one its device
    resolves to, no two live sessions share a device, and both indexes have
    the same size. *)
Theorem registry_consistent_in_every_history cs c f :
  let w := perform_all cs (init c f) in
  (forall d s, lookup_by_device d w = Some s ->
     device_id s = d /\ exists cid, active_connections w !! cid = Some s) /\
  (forall cid s, active_connections w !! cid = Some s ->
     device_to_connection w !! device_id s = Some cid /\
     lookup_by_device (device_id s) w = Some s /\
     (cid < next_uuid w)%nat) /\
  (forall cid1 cid2 s1 s2,
     active_connections w !! cid1 = Some s1 ->
     active_connections w !! cid2 = Some s2 ->
     device_id s1 = device_id s2 -> cid1 = cid2) /\
  size (device_to_connection w) = size (active_connections w).
Proof.
  intros w. assert (Hok : registry_ok w) by apply perform_all_ok, init_ok.
  split; [|split; [|split]].
  - intros d s. by apply lookup_by_device_Some.
  - intros cid s Hs. split; [by apply (ok_active _ Hok)|].
    split; [by eapply lookup_by_device_live|]. apply (ok_fresh _ Hok). eauto.
  - intros *. by apply registry_ok_unique.
  - rewrite size_values, <- (length_fmap device_id).
    rewrite <- length_map_to_list, <- (length_fmap fst).
    apply Permutation_length, NoDup_Permutation.
    + apply NoDup_fst_map_to_list.
    + apply NoDup_fmap_2_strong; [|by apply values_NoDup].
      intros s1 s2 H1 H2 Hd.
      apply elem_of_values in H1 as [cid1 H1].
      apply elem_of_values in H2 as [cid2 H2].
      pose proof (registry_ok_unique _ _ _ _ _ Hok H1 H2 Hd) as ->. congruence.
    + intros d. rewrite !list_elem_of_fmap. split.
      * intros ([d' cid] & -> & Hin). apply elem_of_map_to_list in Hin.
        destruct (ok_device _ Hok _ _ Hin) as (s & Hs & Hdev).
        exists s. split; [done|]. apply elem_of_values. eauto.
      * intros (s & -> & Hin). apply elem_of_values in Hin as [cid Hs].
        exists (device_id s, cid). split; [done|].
        apply elem_of_map_to_list. by apply (ok_active _ Hok).
Qed.

(** ** Who is never alerted *)

Lemma broadcast_alert_selected_iff a w cid s :
  active_connections w !! cid = Some s ->
  s ∈ alert_targets a None w <-> _should_receive_alert s a = true.
Proof.
  intros Hs. simpl. rewrite list_elem_of_filter. split; [by intros [? _]|].
  intros H. split; [done|]. apply elem_of_values. eauto.
Qed.

Lemma nobody_eligible_nothing_sent a w :
  (forall cid s, active_connections w !! cid = Some s ->
     _should_receive_alert s a = false) ->
  exists w' tl,
    send_threat_alert a None w = (w', Ok 0%nat) /\
    trace w' = (trace w ++ tl)%list /\ sends tl = [] /\
    tasks w' = tasks w.
Proof.
  intros Hno.
  destruct (send_threat_alert_full a None w)
    as (w' & failed & E & _ & Htr & Htk & Hf2 & _).
  assert (Hnil : alert_targets a None w = []).
  { apply elem_of_nil_inv. intros c Hc. simpl in Hc.
    apply list_elem_of_filter in Hc as [He Hc].
    apply elem_of_values in Hc as [cid Hc]. rewrite (Hno _ _ Hc) in He.
    discriminate. }
  eexists w', _. split; [done|]. split; [exact Htr|].
  split; [apply sends_alert_trace|].
  rewrite Hnil in Hf2. destruct failed; [|done].
  rewrite Htk. simpl. by rewrite app_nil_r.
Qed.

Lemma alert_type_not_default t : alert_type_value t ∉ default_subscriptions.
Proof.
  unfold default_subscriptions.
  rewrite !elem_of_union, !elem_of_singleton. by destruct t; intros [[?|?]|?].
Qed.

(** X19. No alert type has a tag among the default subscriptions phishing,
    malware, scam.  So when every live session holds only default
    subscriptions, no session is eligible for any alert, and
    [send_threat_alert] without target devices sends nothing, returns 0 and
    schedules nothing. *)
Theorem default_subscriptions_match_no_alert a w :
  (forall cid s, active_connections w !! cid = Some s ->
     subscriptions s ⊆ default_subscriptions) ->
  (forall cid s, active_connections w !! cid = Some s ->
     _should_receive_alert s a = false) /\
  exists w' tl,
    send_threat_alert a None w = (w', Ok 0%nat) /\
    trace w' = (trace w ++ tl)%list /\ sends tl = [] /\
    tasks w' = tasks w.
Proof.
  intros Hdef.
  assert (Hno : forall cid s, active_connections w !! cid = Some s ->
            _should_receive_alert s a = false).
  { intros cid s Hs. unfold _should_receive_alert.
    rewrite bool_decide_eq_false_2; [done|].
    intros Hin. apply (Hdef _ _ Hs) in Hin.
    by apply alert_type_not_default in Hin. }
  split; [done|]. by apply nobody_eligible_nothing_sent.
Qed.

(** X19 at a concrete world. *)
Lemma default_subscriptions_match_no_alert_witness :
  exists w' tl,
    send_threat_alert (phishing_alert CRITICAL) None (w_connected healthy)
      = (w', Ok 0%nat) /\ sends tl = [].
Proof.
  destruct (default_subscriptions_match_no_alert (phishing_alert CRITICAL)
              (w_connected healthy)) as (_ & w' & tl & E & _ & Hs & _).
  - intros cid s Hs.
    assert (cid = 0%nat) as ->.
    { destruct (decide (cid = 0%nat)) as [|Hne]; [done|].
      exfalso. revert Hs. unfold w_connected.
      destruct (connect 7 "D1" None (init (frozen 0) healthy)) as [w1 r] eqn:E.
      intros Hs.
      pose proof (connect_sessions 7%nat "D1" None (init (frozen 0) healthy) cid s
                    (init_ok _ _)) as H.
      rewrite E in H. destruct (H Hs) as [H0|(tc & tp & ->)].
      - simpl in H0. by rewrite lookup_empty in H0.
      - assert (Hz : active_connections w1 !! 0%nat
                     = Some (new_connection 7 "D1" None 0 0)).
        { replace w1 with (connect 7 "D1" None (init (frozen 0) healthy)).1
            by (rewrite E; reflexivity).
          vm_compute; reflexivity. }
        assert (Hok1 : registry_ok w1).
        { replace w1 with (connect 7 "D1" None (init (frozen 0) healthy)).1
            by (rewrite E; reflexivity).
          apply connect_ok, init_ok. }
        apply Hne. by eapply (registry_ok_unique w1 cid 0%nat). }
    assert (s = new_connection 7 "D1" None 0 0) as ->.
    { assert (H : active_connections (w_connected healthy) !! 0%nat
                  = Some (new_connection 7 "D1" None 0 0))
        by (vm_compute; reflexivity).
      congruence. }
    done.
  - exists w', tl. split; [exact E|exact Hs].
Defined.

Lemma foreign_not_received s a :
  geographic_regions s = ["IN"] ->
  affected_regions a <> [] -> "IN" ∉ affected_regions a ->
  _should_receive_alert s a = false.
Proof.
  intros Hg Hne Hin. destruct (_should_receive_alert s a) eqn:E; [|done].
  apply should_receive_iff in E as (_ & _ & [?|[H|(r & H1 & H2)]]).
  - done.
  - by rewrite Hg in H.
  - rewrite Hg in H2. apply list_elem_of_singleton in H2 as ->. done.
Qed.

(** X20. No call ever changes the regions of a session: in every world
    reached from a fresh manager, every live session has regions ["IN"].
    Hence no session is eligible for an alert whose affected regions are
    non-empty and do not contain "IN". *)
Theorem regions_are_fixed cs c f cid s a :
  active_connections (perform_all cs (init c f)) !! cid = Some s ->
  geographic_regions s = ["IN"] /\
  (affected_regions a <> [] -> "IN" ∉ affected_regions a ->
   _should_receive_alert s a = false).
Proof.
  intros Hs. pose proof (perform_all_regions _ _ _ _ _ Hs) as Hg.
  split; [done|]. by apply foreign_not_received.
Qed.

(** X20 at a concrete world. *)
Lemma regions_are_fixed_witness :
  let cs := [Connect 7 "D1" None;
             HandleClientMessage 0 (subscribe_frame ["new_threat"] (Some 10))] in
  exists s,
    active_connections (perform_all cs (init (frozen 0) healthy)) !! 0%nat
      = Some s /\
    geographic_regions s = ["IN"].
Proof.
  intros cs. eexists. split; [vm_compute; reflexivity|].
  apply (regions_are_fixed cs (frozen 0) healthy 0%nat _ (phishing_alert LOW)).
  vm_compute; reflexivity.
Defined.

Section FactoryProperties.

Variable uuid_str : nat -> string.
Variable isoformat : Z -> string.






End FactoryProperties.



(** ** The session a successful [connect] creates *)

(** X2. A [connect] that returns stores a session for the device with the
    channel of the call, the given subscriptions, or the defaults when none
    or an empty set is given, threshold 50 and regions ["IN"]; the welcome
    envelope was accepted by the channel and the metadata written to the
    store with a TTL of 3600 seconds. *)
Theorem connect_initial_state ws d subs w w' cid :
  registry_ok w -> connect ws d subs w = (w', Ok cid) ->
  exists s,
    lookup_by_device d w' = Some s /\
    active_connections w' !! cid = Some s /\
    device_id s = d /\ websocket s = ws /\
    subscriptions s =
      match subs with
      | Some given => if decide (given = ∅) then default_subscriptions
                      else given
      | None => default_subscriptions
      end /\
    risk_threshold s = 50 /\ geographic_regions s = ["IN"] /\
    (exists m, EvSend ws m true ∈ trace w' /\
               message_type m = "connection_established" /\
               msg_device_id m = Some d /\
               exists t, data m = DConnectionEstablished cid (or_nil subs) t) /\
    (exists v, EvSetex cid 3600 v true ∈ trace w').
Proof.
  intros Hok. rewrite connect_phases. unfold bind.
  destruct (connect_teardown ws d w) as [wm rt] eqn:Et.
  destruct (connect_teardown_spec _ _ _ _ _ Hok Et)
    as (Hokm & Hn & _ & _ & _ & _ & tl1 & Htr & Hcase).
  destruct Hcase as [(-> & _)|(_ & Hrt & Hdm & _ & Hsub & _)]; [done|].
  destruct Hrt as [->|[-> _]]; [|done].
  intros Es.
  assert (Hfr : active_connections wm !! next_uuid w = None).
  { destruct (active_connections wm !! next_uuid w) eqn:E; [|done].
    apply Hsub in E. assert (next_uuid w < next_uuid w)%nat; [|lia].
    apply (ok_fresh _ Hok). eauto. }
  destruct (connect_store_spec _ _ _ _ _ _ _ Hokm Hdm Hfr ltac:(lia) Es)
    as (_ & (tc & tp & Ea) & Ed & _ & _ & _ & _ & m & ok & tl2 & Htr' & Hmt &
        Hmd & Hdata & Hr).
  destruct Hr as [(Hc & -> & v & ->)|[(? & _)|(? & _)]]; try discriminate.
  inversion Hc; subst cid.
  exists (new_connection ws d subs tc tp).
  split. { unfold lookup_by_device. by rewrite Ed, lookup_insert_eq, Ea, lookup_insert_eq. }
  split; [by rewrite Ea, lookup_insert_eq|].
  repeat (split; [done|]). split.
  - exists m. split; [|done]. rewrite Htr'. apply elem_of_app. right.
    apply list_elem_of_here.
  - exists v. rewrite Htr'. apply elem_of_app. right.
    apply list_elem_of_further, list_elem_of_here.
Qed.

(** X2 at a concrete world. *)
Lemma connect_initial_state_witness :
  exists s,
    lookup_by_device "D1"
      (connect 7 "D1" (Some ∅) (init (frozen 0) healthy)).1 = Some s /\
    subscriptions s = default_subscriptions.
Proof.
  destruct (connect 7 "D1" (Some ∅) (init (frozen 0) healthy)) as [w' r] eqn:E.
  assert (Hr : r = Ok 0%nat).
  { replace r with (connect 7 "D1" (Some ∅) (init (frozen 0) healthy)).2
      by (rewrite E; reflexivity).
    vm_compute; reflexivity. }
  subst r.
  destruct (connect_initial_state 7%nat "D1" (Some ∅) (init (frozen 0) healthy)
              w' 0%nat (init_ok _ _) E) as (s & Hl & _ & _ & _ & Hs & _).
  exists s. split; [exact Hl|]. rewrite Hs. reflexivity.
Defined.

(** ** A threshold no alert can reach *)

(** X23. A subscribe frame may set any threshold, and one above 95, the
    highest severity score, silences the session: after it,
    [send_threat_alert] without target devices does not send the session any
    alert, whatever its severity.  The session is not even selected, so the
    call does not schedule its [disconnect] and it is still registered once
    the event loop has run. *)
Theorem threshold_above_scores_silences cid c frame t a w :
  registry_ok w ->
  active_connections w !! cid = Some c ->
  in_type frame = Some "subscribe" ->
  in_risk_threshold frame = Some t -> 95 < t ->
  let w1 := (handle_client_message cid frame w).1 in
  exists c1 w' n tl,
    active_connections w1 !! cid = Some c1 /\
    risk_threshold c1 = t /\
    send_threat_alert a None w1 = (w', Ok n) /\
    trace w' = (trace w1 ++ tl)%list /\
    (addressed (alert_message a w1) c1 ∉ sends tl) /\
    (c1 ∉ alert_targets a None w1) /\
    (cid ∉ tasks w1 ->
     lookup_by_device (device_id c1) (run_tasks w') = Some c1).
Proof.
  intros Hok Hc Hty Hth Ht w1.
  destruct (handle_client_message cid frame w) as [w1' r] eqn:E.
  destruct (handle_client_message_spec _ _ _ _ _ _ Hc E)
    as (c1 & Ea & _ & _ & _ & _ & _ & _ & _ & Hrt).
  rewrite decide_True, Hth in Hrt by done. simpl in Hrt.
  assert (Hc1 : active_connections w1 !! cid = Some c1).
  { subst w1. simpl. by rewrite Ea, lookup_insert_eq. }
  assert (Hok1 : registry_ok w1).
  { pose proof (handle_client_message_ok cid frame w Hok) as H.
    by rewrite E in H. }
  destruct (alert_teardown a None w1 cid c1 Hok1 Hc1)
    as (w' & tl & Es & _ & Htr & Hsd & _ & _ & Hout).
  assert (Hnot : c1 ∉ alert_targets a None w1).
  { rewrite (broadcast_alert_selected_iff a w1 cid c1 Hc1), should_receive_iff.
    intros (_ & H & _).
    rewrite Hrt in H. destruct (severity a); simpl in H; lia. }
  exists c1, w', 0%nat, tl. repeat (split; [done|]).
  split. { rewrite Hsd. apply not_elem_of_nil. }
  split; [done|]. intros Hnt. by destruct (Hout Hnot Hnt) as (_ & _ & ?).
Qed.

(** X23 at a concrete world. *)
Lemma threshold_above_scores_silences_witness :
  let w := (handle_client_message 0 (subscribe_frame ["new_threat"] None)
              (w_connected healthy)).1 in
  let w1 := (handle_client_message 0 (subscribe_frame [] (Some 96)) w).1 in
  exists c1 w' n tl,
    active_connections w1 !! 0%nat = Some c1 /\
    "new_threat" ∈ subscriptions c1 /\
    send_threat_alert (phishing_alert CRITICAL) None w1 = (w', Ok n) /\
    addressed (alert_message (phishing_alert CRITICAL) w1) c1 ∉ sends tl.
Proof.
  intros w w1.
  destruct (threshold_above_scores_silences 0
              (set_subscriptions
                 {[ "phishing"; "malware"; "scam"; "new_threat" ]}
                 (new_connection 7 "D1" None 0 0))
              (subscribe_frame [] (Some 96)) 96 (phishing_alert CRITICAL) w)
    as (c1 & w' & n & tl & Hc1 & _ & Es & _ & Hno & _).
  - apply handle_client_message_ok, connect_ok, init_ok.
  - vm_compute; reflexivity.
  - reflexivity.
  - reflexivity.
  - lia.
  - exists c1, w', n, tl. split; [exact Hc1|]. split.
    + assert (H : active_connections w1 !! 0%nat
                  = Some (set_risk_threshold 96
                            (set_subscriptions
                               {[ "phishing"; "malware"; "scam"; "new_threat" ]}
                               (new_connection 7 "D1" None 0 0))))
        by (vm_compute; reflexivity).
      fold w1 in Hc1. rewrite Hc1 in H. inversion H. vm_compute. reflexivity.
    + split; [exact Es|exact Hno].
Defined.
